(** * The [navmesh] A-Frame component: ground following with obstacle exclusion

    A shallow embedding of the [navmesh] component (its [update] handler and
    its per-frame [tick]) and the properties of its scan loop, gravity
    integration, rollback and guards; and of the [model-loaded] handlers of
    the [lightmap] and [lightmap-test] components.

    Conventions of the embedding:
    - JavaScript numbers are idealised as exact rationals ([Q]); [Infinity]
      (only used for [raycaster.far]) is [None] in an [option Q].
    - The scene graph, the DOM and the ray caster are the host's; they enter
      as a record of functions, [Scene].
    - A [TypeError] raised by dereferencing [null] is the completion [Throw];
      the state at the moment of the throw is kept.
    - The scratch objects of the closure ([nextPosition], [tempVec],
      [results], [raycaster]) are written before they are read in every call
      and [results] is emptied on every path that filled it, so they carry
      nothing from one call to the next and are local values here.
    - The elements a selector matches are A-Frame entities, each with its
      [object3D]; a matched element that is not an entity (it would leave
      [undefined] among [objects]) is outside the embedding. *)

From Stdlib Require Import QArith Bool Ascii String List Lia Lqa.
From stdpp Require Import base list gmap strings.
Import ListNotations.

Local Open Scope Q_scope.

(** ** Numbers *)

(** [a < b] on numbers, as a boolean. *)
Definition Qlt_bool (a b : Q) : bool := negb (Qle_bool b a).

(** [Math.max(a, b)]. *)
Definition Math_max (a b : Q) : Q := if Qle_bool a b then b else a.

(** Truthiness of a string: the empty string is falsy. *)
Definition truthy (s : string) : bool := negb (String.eqb s EmptyString).

(** ** THREE.Vector3 *)

Module THREE.

Record Vector3 : Type := Vec3 { x : Q; y : Q; z : Q }.

(** [new THREE.Vector3()] *)
Definition zero : Vector3 := Vec3 0 0 0.

(** [t.subVectors(a, b)] *)
Definition subVectors (a b : Vector3) : Vector3 :=
  Vec3 (x a - x b) (y a - y b) (z a - z b).

(** [v.multiplyScalar(s)] *)
Definition multiplyScalar (v : Vector3) (s : Q) : Vector3 :=
  Vec3 (x v * s) (y v * s) (z v * s).

(** [v.add(w)] *)
Definition add (v w : Vector3) : Vector3 :=
  Vec3 (x v + x w) (y v + y w) (z v + z w).

(** [v.sub(w)] *)
Definition sub (v w : Vector3) : Vector3 :=
  Vec3 (x v - x w) (y v - y w) (z v - z w).

(** [v.y += d] *)
Definition addY (v : Vector3) (d : Q) : Vector3 := Vec3 (x v) (y v + d) (z v).

(** [v.y -= d] *)
Definition subY (v : Vector3) (d : Q) : Vector3 := Vec3 (x v) (y v - d) (z v).

(** [v.y = d] *)
Definition setY (v : Vector3) (d : Q) : Vector3 := Vec3 (x v) d (z v).

(** [v.distanceToSquared(w)] *)
Definition distanceToSquared (v w : Vector3) : Q :=
  let dx := x v - x w in
  let dy := y v - y w in
  let dz := z v - z w in
  dx * dx + dy * dy + dz * dz.

(** [v.distanceTo(w) <= r] for a non-negative [r]: [distanceTo] is the
    square root of [distanceToSquared] and the square root is monotone, so on
    exact numbers the test is the comparison of the squares. *)
Definition distanceTo_le (v w : Vector3) (r : Q) : bool :=
  Qle_bool (distanceToSquared v w) (r * r).

End THREE.

Abbreviation Vector3 := THREE.Vector3.

(** ** Entities, objects, intersections *)

(** An A-Frame entity (a DOM element), by handle. *)
Definition Entity : Type := nat.

(** [el.object3D]: the object of an entity. *)
Inductive Object3D : Type := object3D (el : Entity).

(** One entry of the array filled by [raycaster.intersectObjects]:
    [distance], [point] and [object.el], the entity owning the mesh hit. *)
Record Intersection : Type := {
  distance : Q;
  point : Vector3;
  object_el : Entity
}.

(** The ray handed to the ray caster: [raycaster.set(origin, down)] and
    [raycaster.far]; the direction is always [down]. *)
Record Ray : Type := { origin : Vector3; far : option Q }.

(** ** The host: DOM, scene graph and ray caster *)

Record Scene : Type := {
  (** [document.querySelectorAll(sel)]; [None] when the selector is not valid
      (the DOM raises a [SyntaxError], as it does for the empty string). *)
  querySelectorAll : string -> option (list Entity);
  (** [el.querySelector(sel)]: outer [None] when the selector is not valid,
      [Some None] when nothing matches ([null]). *)
  querySelector : Entity -> string -> option (option Entity);
  (** [o.object3D.getWorldPosition(target)] for the origin entity [o], which is
      the agent or one of its descendants: the second argument is the agent's
      local position [el.object3D.position]. *)
  getWorldPosition : Entity -> Vector3 -> Vector3;
  (** [o.object3D.position] of an entity other than the agent. *)
  objectPosition : Entity -> Vector3;
  (** [o.object3D.parent.worldToLocal(v)] *)
  parentWorldToLocal : Entity -> Vector3 -> Vector3;
  (** [v.applyAxisAngle(down, angle * Math.PI / 180)], [angle] in degrees. *)
  applyAxisAngle_down : Q -> Vector3 -> Vector3;
  (** [raycaster.intersectObjects(objects, true, results)] on an empty
      [results], for the ray from the given origin straight down: the hits
      ordered by distance. *)
  intersectObjects : list Object3D -> Ray -> list Intersection
}.

(** ** The component *)

(** [this.data], after the schema. *)
Module Schema.
Record t : Type := {
  enabled : bool;
  navmesh : string;
  fall : Q;
  height : Q;
  exclude : string;
  xzOrigin : string
}.

(** The defaults of the schema. *)
Definition default : t :=
  {| enabled := true; navmesh := EmptyString; fall := 0.5; height := 1.6;
     exclude := EmptyString; xzOrigin := EmptyString |}.

Definition set_enabled (d : t) (b : bool) : t :=
  {| enabled := b; navmesh := navmesh d; fall := fall d; height := height d;
     exclude := exclude d; xzOrigin := xzOrigin d |}.
End Schema.

(** The fields of one component instance ([this]), with the agent's local
    position [this.el.object3D.position]. *)
Record Component : Type := {
  data : Schema.t;
  el : Entity;
  lastPosition : option Vector3;
  excludes : list Entity;
  objects : list Object3D;
  xzOrigin : option Entity;
  position : Vector3
}.

Definition set_data (s : Component) (d : Schema.t) : Component :=
  {| data := d; el := el s; lastPosition := lastPosition s;
     excludes := excludes s; objects := objects s; xzOrigin := xzOrigin s;
     position := position s |}.

Definition set_lastPosition (s : Component) (p : option Vector3) : Component :=
  {| data := data s; el := el s; lastPosition := p;
     excludes := excludes s; objects := objects s; xzOrigin := xzOrigin s;
     position := position s |}.

Definition set_excludes (s : Component) (l : list Entity) : Component :=
  {| data := data s; el := el s; lastPosition := lastPosition s;
     excludes := l; objects := objects s; xzOrigin := xzOrigin s;
     position := position s |}.

Definition set_objects (s : Component) (l : list Object3D) : Component :=
  {| data := data s; el := el s; lastPosition := lastPosition s;
     excludes := excludes s; objects := l; xzOrigin := xzOrigin s;
     position := position s |}.

Definition set_xzOrigin (s : Component) (o : option Entity) : Component :=
  {| data := data s; el := el s; lastPosition := lastPosition s;
     excludes := excludes s; objects := objects s; xzOrigin := o;
     position := position s |}.

Definition set_position (s : Component) (p : Vector3) : Component :=
  {| data := data s; el := el s; lastPosition := lastPosition s;
     excludes := excludes s; objects := objects s; xzOrigin := xzOrigin s;
     position := p |}.

(** The variables captured by the [tick] closure. The closure is built once,
    when the component is registered, and [tick] is one function on the
    component prototype: there is one [yVel] and one [firstTry]. *)
Record Closure : Type := { yVel : Q; firstTry : bool }.

(** The closure as the immediately invoked function leaves it. *)
Definition initialClosure : Closure := {| yVel := 0; firstTry := true |}.

Definition set_yVel (c : Closure) (v : Q) : Closure :=
  {| yVel := v; firstTry := firstTry c |}.

Definition set_firstTry (c : Closure) (b : bool) : Closure :=
  {| yVel := yVel c; firstTry := b |}.

(** How a call ends. *)
Inductive Completion : Type := Normal | Throw.

(** ** [update] *)

(** The value of [Array.from(...)] compared with [null]. *)
Inductive ArrayOrNull : Type :=
| Null
| Arr (l : list Entity).

(** [Array.from(nodeList)]: always an array. *)
Definition Array_from (l : list Entity) : ArrayOrNull := Arr l.

Definition warning : string := "navmesh-physics: Did not match any elements".

(** [update]: the completion, the component, and what [console.warn]
    received. *)
Definition update (sc : Scene) (s : Component)
  : Completion * Component * list string :=
  let s := set_lastPosition s None in
  match (if truthy (Schema.exclude (data s))
         then querySelectorAll sc (Schema.exclude (data s))
         else Some []) with
  | None => (Throw, s, [])
  | Some ex =>
    let s := set_excludes s ex in
    match querySelectorAll sc (Schema.navmesh (data s)) with
    | None => (Throw, s, [])
    | Some nodes =>
      let els := Array_from nodes in
      let '(s, log) :=
        match els with
        | Null => (set_objects s [], [warning])
        | Arr els =>
          (set_objects s (map object3D els ++ map object3D (excludes s)), [])
        end in
      if truthy (Schema.xzOrigin (data s))
      then match querySelector sc (el s) (Schema.xzOrigin (data s)) with
           | None => (Throw, s, log)
           | Some o => (Normal, set_xzOrigin s o, log)
           end
      else (Normal, set_xzOrigin s (Some (el s)), log)
    end
  end.

(** ** [tick] *)

(** [scanPattern]: angle in degrees, distance multiplier. *)
Definition scanPattern : list (Q * Q) :=
  [ (0, 1); (0, 0.5); (30, 0.4); (-30, 0.4);
    (60, 0.2); (-60, 0.2); (80, 0.06); (-80, 0.06) ].

Definition gravity : Q := -1.
Definition maxYVelocity : Q := 0.5.

(** What a call of [tick] leaves: how it ended, the closure, the component,
    and the rays it cast, in order. *)
Record Frame : Type := {
  completion : Completion;
  closure : Closure;
  component : Component;
  casts : list Ray
}.

(** One more ray cast before the frame. *)
Definition cast (r : Ray) (f : bool * Frame) : bool * Frame :=
  (fst f,
   {| completion := completion (snd f); closure := closure (snd f);
      component := component (snd f); casts := r :: casts (snd f) |}).

(** [array.includes(e)] *)
Definition includes (l : list Entity) (e : Entity) : bool :=
  existsb (Nat.eqb e) l.

Section Tick.

Variable sc : Scene.

(** [o.object3D.position], where [o] may be the agent itself. *)
Definition object3D_position (s : Component) (o : Entity) : Vector3 :=
  if Nat.eqb o (el s) then position s else objectPosition sc o.

(** The world position of the origin, lowered by the origin's local height
    when [data.xzOrigin] is set. *)
Definition sampleOrigin (s : Component) (o : Entity) : Vector3 :=
  let p := getWorldPosition sc o (position s) in
  if truthy (Schema.xzOrigin (data s))
  then THREE.subY p (THREE.y (object3D_position s o))
  else p.

(** The ray of one scan candidate. *)
Definition candidateRay (s : Component) (nextPosition last : Vector3)
           (angle distance : Q) : Ray :=
  let tempVec := THREE.subVectors nextPosition last in
  let tempVec := applyAxisAngle_down sc angle tempVec in
  let tempVec := THREE.multiplyScalar tempVec distance in
  let tempVec := THREE.add tempVec last in
  let tempVec := THREE.addY tempVec maxYVelocity in
  let tempVec := THREE.subY tempVec (Schema.height (data s)) in
  {| origin := tempVec;
     far := if Qlt_bool 0 (Schema.fall (data s))
            then Some (Schema.fall (data s) + maxYVelocity)
            else None |}.

(** The body of the scan loop from "Valid surface found" to [break]. *)
Definition acceptHit (delta : Q) (nextPosition : Vector3)
           (c : Closure) (s : Component) (result0 : Intersection) : Frame :=
  let hitPos := point result0 in
  let hitPos := THREE.addY hitPos (Schema.height (data s)) in
  let '(c, hitPos) :=
    if Qlt_bool 0.01 (THREE.y nextPosition - (THREE.y hitPos - yVel c * 2))
    then
      let c := set_yVel c (yVel c + Math_max (gravity * delta * 0.001)
                                             (- maxYVelocity)) in
      (c, THREE.setY hitPos (THREE.y nextPosition + yVel c))
    else (set_yVel c 0, hitPos) in
  match xzOrigin s with
  | None => {| completion := Throw; closure := c; component := s; casts := [] |}
  | Some o =>
    let tempVec := hitPos in
    let tempVec := parentWorldToLocal sc o tempVec in
    let tempVec := THREE.sub tempVec (object3D_position s o) in
    let tempVec :=
      if truthy (Schema.xzOrigin (data s))
      then THREE.addY tempVec (THREE.y (object3D_position s o))
      else tempVec in
    let s := set_position s (THREE.add (position s) tempVec) in
    let s := set_lastPosition s (Some hitPos) in
    {| completion := Normal; closure := c; component := s; casts := [] |}
  end.

(** The labelled loop over the scan pattern; the boolean is [didHit]. *)
Fixpoint scanPatternLoop (pattern : list (Q * Q)) (delta : Q)
         (nextPosition : Vector3) (c : Closure) (s : Component)
  : bool * Frame :=
  match pattern with
  | [] => (false, {| completion := Normal; closure := c; component := s;
                     casts := [] |})
  | (angle, distance) :: rest =>
    match lastPosition s with
    | None => (false, {| completion := Throw; closure := c; component := s;
                         casts := [] |})
    | Some last =>
      let ray := candidateRay s nextPosition last angle distance in
      let results := intersectObjects sc (objects s) ray in
      match results with
      | [] => cast ray (scanPatternLoop rest delta nextPosition c s)
      | result0 :: _ =>
        if existsb (fun result => includes (excludes s) (object_el result))
                   results
        then cast ray (scanPatternLoop rest delta nextPosition c s)
        else cast ray (true, acceptHit delta nextPosition c s result0)
      end
    end
  end.

(** The end of [tick], after the loop: [firstTry] is cleared on a hit, and
    without a hit, when [firstTry] is clear, the agent is put back on
    [lastPosition]. *)
Definition afterScan (r : bool * Frame) : Frame :=
  let '(didHit, f) := r in
  match completion f with
  | Throw => f
  | Normal =>
    let c := closure f in
    let s := component f in
    let c := if didHit then set_firstTry c false else c in
    if negb (firstTry c) && negb didHit
    then
      match lastPosition s with
      | None => {| completion := Throw; closure := c; component := s;
                   casts := casts f |}
      | Some last =>
        {| completion := Normal; closure := c;
           component := set_position s (parentWorldToLocal sc (el s) last);
           casts := casts f |}
      end
    else {| completion := Normal; closure := c; component := s;
            casts := casts f |}
  end.

(** [tick(time, delta)] *)
Definition tick (time delta : Q) (c : Closure) (s : Component) : Frame :=
  if negb (Schema.enabled (data s))
  then {| completion := Normal; closure := c; component := s; casts := [] |}
  else
    let init :=
      match lastPosition s with
      | Some _ => (Normal, c, s)
      | None =>
        let c := set_firstTry c true in
        match xzOrigin s with
        | None => (Throw, c, set_lastPosition s (Some THREE.zero))
        | Some o => (Normal, c, set_lastPosition s (Some (sampleOrigin s o)))
        end
      end in
    match init with
    | (Throw, c, s) =>
      {| completion := Throw; closure := c; component := s; casts := [] |}
    | (Normal, c, s) =>
      if Nat.eqb (length (objects s)) 0
      then {| completion := Normal; closure := c; component := s;
              casts := [] |}
      else
        match xzOrigin s, lastPosition s with
        | None, _ | _, None =>
          {| completion := Throw; closure := c; component := s; casts := [] |}
        | Some o, Some last =>
          let nextPosition := sampleOrigin s o in
          if THREE.distanceTo_le nextPosition last 0.01
          then {| completion := Normal; closure := c; component := s;
                  casts := [] |}
          else
            afterScan (scanPatternLoop scanPattern delta nextPosition c s)
        end
    end.

End Tick.

(** ** The component's life cycle and several instances *)

(** [el.setAttribute('navmesh', 'enabled', b)], the way the component is
    disabled and enabled again (usage example 6 of the source). The host
    stores the new value in [this.data] and, when the data changed, calls
    [update], which "updates the component when schema properties change". *)
Definition setAttribute_enabled (sc : Scene) (b : bool) (s : Component)
  : Completion * Component * list string :=
  if Bool.eqb (Schema.enabled (data s)) b
  then (Normal, s, [])
  else update sc (set_data s (Schema.set_enabled (data s) b)).

(** All the instances of the component in a page, and the one closure of
    [tick] they share. *)
Record World : Type := { shared : Closure; components : list Component }.

(** The host calls [tick] on instance [i]. *)
Definition tickComponent (sc : Scene) (i : nat) (time delta : Q) (w : World)
  : World :=
  match components w !! i with
  | None => w
  | Some s =>
    let f := tick sc time delta (shared w) s in
    {| shared := closure f; components := <[i := component f]> (components w) |}
  end.

(** Whether one candidate is passed over by the scan: its ray hits nothing,
    or one of its hits is on an excluded entity. *)
Definition rejected (s : Component) (results : list Intersection) : bool :=
  match results with
  | [] => true
  | _ :: _ =>
    existsb (fun result => includes (excludes s) (object_el result)) results
  end.

(** The hits of one candidate of the scan pattern. *)
Definition candidateResults (sc : Scene) (s : Component)
           (nextPosition last : Vector3) (cand : Q * Q) : list Intersection :=
  intersectObjects sc (objects s)
                   (candidateRay sc s nextPosition last (fst cand) (snd cand)).

(** The rays of a run of candidates. *)
Definition raysOf (sc : Scene) (s : Component) (nextPosition last : Vector3)
           (cands : list (Q * Q)) : list Ray :=
  map (fun cand => candidateRay sc s nextPosition last (fst cand) (snd cand))
      cands.

(** A frame with rays cast before it. *)
Definition castAll (rays : list Ray) (f : bool * Frame) : bool * Frame :=
  fold_right cast f rays.

(** ** A concrete scene

    Horizontal patches under a straight-down ray caster: the agent (entity 0)
    stands at the root of the scene, so world and local coordinates coincide.
    Used to run the component on concrete frames. *)

Module Demo.

(** A horizontal strip of surface at height [patch_y], for
    [patch_xmin <= x <= patch_xmax], owned by entity [patch_el]. *)
Record Patch : Type := {
  patch_el : Entity;
  patch_y : Q;
  patch_xmin : Q;
  patch_xmax : Q
}.

(** The hit of a downward ray on one patch, if any. *)
Definition hitPatch (r : Ray) (p : Patch) : list Intersection :=
  let o := origin r in
  let d := THREE.y o - patch_y p in
  if Qle_bool (patch_xmin p) (THREE.x o) && Qle_bool (THREE.x o) (patch_xmax p)
     && Qle_bool 0 d
     && match far r with Some f => Qle_bool d f | None => true end
  then [ {| distance := d;
            point := THREE.Vec3 (THREE.x o) (patch_y p) (THREE.z o);
            object_el := patch_el p |} ]
  else [].

(** Insertion into a list of hits ordered by distance. *)
Fixpoint insertHit (h : Intersection) (l : list Intersection)
  : list Intersection :=
  match l with
  | [] => [h]
  | h' :: l' =>
    if Qle_bool (distance h) (distance h') then h :: l
    else h' :: insertHit h l'
  end.

Definition sortHits (l : list Intersection) : list Intersection :=
  fold_right insertHit [] l.

(** All the hits of the ray on the patches owned by the given objects. *)
Definition intersect (patches : list Patch) (objs : list Object3D) (r : Ray)
  : list Intersection :=
  sortHits
    (flat_map
       (fun ob => match ob with
                  | object3D e =>
                    flat_map (fun p => if Nat.eqb (patch_el p) e
                                       then hitPatch r p else [])
                             patches
                  end)
       objs).

(** Cosine and sine of the angles of the scan pattern, to three places. *)
Definition cos_sin (angle : Q) : Q * Q :=
  if Qeq_bool angle 30 then (0.866, 0.5)
  else if Qeq_bool angle (-30) then (0.866, -0.5)
  else if Qeq_bool angle 60 then (0.5, 0.866)
  else if Qeq_bool angle (-60) then (0.5, -0.866)
  else if Qeq_bool angle 80 then (0.174, 0.985)
  else if Qeq_bool angle (-80) then (0.174, -0.985)
  else (1, 0).

(** Rotation about the axis (0, -1, 0). *)
Definition rotate (angle : Q) (v : Vector3) : Vector3 :=
  let '(c, s) := cos_sin angle in
  THREE.Vec3 (THREE.x v * c - THREE.z v * s)
             (THREE.y v)
             (THREE.z v * c + THREE.x v * s).

(** The entities behind the selectors of the scene. *)
Definition select (sel : string) : option (list Entity) :=
  if String.eqb sel "" then None
  else if String.eqb sel ".ground" then Some [1%nat]
  else if String.eqb sel ".obstacle" then Some [2%nat]
  else if String.eqb sel ".ground, .platform" then Some [1%nat; 3%nat]
  else if String.eqb sel ".obstacle, .lava" then Some [2%nat; 4%nat]
  else Some [].

(** Ground (1) at height 0; a low obstacle (2) for 1 <= x <= 2; a platform
    (3) over a strip of lava (4) for 5 <= x <= 6. *)
Definition patches : list Patch :=
  [ {| patch_el := 1%nat; patch_y := 0; patch_xmin := -100; patch_xmax := 100 |};
    {| patch_el := 2%nat; patch_y := 0.3; patch_xmin := 1; patch_xmax := 2 |};
    {| patch_el := 3%nat; patch_y := 0.4; patch_xmin := 5; patch_xmax := 6 |};
    {| patch_el := 4%nat; patch_y := 0.1; patch_xmin := 5; patch_xmax := 6 |} ].

(** The scene made of the given patches. *)
Definition sceneOf (ps : list Patch) : Scene :=
  {| querySelectorAll := select;
     querySelector := fun _ sel =>
       if String.eqb sel "" then None else Some None;
     getWorldPosition := fun _ p => p;
     objectPosition := fun _ => THREE.zero;
     parentWorldToLocal := fun _ v => v;
     applyAxisAngle_down := rotate;
     intersectObjects := intersect ps |}.

Definition scene : Scene := sceneOf patches.

(** Nothing but ground (1), at height -1.6. *)
Definition lowGround : list Patch :=
  [ {| patch_el := 1%nat; patch_y := -1.6; patch_xmin := -100;
       patch_xmax := 100 |} ].

(** A component as the host creates it, before the first [update]. *)
Definition fresh (d : Schema.t) (p : Vector3) : Component :=
  {| data := d; el := 0%nat; lastPosition := None; excludes := [];
     objects := []; xzOrigin := None; position := p |}.

Definition configure (navmesh exclude : string) (fall : Q) : Schema.t :=
  {| Schema.enabled := true; Schema.navmesh := navmesh; Schema.fall := fall;
     Schema.height := 1.6; Schema.exclude := exclude;
     Schema.xzOrigin := "" |}.

(** The component after [update] in the scene [sc], standing at [p] with
    [lastPosition] at [last]. *)
Definition standingIn (sc : Scene) (navmesh exclude : string) (fall : Q)
           (last p : Vector3) : Component :=
  set_lastPosition
    (snd (fst (update sc (fresh (configure navmesh exclude fall) p))))
    (Some last).

Definition standing (navmesh exclude : string) (fall : Q)
           (last p : Vector3) : Component :=
  standingIn scene navmesh exclude fall last p.

(** The same component on another entity of the scene. *)
Definition onEntity (e : Entity) (s : Component) : Component :=
  {| data := data s; el := e; lastPosition := lastPosition s;
     excludes := excludes s; objects := objects s; xzOrigin := Some e;
     position := position s |}.

(** Two agents after their first frames: the first one (entity 0) is in the
    air over the ground, the second one (entity 5) has stepped onto the
    platform over the lava. *)
Definition twoAgents : World :=
  {| shared := initialClosure;
     components :=
       [ standing ".ground" "" 0 (THREE.Vec3 0 5 0) (THREE.Vec3 0.1 5 0);
         onEntity 5%nat
           (standing ".ground, .platform" ".obstacle, .lava" 0.5
              (THREE.Vec3 5 1.6 0) (THREE.Vec3 5.5 1.6 0)) ] |}.

(** The movement controls displace the agent by [d], then the frame
    ticks. *)
Definition moveAndTick (d : Vector3) (delta : Q) (cs : Closure * Component)
  : Closure * Component :=
  let s := set_position (snd cs) (THREE.add (position (snd cs)) d) in
  let f := tick scene 0 delta (fst cs) s in
  (closure f, component f).

Fixpoint frames (n : nat) (d : Vector3) (delta : Q)
         (cs : Closure * Component) : Closure * Component :=
  match n with
  | O => cs
  | S n' => frames n' d delta (moveAndTick d delta cs)
  end.

End Demo.

(** ** Two agents, frame by frame

    Two agents with the same configuration (ground and platform walkable,
    obstacle and lava excluded) on the ground beside the platform that hangs
    over the lava: the first (entity 0) starts at x = 4.5, the second
    (entity 5) at x = 5, under the edge of the platform. *)

Module Story.

(** The controls move the agent of instance [i] to [p]. *)
Definition move (i : nat) (p : Vector3) (w : World) : World :=
  {| shared := shared w;
     components := alter (fun s => set_position s p) i (components w) |}.

(** The host configures instance [i] again. *)
Definition reconfigure (i : nat) (w : World) : World :=
  {| shared := shared w;
     components := alter (fun s => snd (fst (update Demo.scene s))) i
                         (components w) |}.

Definition positionOf (i : nat) (w : World) : option Vector3 :=
  position <$> components w !! i.

Definition lastPositionOf (i : nat) (w : World) : option (option Vector3) :=
  lastPosition <$> components w !! i.

(** What the frame of instance [i] on the page [w] casts. *)
Definition castsOf (i : nat) (w : World) : option (list Ray) :=
  (fun s => casts (tick Demo.scene 0 16 (shared w) s)) <$> components w !! i.

(** An agent of the scene after [update]. *)
Definition agent (e : Entity) (p : Vector3) : Component :=
  Demo.onEntity e
    (snd (fst (update Demo.scene
                 (Demo.fresh (Demo.configure ".ground, .platform"
                                             ".obstacle, .lava" 0.5) p)))).

(** Both agents after [update]. *)
Definition configured : World :=
  {| shared := initialClosure;
     components := [ agent 0%nat (THREE.Vec3 4.5 1.6 0);
                     agent 5%nat (THREE.Vec3 5 1.6 0) ] |}.

(** The first frame of each agent, then the controls move the first one
    towards the platform and the second one under it. *)
Definition started : World :=
  move 1 (THREE.Vec3 5.5 1.6 0)
       (move 0 (THREE.Vec3 4.99 1.6 0)
             (tickComponent Demo.scene 0 0 16
                (tickComponent Demo.scene 1 0 16 configured))).

(** The frame of the first agent: it finds the ground under it. *)
Definition firstLanded : World := tickComponent Demo.scene 0 16 16 started.

(** Then the frame of the second agent, over the lava. *)
Definition secondTicked : World :=
  tickComponent Demo.scene 1 16 16 firstLanded.

(** Instead: the second agent is configured again and has its first frame,
    and the controls take the first agent under the platform. *)
Definition secondRestarted : World :=
  move 0 (THREE.Vec3 5.99 1.6 0)
       (tickComponent Demo.scene 1 16 16 (reconfigure 1 firstLanded)).

(** Then the frame of the first agent, over the lava. *)
Definition firstTicked : World :=
  tickComponent Demo.scene 0 32 16 secondRestarted.

End Story.

(** ** [tick] on the page

    The same [tick], written as the statements of the source over the whole
    page: the variables of the closure and every instance of the component.
    [this] is the index of the instance the host calls [tick] on; nothing in
    the type of a statement keeps it from reading or writing another
    instance. *)

(** A statement: from the page and the rays cast so far to a value ([None]
    when a [TypeError] was thrown), the page and the rays. *)
Definition Stmt (A : Type) : Type :=
  World -> list Ray -> option A * World * list Ray.

Definition ret {A : Type} (a : A) : Stmt A := fun w l => (Some a, w, l).

Definition bind {A B : Type} (m : Stmt A) (k : A -> Stmt B) : Stmt B :=
  fun w l =>
    match m w l with
    | (Some a, w', l') => k a w' l'
    | (None, w', l') => (None, w', l')
    end.

Notation "x <- m ;; k" := (bind m (fun x => k))
  (at level 99, m at next level, right associativity).

(** Dereferencing [null]. *)
Definition notNull {A : Type} (o : option A) : Stmt A :=
  fun w l => (o, w, l).

(** Reading [this]. *)
Definition readThis (this : nat) : Stmt Component :=
  fun w l => (components w !! this, w, l).

(** An assignment to a field of [this], or through [this.el]. *)
Definition writeThis (this : nat) (f : Component -> Component) : Stmt unit :=
  fun w l =>
    match components w !! this with
    | Some s => (Some tt,
                 {| shared := shared w;
                    components := <[this := f s]> (components w) |}, l)
    | None => (None, w, l)
    end.

(** Reading and assigning the variables of the closure. *)
Definition readVars : Stmt Closure := fun w l => (Some (shared w), w, l).

Definition writeVars (f : Closure -> Closure) : Stmt unit :=
  fun w l => (Some tt, {| shared := f (shared w);
                          components := components w |}, l).

(** [raycaster.intersectObjects]: one more ray. *)
Definition castRay (r : Ray) : Stmt unit :=
  fun w l => (Some tt, w, l ++ [r]).

(** From "Valid surface found" to [break]. *)
Definition acceptStmt (sc : Scene) (this : nat) (delta : Q)
           (nextPosition : Vector3) (result0 : Intersection) : Stmt unit :=
  s <- readThis this ;;
  let hitPos := THREE.addY (point result0) (Schema.height (data s)) in
  c <- readVars ;;
  hitPos <- (if Qlt_bool 0.01 (THREE.y nextPosition
                               - (THREE.y hitPos - yVel c * 2))
             then
               _ <- writeVars
                      (fun c => set_yVel c
                                  (yVel c
                                   + Math_max (gravity * delta * 0.001)
                                              (- maxYVelocity))) ;;
               c <- readVars ;;
               ret (THREE.setY hitPos (THREE.y nextPosition + yVel c))
             else
               _ <- writeVars (fun c => set_yVel c 0) ;;
               ret hitPos) ;;
  s <- readThis this ;;
  o <- notNull (xzOrigin s) ;;
  let tempVec := hitPos in
  let tempVec := parentWorldToLocal sc o tempVec in
  let tempVec := THREE.sub tempVec (object3D_position sc s o) in
  let tempVec :=
    if truthy (Schema.xzOrigin (data s))
    then THREE.addY tempVec (THREE.y (object3D_position sc s o))
    else tempVec in
  _ <- writeThis this
         (fun s => set_position s (THREE.add (position s) tempVec)) ;;
  writeThis this (fun s => set_lastPosition s (Some hitPos)).

(** The labelled loop; the value is [didHit]. *)
Fixpoint scanStmt (sc : Scene) (this : nat) (pattern : list (Q * Q))
         (delta : Q) (nextPosition : Vector3) : Stmt bool :=
  match pattern with
  | [] => ret false
  | (angle, distance) :: rest =>
    s <- readThis this ;;
    last <- notNull (lastPosition s) ;;
    let ray := candidateRay sc s nextPosition last angle distance in
    _ <- castRay ray ;;
    let results := intersectObjects sc (objects s) ray in
    match results with
    | [] => scanStmt sc this rest delta nextPosition
    | result0 :: _ =>
      if existsb (fun result => includes (excludes s) (object_el result))
                 results
      then scanStmt sc this rest delta nextPosition
      else
        _ <- acceptStmt sc this delta nextPosition result0 ;;
        ret true
    end
  end.

(** [tick(time, delta)] called on the instance [this]. *)
Definition tickStmt (sc : Scene) (this : nat) (time delta : Q) : Stmt unit :=
  s <- readThis this ;;
  if negb (Schema.enabled (data s)) then ret tt
  else
    _ <- match lastPosition s with
         | Some _ => ret tt
         | None =>
           _ <- writeVars (fun c => set_firstTry c true) ;;
           _ <- writeThis this
                  (fun s => set_lastPosition s (Some THREE.zero)) ;;
           s <- readThis this ;;
           o <- notNull (xzOrigin s) ;;
           writeThis this
             (fun s => set_lastPosition s (Some (sampleOrigin sc s o)))
         end ;;
    s <- readThis this ;;
    if Nat.eqb (length (objects s)) 0 then ret tt
    else
      o <- notNull (xzOrigin s) ;;
      let nextPosition := sampleOrigin sc s o in
      last <- notNull (lastPosition s) ;;
      if THREE.distanceTo_le nextPosition last 0.01 then ret tt
      else
        didHit <- scanStmt sc this scanPattern delta nextPosition ;;
        _ <- (if didHit then writeVars (fun c => set_firstTry c false)
              else ret tt) ;;
        c <- readVars ;;
        if negb (firstTry c) && negb didHit
        then
          s <- readThis this ;;
          last <- notNull (lastPosition s) ;;
          writeThis this
            (fun s => set_position s (parentWorldToLocal sc (el s) last))
        else ret tt.

(** The page with the instance [this] and the closure replaced. *)
Definition put (this : nat) (s : Component) (c : Closure) (w : World)
  : World :=
  {| shared := c; components := <[this := s]> (components w) |}.

(** How a frame ends, as the value of a statement. *)
Definition ending {A : Type} (k : Completion) (a : A) : option A :=
  match k with
  | Normal => Some a
  | Throw => None
  end.

(** ** What [tick] reads but never writes *)

(** Two components with the same configuration: the data, the entity, the
    excluded entities, the objects and the origin. *)
Definition sameConfig (s s' : Component) : Prop :=
  data s' = data s /\ el s' = el s /\ excludes s' = excludes s
  /\ objects s' = objects s /\ xzOrigin s' = xzOrigin s.

(** The [far] that [tick] gives the ray caster. *)
Definition rayFar (s : Component) : option Q :=
  if Qlt_bool 0 (Schema.fall (data s))
  then Some (Schema.fall (data s) + maxYVelocity)
  else None.

(** * The [lightmap] and [lightmap-test] components

    Both components register, in [init], a listener for [model-loaded] on
    their entity; the listeners are embedded here. Materials are objects that
    several meshes may share: they live in a store and a mesh holds the key of
    its material, or nothing ([null]). A mesh whose [material] is an array of
    materials is outside this model. *)

Module Lightmap.

(** The constants of the THREE build that the listeners probe with [typeof]:
    [None] when the build does not define them. *)
Record Build : Type := {
  LinearSRGBColorSpace : option string;
  sRGBEncoding : option Z
}.

Inductive Wrapping : Type := RepeatWrapping | ClampToEdgeWrapping.
Inductive Filter : Type := LinearFilter | LinearMipMapLinearFilter.

(** The fields of the [THREE.Texture] the listeners touch, and its image. *)
Record Texture : Type := {
  image : Entity;
  flipY : bool;
  channel : nat;
  textureNeedsUpdate : bool;
  colorSpace : option string;
  encoding : option Z;
  wrapS : Wrapping;
  wrapT : Wrapping;
  magFilter : Filter;
  minFilter : Filter;
  generateMipmaps : bool
}.

(** [data.texture], a property of type [asset]: a string (the default is the
    empty string) or the image element with its [src]. *)
Inductive Asset : Type :=
| AssetString (s : string)
| AssetElement (img : Entity) (src : string).

(** [this.data] of [lightmap]; [lightmap-test] has no [key]. *)
Record Data : Type := {
  texture : Asset;
  key : string;
  intensity : Q
}.

(** The fields of a material the listeners read or write. *)
Record Material : Type := {
  name : string;
  lightMap : option Texture;
  lightMapIntensity : Q;
  needsUpdate : bool;
  defines : option (gmap string string)
}.

(** A node of the object tree of the entity. *)
Inductive Node : Type :=
| mkNode (isMesh : bool) (material : option nat) (children : list Node).

Definition isMesh (n : Node) : bool :=
  match n with mkNode m _ _ => m end.

Definition material (n : Node) : option nat :=
  match n with mkNode _ m _ => m end.

Definition children (n : Node) : list Node :=
  match n with mkNode _ _ c => c end.

(** The nodes in the order [obj.traverse] visits them: the node, then the
    traversal of each child. *)
Fixpoint traverse (n : Node) : list Node :=
  match n with
  | mkNode _ _ cs =>
    n :: (fix each (l : list Node) : list Node :=
            match l with
            | [] => []
            | c :: l' => traverse c ++ each l'
            end) cs
  end.

(** What the console received. *)
Inductive Arg : Type :=
| ArgString (s : string)
| ArgAsset (a : Asset)
| ArgMissing.

Inductive Entry : Type :=
| console_log (message : string) (args : list Arg)
| console_warn (message : string) (args : list Arg)
| console_error (message : string) (args : list Arg).

(** [s.split(sep)] for a separator of one character: never empty. *)
Fixpoint split (sep : ascii) (s : string) : list string :=
  match s with
  | EmptyString => [EmptyString]
  | String ch s' =>
    if Ascii.eqb ch sep then EmptyString :: split sep s'
    else match split sep s' with
         | [] => [String ch EmptyString]
         | first :: others => String ch first :: others
         end
  end.

(** [parts.join(sep)], the inverse of [split]. *)
Fixpoint join (sep : ascii) (parts : list string) : string :=
  match parts with
  | [] => EmptyString
  | [p] => p
  | p :: ps => String.append p (String sep (join sep ps))
  end.

(** Whether the character occurs in the string. *)
Fixpoint occurs (ch : ascii) (s : string) : bool :=
  match s with
  | EmptyString => false
  | String ch' s' => Ascii.eqb ch' ch || occurs ch s'
  end.

Definition pipe : ascii := "|"%char.

(** The texture element when it is usable: [!textureEl || !textureEl.src]
    fails. A string has no [src]. *)
Definition usable (a : Asset) : option (Entity * string) :=
  match a with
  | AssetString _ => None
  | AssetElement img src => if truthy src then Some (img, src) else None
  end.

(** [new THREE.Texture(textureEl)] after the assignments of the listener;
    [colorSpace] and [encoding] are assigned when the build has the constant
    ([None]: left as the constructor made them). *)
Definition prepareTexture (three : Build) (img : Entity) : Texture :=
  {| image := img; flipY := false; channel := 1; textureNeedsUpdate := true;
     colorSpace := LinearSRGBColorSpace three;
     encoding := sRGBEncoding three;
     wrapS := RepeatWrapping; wrapT := RepeatWrapping;
     magFilter := LinearFilter; minFilter := LinearMipMapLinearFilter;
     generateMipmaps := true |}.

(** The assignments to [node.material] of both listeners. *)
Definition light (t : Texture) (i : Q) (m : Material) : Material :=
  {| name := name m;
     lightMap := Some t;
     lightMapIntensity := i;
     needsUpdate := true;
     defines := Some (<["USE_LIGHTMAP" := ""]> (default ∅ (defines m))) |}.

(** A run of a listener: how it has ended so far, the materials, the flag
    [applied] and the console, oldest entry first. *)
Record Run : Type := {
  ended : Completion;
  materials : gmap nat Material;
  applied : bool;
  console : list Entry
}.

Definition say (e : Entry) (r : Run) : Run :=
  {| ended := ended r; materials := materials r; applied := applied r;
     console := console r ++ [e] |}.

(** [node.material], looked up in the materials. *)
Definition materialOf (mats : gmap nat Material) (n : Node)
  : option (nat * Material) :=
  match material n with
  | None => None
  | Some k => match mats !! k with
              | None => None
              | Some m => Some (k, m)
              end
  end.

(** [node.material && node.material.name] as a console argument. *)
Definition nameArg (mats : gmap nat Material) (n : Node) : Arg :=
  match materialOf mats n with
  | None => ArgMissing
  | Some (_, m) => ArgString (name m)
  end.

(** The assignments to [node.material]: a [TypeError] when it is [null]. *)
Definition lightNode (t : Texture) (i : Q) (n : Node) (r : Run) : Run :=
  match materialOf (materials r) n with
  | None => {| ended := Throw; materials := materials r;
               applied := applied r; console := console r |}
  | Some (k, m) =>
    {| ended := Normal; materials := <[k := light t i m]> (materials r);
       applied := applied r; console := console r |}
  end.

Definition setApplied (r : Run) : Run :=
  {| ended := ended r; materials := materials r; applied := true;
     console := console r |}.

(** The body of [matArguments.forEach] for one element. *)
Definition forElement (d : Data) (t : Texture) (n : Node) (matName : string)
           (r : Run) (element : string) : Run :=
  match ended r with
  | Throw => r
  | Normal =>
    if String.eqb element (key d)
    then
      let r := say (console_log "Applying lightmap to material:"
                                [ArgString matName]) r in
      let r := lightNode t (intensity d) n r in
      match ended r with
      | Throw => r
      | Normal => setApplied r
      end
    else r
  end.

(** The callback of the first [obj.traverse] of [lightmap]. *)
Definition visit (d : Data) (t : Texture) (r : Run) (n : Node) : Run :=
  match ended r with
  | Throw => r
  | Normal =>
    if isMesh n
    then
      let matName :=
        match materialOf (materials r) n with
        | Some (_, m) => if truthy (name m) then name m else EmptyString
        | None => EmptyString
        end in
      let matArguments := split pipe matName in
      fold_left (forElement d t n matName) matArguments r
    else r
  end.

(** The callback of the second [obj.traverse] of [lightmap]. *)
Definition listName (r : Run) (n : Node) : Run :=
  if isMesh n
  then say (console_log "  - Material name:" [nameArg (materials r) n]) r
  else r.

(** The [model-loaded] listener of [lightmap]. *)
Definition onModelLoaded (three : Build) (d : Data) (root : Node)
           (mats : gmap nat Material) : Run :=
  match usable (texture d) with
  | None =>
    {| ended := Normal; materials := mats; applied := false;
       console := [console_error "Lightmap texture not found or invalid:"
                                 [ArgAsset (texture d)]] |}
  | Some (img, src) =>
    let t := prepareTexture three img in
    let r :=
      {| ended := Normal; materials := mats; applied := false;
         console :=
           [console_log "Creating lightmap texture from image element:"
                        [ArgString src];
            console_log "Lightmap texture prepared" []] |} in
    let r := fold_left (visit d t) (traverse root) r in
    match ended r with
    | Throw => r
    | Normal =>
      if applied r then r
      else
        let r := say (console_warn "No material found with key:"
                                   [ArgString (key d)]) r in
        let r := say (console_log "Available materials in model:" []) r in
        fold_left listName (traverse root) r
    end
  end.

(** The callback of [obj.traverse] of [lightmap-test]. *)
Definition visitTest (t : Texture) (i : Q) (r : Run) (n : Node) : Run :=
  match ended r with
  | Throw => r
  | Normal =>
    if isMesh n
    then
      let r := say (console_log "Applying lightmap to:"
                                [nameArg (materials r) n]) r in
      lightNode t i n r
    else r
  end.

(** The [model-loaded] listener of [lightmap-test]; [key] is not read. *)
Definition onModelLoadedTest (three : Build) (d : Data) (root : Node)
           (mats : gmap nat Material) : Run :=
  match usable (texture d) with
  | None =>
    {| ended := Normal; materials := mats; applied := false;
       console := [console_error "Lightmap texture not found or invalid:"
                                 [ArgAsset (texture d)]] |}
  | Some (img, src) =>
    let t := prepareTexture three img in
    let r :=
      {| ended := Normal; materials := mats; applied := false;
         console :=
           [console_log
              "Creating lightmap texture from image element (test):"
              [ArgString src];
            console_log "Lightmap texture created, applying to ALL materials"
                        []] |} in
    fold_left (visitTest t (intensity d)) (traverse root) r
  end.

(** Whether a material name has the key among its parts. *)
Definition nameMatches (k : string) (m : Material) : bool :=
  existsb (fun element => String.eqb element k) (split pipe (name m)).

(** Whether the node is a mesh that holds material [k]. *)
Definition holds (n : Node) (k : nat) : bool :=
  isMesh n && match material n with
              | Some k' => Nat.eqb k' k
              | None => false
              end.

(** Whether a mesh among the nodes holds material [k]. *)
Definition heldIn (nodes : list Node) (k : nat) : bool :=
  existsb (fun n => holds n k) nodes.

(** Whether a mesh of the tree holds material [k]. *)
Definition heldByMesh (root : Node) (k : nat) : bool :=
  heldIn (traverse root) k.

(** Whether the node is a mesh without a material in the store. *)
Definition bareMesh (mats : gmap nat Material) (n : Node) : bool :=
  isMesh n && match materialOf mats n with
              | None => true
              | Some _ => false
              end.

(** The line the second traversal of [lightmap] logs for a mesh. *)
Definition nameLine (mats : gmap nat Material) (n : Node) : Entry :=
  console_log "  - Material name:" [nameArg mats n].

(** A small model: a group with a floor mesh and a table mesh that share
    nothing, and a second table mesh that shares the table's material. *)
Definition room : Node :=
  mkNode false None
         [ mkNode true (Some 0%nat) [];
           mkNode true (Some 1%nat) [ mkNode true (Some 1%nat) [] ];
           mkNode false (Some 2%nat) [] ].

Definition plain (n : string) : Material :=
  {| name := n; lightMap := None; lightMapIntensity := 1; needsUpdate := false;
     defines := None |}.

Definition roomMaterials : gmap nat Material :=
  <[0%nat := plain "Floor"]>
    (<[1%nat := plain "Wood|Furniture|Props"]>
       (<[2%nat := plain "Wood"]> ∅)).

Definition r173 : Build :=
  {| LinearSRGBColorSpace := Some "srgb-linear"; sRGBEncoding := None |}.

End Lightmap.

(** * Properties *)

(** ** Numbers and vectors *)

Lemma Qlt_bool_iff (a b : Q) : Qlt_bool a b = true <-> a < b.
Proof.
  unfold Qlt_bool. rewrite negb_true_iff. split.
  - intros H. apply Qnot_le_lt. intros Hle.
    apply Qle_bool_iff in Hle. congruence.
  - intros H. destruct (Qle_bool b a) eqn:E; [|reflexivity].
    apply Qle_bool_iff in E. exfalso. exact (Qlt_not_le _ _ H E).
Qed.

Lemma distanceTo_self (p : Vector3) : THREE.distanceTo_le p p 0.01 = true.
Proof.
  unfold THREE.distanceTo_le, THREE.distanceToSquared. cbv zeta.
  apply Qle_bool_iff.
  assert (E : (THREE.x p - THREE.x p) * (THREE.x p - THREE.x p)
              + (THREE.y p - THREE.y p) * (THREE.y p - THREE.y p)
              + (THREE.z p - THREE.z p) * (THREE.z p - THREE.z p) == 0) by ring.
  rewrite E. discriminate.
Qed.

(** ** The scan loop, one candidate at a time *)

Section Scan.

Variable sc : Scene.
Variables (delta : Q) (nextPosition : Vector3) (c : Closure) (s : Component).

(** [cast] leaves everything but the list of rays. *)
Lemma cast_fields (r : Ray) (f : bool * Frame) :
  fst (cast r f) = fst f
  /\ completion (snd (cast r f)) = completion (snd f)
  /\ closure (snd (cast r f)) = closure (snd f)
  /\ component (snd (cast r f)) = component (snd f)
  /\ casts (snd (cast r f)) = r :: casts (snd f).
Proof. destruct f as [b f]. cbn. repeat split. Qed.

(** A candidate that is passed over: the loop goes on with the rest of the
    pattern from the same closure and component. *)
Lemma scan_rejected (cand : Q * Q) (rest : list (Q * Q)) (last : Vector3) :
  lastPosition s = Some last ->
  rejected s (candidateResults sc s nextPosition last cand) = true ->
  scanPatternLoop sc (cand :: rest) delta nextPosition c s
  = cast (candidateRay sc s nextPosition last (fst cand) (snd cand))
         (scanPatternLoop sc rest delta nextPosition c s).
Proof.
  intros Hlast Hrej. destruct cand as [angle dist].
  unfold candidateResults, rejected in Hrej. cbn [fst snd] in *.
  cbn [scanPatternLoop]. rewrite Hlast. cbv zeta.
  destruct (intersectObjects sc (objects s)
              (candidateRay sc s nextPosition last angle dist)) as [|r0 rs].
  - reflexivity.
  - rewrite Hrej. reflexivity.
Qed.

(** A candidate with hits, none of them excluded: the loop stops there. *)
Lemma scan_accepted (cand : Q * Q) (rest : list (Q * Q)) (last : Vector3)
      (result0 : Intersection) (results : list Intersection) :
  lastPosition s = Some last ->
  candidateResults sc s nextPosition last cand = result0 :: results ->
  rejected s (result0 :: results) = false ->
  scanPatternLoop sc (cand :: rest) delta nextPosition c s
  = cast (candidateRay sc s nextPosition last (fst cand) (snd cand))
         (true, acceptHit sc delta nextPosition c s result0).
Proof.
  intros Hlast Hres Hrej. destruct cand as [angle dist].
  unfold candidateResults, rejected in *. cbn [fst snd] in *.
  cbn [scanPatternLoop]. rewrite Hlast. cbv zeta. rewrite Hres, Hrej.
  reflexivity.
Qed.

Lemma castAll_fields (rays : list Ray) (f : bool * Frame) :
  fst (castAll rays f) = fst f
  /\ completion (snd (castAll rays f)) = completion (snd f)
  /\ closure (snd (castAll rays f)) = closure (snd f)
  /\ component (snd (castAll rays f)) = component (snd f)
  /\ casts (snd (castAll rays f)) = rays ++ casts (snd f).
Proof.
  induction rays as [|r rays IH]; cbn [castAll fold_right].
  - repeat split.
  - destruct IH as (H1 & H2 & H3 & H4 & H5).
    destruct (cast_fields r (fold_right cast f rays)) as (K1 & K2 & K3 & K4 & K5).
    unfold castAll in *.
    rewrite K1, K2, K3, K4, K5, H1, H2, H3, H4, H5. repeat split.
Qed.

(** A run of candidates that are all passed over. *)
Lemma scan_prefix_rejected (pre post : list (Q * Q)) (last : Vector3) :
  lastPosition s = Some last ->
  Forall (fun cand =>
            rejected s (candidateResults sc s nextPosition last cand) = true)
         pre ->
  scanPatternLoop sc (pre ++ post) delta nextPosition c s
  = castAll (raysOf sc s nextPosition last pre)
            (scanPatternLoop sc post delta nextPosition c s).
Proof.
  intros Hlast Hpre. induction Hpre as [|cand pre Hc Hpre IH].
  - reflexivity.
  - change ((cand :: pre) ++ post) with (cand :: (pre ++ post)).
    rewrite (scan_rejected cand (pre ++ post) last Hlast Hc), IH.
    reflexivity.
Qed.

End Scan.

Section ScanResults.

Variable sc : Scene.
Variables (delta : Q) (nextPosition : Vector3) (c : Closure) (s : Component).

(** A hit on an excluded entity anywhere in the hits makes the candidate one
    that is passed over. *)
Lemma rejected_of_excluded (results : list Intersection) (r : Intersection) :
  In r results ->
  includes (excludes s) (object_el r) = true ->
  rejected s results = true.
Proof.
  intros Hin Hex. destruct results as [|r0 rs]; [destruct Hin|].
  cbn [rejected]. apply existsb_exists. exists r. split; assumption.
Qed.

(** When the loop reports a hit, it stopped at the first candidate that is
    not passed over, and committed the nearest hit of that candidate. *)
Lemma scan_hit_inv (pattern : list (Q * Q)) (last : Vector3) :
  lastPosition s = Some last ->
  fst (scanPatternLoop sc pattern delta nextPosition c s) = true ->
  exists pre cand post result0 results,
    pattern = pre ++ cand :: post
    /\ Forall (fun cand' =>
                 rejected s (candidateResults sc s nextPosition last cand')
                 = true) pre
    /\ candidateResults sc s nextPosition last cand = result0 :: results
    /\ rejected s (result0 :: results) = false
    /\ scanPatternLoop sc pattern delta nextPosition c s
       = castAll (raysOf sc s nextPosition last pre)
           (cast (candidateRay sc s nextPosition last (fst cand) (snd cand))
                 (true, acceptHit sc delta nextPosition c s result0)).
Proof.
  intros Hlast. induction pattern as [|cand pattern IH]; intros Hhit.
  - discriminate Hhit.
  - destruct (rejected s (candidateResults sc s nextPosition last cand))
      eqn:Hrej.
    + rewrite (scan_rejected sc delta nextPosition c s cand pattern last
                 Hlast Hrej) in Hhit |- *.
      destruct (cast_fields
                  (candidateRay sc s nextPosition last (fst cand) (snd cand))
                  (scanPatternLoop sc pattern delta nextPosition c s))
        as (K & _).
      rewrite K in Hhit.
      destruct (IH Hhit) as (pre & cand' & post & r0 & rs & E & Hpre & Hres
                             & Hok & Hscan).
      exists (cand :: pre), cand', post, r0, rs. repeat split.
      * rewrite E. reflexivity.
      * constructor; assumption.
      * assumption.
      * assumption.
      * rewrite Hscan. reflexivity.
    + destruct (candidateResults sc s nextPosition last cand) as [|r0 rs]
        eqn:Hres; [discriminate Hrej|].
      exists [], cand, pattern, r0, rs. repeat split.
      * constructor.
      * assumption.
      * assumption.
      * apply (scan_accepted sc delta nextPosition c s cand pattern last
                 r0 rs Hlast Hres Hrej).
Qed.

End ScanResults.

(** ** A whole frame *)

Section Frames.

Variable sc : Scene.
Variables (time delta : Q) (c : Closure) (s : Component).

(** A disabled component: [tick] returns at its first line. *)
Lemma tick_disabled :
  Schema.enabled (data s) = false ->
  tick sc time delta c s
  = {| completion := Normal; closure := c; component := s; casts := [] |}.
Proof. intros H. unfold tick. rewrite H. reflexivity. Qed.

(** An enabled component with objects, whose agent has moved away from
    [lastPosition]: [tick] runs the loop over the whole scan pattern. *)
Lemma tick_scans (last : Vector3) (o : Entity) :
  Schema.enabled (data s) = true ->
  lastPosition s = Some last ->
  xzOrigin s = Some o ->
  objects s <> [] ->
  THREE.distanceTo_le (sampleOrigin sc s o) last 0.01 = false ->
  tick sc time delta c s
  = afterScan sc (scanPatternLoop sc scanPattern delta (sampleOrigin sc s o)
                                  c s).
Proof.
  intros Hen Hlast Ho Hobj Hfar. unfold tick.
  rewrite Hen, Hlast. cbn [negb]. cbv iota beta zeta. rewrite Ho, Hlast.
  destruct (objects s) as [|ob obs] eqn:E; [contradiction|].
  cbn [length Nat.eqb]. rewrite Hfar. reflexivity.
Qed.

(** With an origin, committing a hit does not throw. *)
Lemma acceptHit_completes (o : Entity) (next : Vector3) (r0 : Intersection) :
  xzOrigin s = Some o ->
  completion (acceptHit sc delta next c s r0) = Normal
  /\ casts (acceptHit sc delta next c s r0) = [].
Proof.
  intros Ho. unfold acceptHit. cbv zeta.
  destruct (Qlt_bool _ _); rewrite Ho; split; reflexivity.
Qed.

(** The end of a frame whose loop committed a hit. *)
Lemma afterScan_hit (o : Entity) (next : Vector3) (r0 : Intersection)
      (rays : list Ray) (ray : Ray) :
  xzOrigin s = Some o ->
  afterScan sc (castAll rays (cast ray (true, acceptHit sc delta next c s r0)))
  = {| completion := Normal;
       closure := set_firstTry (closure (acceptHit sc delta next c s r0)) false;
       component := component (acceptHit sc delta next c s r0);
       casts := rays ++ [ray] |}.
Proof.
  intros Ho.
  destruct (acceptHit_completes o next r0 Ho) as (Hc & Hcasts).
  destruct (castAll_fields rays
              (cast ray (true, acceptHit sc delta next c s r0)))
    as (K1 & K2 & K3 & K4 & K5).
  cbn [cast fst snd completion closure component casts] in K1, K2, K3, K4, K5.
  unfold afterScan.
  destruct (castAll rays (cast ray (true, acceptHit sc delta next c s r0)))
    as [b f]. cbn [fst snd] in *. subst b.
  rewrite K2, Hc, K3, K4, K5, Hcasts. reflexivity.
Qed.

(** The end of a frame whose loop passed over every candidate. *)
Lemma afterScan_miss (rays : list Ray) :
  afterScan sc (castAll rays
                  (false, {| completion := Normal; closure := c;
                             component := s; casts := [] |}))
  = match firstTry c, lastPosition s with
    | true, _ =>
      {| completion := Normal; closure := c; component := s; casts := rays |}
    | false, Some last =>
      {| completion := Normal; closure := c;
         component := set_position s (parentWorldToLocal sc (el s) last);
         casts := rays |}
    | false, None =>
      {| completion := Throw; closure := c; component := s; casts := rays |}
    end.
Proof.
  destruct (castAll_fields rays
              (false, {| completion := Normal; closure := c;
                         component := s; casts := [] |}))
    as (K1 & K2 & K3 & K4 & K5).
  cbn [fst snd completion closure component casts] in K1, K2, K3, K4, K5.
  rewrite app_nil_r in K5.
  unfold afterScan.
  destruct (castAll rays _) as [b f]. cbn [fst snd] in *. subst b.
  rewrite K2, K3, K4, K5.
  destruct (firstTry c); cbn [negb andb]; [reflexivity|].
  destruct (lastPosition s); reflexivity.
Qed.

(** A frame in which the candidates of [pre] are passed over and the next one
    of the table has hits, none excluded: the nearest hit of that candidate is
    committed, after one ray for each candidate up to it. *)
Lemma tick_commits_first_valid (last : Vector3) (o : Entity)
      (pre post : list (Q * Q)) (cand : Q * Q)
      (result0 : Intersection) (results : list Intersection) :
  Schema.enabled (data s) = true ->
  lastPosition s = Some last ->
  xzOrigin s = Some o ->
  objects s <> [] ->
  THREE.distanceTo_le (sampleOrigin sc s o) last 0.01 = false ->
  scanPattern = pre ++ cand :: post ->
  Forall (fun cand' =>
            rejected s (candidateResults sc s (sampleOrigin sc s o) last cand')
            = true) pre ->
  candidateResults sc s (sampleOrigin sc s o) last cand = result0 :: results ->
  rejected s (result0 :: results) = false ->
  tick sc time delta c s
  = {| completion := Normal;
       closure := set_firstTry
                    (closure (acceptHit sc delta (sampleOrigin sc s o) c s
                                        result0)) false;
       component := component (acceptHit sc delta (sampleOrigin sc s o) c s
                                         result0);
       casts := raysOf sc s (sampleOrigin sc s o) last pre
                ++ [candidateRay sc s (sampleOrigin sc s o) last
                                 (fst cand) (snd cand)] |}.
Proof.
  intros Hen Hlast Ho Hobj Hfar Hsplit Hpre Hres Hok.
  rewrite (tick_scans last o Hen Hlast Ho Hobj Hfar), Hsplit.
  rewrite (scan_prefix_rejected sc delta (sampleOrigin sc s o) c s pre
             (cand :: post) last Hlast Hpre).
  rewrite (scan_accepted sc delta (sampleOrigin sc s o) c s cand post last
             result0 results Hlast Hres Hok).
  apply (afterScan_hit o). exact Ho.
Qed.

(** The closure and the component at the end of a frame depend on the loop
    through [didHit], its completion, closure and component, not through the
    rays. *)
Lemma afterScan_ext (r r' : bool * Frame) :
  fst r = fst r' ->
  completion (snd r) = completion (snd r') ->
  closure (snd r) = closure (snd r') ->
  component (snd r) = component (snd r') ->
  completion (afterScan sc r) = completion (afterScan sc r')
  /\ closure (afterScan sc r) = closure (afterScan sc r')
  /\ component (afterScan sc r) = component (afterScan sc r').
Proof.
  destruct r as [b f], r' as [b' f']. cbn [fst snd].
  intros -> Hk Hc Hs. unfold afterScan. rewrite Hk, Hc, Hs.
  destruct (completion f') eqn:Ek.
  - destruct (negb (firstTry (if b' then set_firstTry (closure f') false
                              else closure f')) && negb b').
    + destruct (lastPosition (component f')); repeat split.
    + repeat split.
  - repeat split; congruence.
Qed.

End Frames.

(** ** Exclusion *)

(** C1. A scan candidate whose nearest hit lies on an excluded entity is never
    accepted: the loop goes on to the next candidate of the table from the
    same closure and component, so position, lastPosition and yVel are as
    they were, and with that candidate anywhere in a pattern the loop ends in
    the state it ends in without it. *)
Theorem excluded_nearest_hit_is_skipped
        (sc : Scene) (delta : Q) (nextPosition : Vector3)
        (c : Closure) (s : Component) (last : Vector3)
        (pre post : list (Q * Q)) (angle dist : Q) (result0 : Intersection) :
  lastPosition s = Some last ->
  head (intersectObjects sc (objects s)
          (candidateRay sc s nextPosition last angle dist)) = Some result0 ->
  includes (excludes s) (object_el result0) = true ->
  scanPatternLoop sc ((angle, dist) :: post) delta nextPosition c s
  = cast (candidateRay sc s nextPosition last angle dist)
         (scanPatternLoop sc post delta nextPosition c s)
  /\ (let r := scanPatternLoop sc (pre ++ (angle, dist) :: post)
                               delta nextPosition c s in
      let r' := scanPatternLoop sc (pre ++ post) delta nextPosition c s in
      fst r = fst r'
      /\ completion (snd r) = completion (snd r')
      /\ closure (snd r) = closure (snd r')
      /\ component (snd r) = component (snd r'))
  /\ (forall time o,
         Schema.enabled (data s) = true ->
         xzOrigin s = Some o ->
         objects s <> [] ->
         THREE.distanceTo_le (sampleOrigin sc s o) last 0.01 = false ->
         nextPosition = sampleOrigin sc s o ->
         scanPattern = pre ++ (angle, dist) :: post ->
         let f := tick sc time delta c s in
         let f' := afterScan sc (scanPatternLoop sc (pre ++ post) delta
                                                 nextPosition c s) in
         completion f = completion f'
         /\ closure f = closure f'
         /\ component f = component f').
Proof.
  intros Hlast Hhead Hex.
  assert (Hrej : rejected s (candidateResults sc s nextPosition last
                               (angle, dist)) = true).
  { unfold candidateResults. cbn [fst snd].
    destruct (intersectObjects sc (objects s)
                (candidateRay sc s nextPosition last angle dist))
      as [|r0 rs] eqn:E; [discriminate Hhead|].
    cbn in Hhead. injection Hhead as ->.
    apply (rejected_of_excluded s (result0 :: rs) result0);
      [left; reflexivity | assumption]. }
  assert (Hstep : forall rest,
             scanPatternLoop sc ((angle, dist) :: rest) delta nextPosition c s
             = cast (candidateRay sc s nextPosition last angle dist)
                    (scanPatternLoop sc rest delta nextPosition c s)).
  { intros rest.
    apply (scan_rejected sc delta nextPosition c s (angle, dist) rest last
             Hlast Hrej). }
  split; [apply Hstep|].
  assert (Hsame :
            let r := scanPatternLoop sc (pre ++ (angle, dist) :: post)
                                     delta nextPosition c s in
            let r' := scanPatternLoop sc (pre ++ post) delta nextPosition c s in
            fst r = fst r'
            /\ completion (snd r) = completion (snd r')
            /\ closure (snd r) = closure (snd r')
            /\ component (snd r) = component (snd r')); [|split; [exact Hsame|]].
  2:{ intros time o Hen Ho Hobj Hfar Hnext Hsplit f f'. subst f f'.
      rewrite (tick_scans sc time delta c s last o Hen Hlast Ho Hobj Hfar).
      rewrite <- Hnext, Hsplit.
      destruct Hsame as (S1 & S2 & S3 & S4).
      apply afterScan_ext; assumption. }
  cbv zeta. induction pre as [|[a d] pre IH].
  - cbn [app]. rewrite Hstep.
    destruct (cast_fields (candidateRay sc s nextPosition last angle dist)
                (scanPatternLoop sc post delta nextPosition c s))
      as (K1 & K2 & K3 & K4 & _).
    repeat split; assumption.
  - cbn [app scanPatternLoop]. rewrite Hlast. cbv zeta.
    destruct IH as (I1 & I2 & I3 & I4).
    destruct (intersectObjects sc (objects s)
                (candidateRay sc s nextPosition last a d)) as [|r0 rs].
    + cbn. repeat split; assumption.
    + destruct (existsb _ (r0 :: rs)).
      * cbn. repeat split; assumption.
      * repeat split.
Qed.

(** The agent walks from x = 0 into the obstacle at x = 2: the first candidate
    lands on the obstacle and the loop goes on with the other seven. *)
Lemma excluded_nearest_hit_is_skipped_witness :
  let s := Demo.standing ".ground" ".obstacle" 0.5
             (THREE.Vec3 0 1.6 0) (THREE.Vec3 2 1.6 0) in
  let next := THREE.Vec3 2 1.6 0 in
  let last := THREE.Vec3 0 1.6 0 in
  scanPatternLoop Demo.scene scanPattern 16 next initialClosure s
  = cast (candidateRay Demo.scene s next last 0 1)
         (scanPatternLoop Demo.scene (tl scanPattern) 16 next initialClosure s)
  /\ fst (scanPatternLoop Demo.scene scanPattern 16 next initialClosure s)
     = fst (scanPatternLoop Demo.scene (tl scanPattern) 16 next
              initialClosure s)
  /\ component (tick Demo.scene 0 16 initialClosure s)
     = component (afterScan Demo.scene
                    (scanPatternLoop Demo.scene (tl scanPattern) 16 next
                       initialClosure s)).
Proof.
  intros s next last.
  destruct (excluded_nearest_hit_is_skipped Demo.scene 16 next initialClosure
              s last [] (tl scanPattern) 0 1
              {| distance := THREE.y (origin (candidateRay Demo.scene s next
                                                last 0 1)) - 0.3;
                 point := THREE.Vec3
                            (THREE.x (origin (candidateRay Demo.scene s next
                                                last 0 1)))
                            0.3
                            (THREE.z (origin (candidateRay Demo.scene s next
                                                last 0 1)));
                 object_el := 2%nat |})
    as (H1 & (H2 & _) & H3).
  - reflexivity.
  - vm_compute. reflexivity.
  - reflexivity.
  - split; [exact H1|]. split; [exact H2|].
    destruct (H3 0 0%nat) as (_ & _ & K).
    + reflexivity.
    + reflexivity.
    + discriminate.
    + vm_compute. reflexivity.
    + reflexivity.
    + reflexivity.
    + exact K.
Defined.

(** ** Order of the scan *)

(** The first candidate whose hit, the nearest intersection, is on a surface
    that is not excluded is not always the one committed: stepping onto the
    platform that hangs over the lava, the first candidate has its nearest hit
    on the platform, which is not excluded, and the frame passes it over for
    the lava below, casts three rays and commits the third candidate. *)
Lemma first_nonexcluded_nearest_hit_wins_counterexample :
  let s := Demo.standing ".ground, .platform" ".obstacle, .lava" 0.5
             (THREE.Vec3 4.9 1.6 0) (THREE.Vec3 5.1 1.6 0) in
  let next := THREE.Vec3 5.1 1.6 0 in
  let last := THREE.Vec3 4.9 1.6 0 in
  let f := tick Demo.scene 0 16 initialClosure s in
  exists result0,
    head (candidateResults Demo.scene s next last (0, 1)) = Some result0
    /\ object_el result0 = 3%nat
    /\ includes (excludes s) (object_el result0) = false
    /\ casts f = [ candidateRay Demo.scene s next last 0 1;
                   candidateRay Demo.scene s next last 0 0.5;
                   candidateRay Demo.scene s next last 30 0.4 ]
    /\ lastPosition (component f)
       <> lastPosition
            (component (acceptHit Demo.scene 16 next initialClosure s
                                  result0)).
Proof.
  intros s next last f. eexists.
  split; [vm_compute; reflexivity|].
  split; [reflexivity|]. split; [reflexivity|].
  split; [vm_compute; reflexivity|].
  intros H. vm_compute in H. discriminate H.
Qed.

(** C6 (as the code has it). The scan pattern is the table of eight
    candidates, and on a frame that reaches the scan the candidates are tried
    in that order: when each of those before a candidate is passed over (its
    ray hits nothing, or one of its hits, at any distance, is on an excluded
    entity) and that candidate has hits, none of them on an excluded entity,
    its nearest hit is the one committed and one ray was cast for each
    candidate up to it. In particular, when both candidates of the primary
    direction are passed over and the 30 degree one has hits, none excluded,
    the 30 degree candidate is committed after three rays, and none at 60 or
    80 degrees is tried. *)
Theorem first_valid_candidate_wins
        (sc : Scene) (time delta : Q) (c : Closure) (s : Component)
        (last : Vector3) (o : Entity) :
  Schema.enabled (data s) = true ->
  lastPosition s = Some last ->
  xzOrigin s = Some o ->
  objects s <> [] ->
  THREE.distanceTo_le (sampleOrigin sc s o) last 0.01 = false ->
  let next := sampleOrigin sc s o in
  scanPattern = [ (0, 1); (0, 0.5); (30, 0.4); (-30, 0.4);
                  (60, 0.2); (-60, 0.2); (80, 0.06); (-80, 0.06) ]
  /\ (forall pre cand post result0 results,
         scanPattern = pre ++ cand :: post ->
         Forall (fun cand' =>
                   rejected s (candidateResults sc s next last cand') = true)
                pre ->
         candidateResults sc s next last cand = result0 :: results ->
         rejected s (result0 :: results) = false ->
         tick sc time delta c s
         = {| completion := Normal;
              closure := set_firstTry
                           (closure (acceptHit sc delta next c s result0))
                           false;
              component := component (acceptHit sc delta next c s result0);
              casts := raysOf sc s next last pre
                       ++ [candidateRay sc s next last (fst cand) (snd cand)]
           |})
  /\ (forall result0 results,
         rejected s (candidateResults sc s next last (0, 1)) = true ->
         rejected s (candidateResults sc s next last (0, 0.5)) = true ->
         candidateResults sc s next last (30, 0.4) = result0 :: results ->
         rejected s (result0 :: results) = false ->
         tick sc time delta c s
         = {| completion := Normal;
              closure := set_firstTry
                           (closure (acceptHit sc delta next c s result0))
                           false;
              component := component (acceptHit sc delta next c s result0);
              casts := [ candidateRay sc s next last 0 1;
                         candidateRay sc s next last 0 0.5;
                         candidateRay sc s next last 30 0.4 ] |}).
Proof.
  intros Hen Hlast Ho Hobj Hfar next. split; [reflexivity|]. split.
  - intros pre cand post r0 rs Hsplit Hpre Hres Hok.
    apply (tick_commits_first_valid sc time delta c s last o pre post cand
             r0 rs); assumption.
  - intros r0 rs H0 H1 Hres Hok.
    apply (tick_commits_first_valid sc time delta c s last o
             [ (0, 1); (0, 0.5) ]
             [ (-30, 0.4); (60, 0.2); (-60, 0.2); (80, 0.06); (-80, 0.06) ]
             (30, 0.4) r0 rs); try assumption.
    + reflexivity.
    + repeat constructor; assumption.
Qed.

(** Walking from x = 0 into the obstacle at 1 <= x <= 2: the full step and the
    half step land on the obstacle, the step deflected by 30 degrees lands on
    the ground and is taken. *)
Lemma first_valid_candidate_wins_witness :
  let s := Demo.standing ".ground" ".obstacle" 0.5
             (THREE.Vec3 0 1.6 0) (THREE.Vec3 2 1.6 0) in
  let f := tick Demo.scene 0 16 initialClosure s in
  casts f = [ candidateRay Demo.scene s (position s) (THREE.Vec3 0 1.6 0) 0 1;
              candidateRay Demo.scene s (position s) (THREE.Vec3 0 1.6 0)
                           0 0.5;
              candidateRay Demo.scene s (position s) (THREE.Vec3 0 1.6 0)
                           30 0.4 ]
  /\ firstTry (closure f) = false
  /\ exists p, lastPosition (component f) = Some p
               /\ THREE.x p == 0.6928 /\ THREE.y p == 1.6
               /\ THREE.z p == 0.4.
Proof.
  intros s f.
  pose (r0 := {| distance := THREE.y (origin (candidateRay Demo.scene s
                     (position s) (THREE.Vec3 0 1.6 0) 30 0.4)) - 0;
                 point := THREE.Vec3
                   (THREE.x (origin (candidateRay Demo.scene s (position s)
                                       (THREE.Vec3 0 1.6 0) 30 0.4)))
                   0
                   (THREE.z (origin (candidateRay Demo.scene s (position s)
                                       (THREE.Vec3 0 1.6 0) 30 0.4)));
                 object_el := 1%nat |}).
  destruct (first_valid_candidate_wins Demo.scene 0 16 initialClosure s
              (THREE.Vec3 0 1.6 0) 0%nat) as (_ & Hgen & Hpart).
  - reflexivity.
  - reflexivity.
  - reflexivity.
  - discriminate.
  - vm_compute. reflexivity.
  - assert (E : f = tick Demo.scene 0 16 initialClosure s) by reflexivity.
    rewrite (Hpart r0 []) in E.
    + rewrite E. cbn [casts closure component set_firstTry firstTry].
      split; [reflexivity|]. split; [reflexivity|].
      eexists. split; [vm_compute; reflexivity|].
      repeat split; vm_compute; reflexivity.
    + vm_compute. reflexivity.
    + vm_compute. reflexivity.
    + vm_compute. reflexivity.
    + vm_compute. reflexivity.
Defined.

(** C10. A candidate is passed over as soon as any of the hits along its ray,
    at whatever distance, is on an excluded entity, also when the nearest hit
    is on a walkable one; and whenever the loop commits a candidate, that
    candidate has hits and none of them is on an excluded entity. *)
Theorem any_excluded_hit_rejects_candidate
        (sc : Scene) (delta : Q) (nextPosition : Vector3)
        (c : Closure) (s : Component) (last : Vector3) :
  lastPosition s = Some last ->
  (forall angle dist rest result,
      In result (intersectObjects sc (objects s)
                   (candidateRay sc s nextPosition last angle dist)) ->
      includes (excludes s) (object_el result) = true ->
      scanPatternLoop sc ((angle, dist) :: rest) delta nextPosition c s
      = cast (candidateRay sc s nextPosition last angle dist)
             (scanPatternLoop sc rest delta nextPosition c s))
  /\ (forall pattern,
         fst (scanPatternLoop sc pattern delta nextPosition c s) = true ->
         exists pre cand post result0 results,
           pattern = pre ++ cand :: post
           /\ candidateResults sc s nextPosition last cand
              = result0 :: results
           /\ Forall (fun result =>
                        includes (excludes s) (object_el result) = false)
                     (result0 :: results)
           /\ snd (scanPatternLoop sc pattern delta nextPosition c s)
              = snd (castAll (raysOf sc s nextPosition last pre)
                       (cast (candidateRay sc s nextPosition last
                                           (fst cand) (snd cand))
                             (true, acceptHit sc delta nextPosition c s
                                              result0)))).
Proof.
  intros Hlast. split.
  - intros angle dist rest result Hin Hex.
    apply (scan_rejected sc delta nextPosition c s (angle, dist) rest last
             Hlast).
    apply (rejected_of_excluded s _ result); assumption.
  - intros pattern Hhit.
    destruct (scan_hit_inv sc delta nextPosition c s pattern last Hlast Hhit)
      as (pre & cand & post & r0 & rs & E & _ & Hres & Hok & Hscan).
    exists pre, cand, post, r0, rs. repeat split; try assumption.
    + cbn [rejected] in Hok. apply Forall_forall. intros r Hr.
      destruct (includes (excludes s) (object_el r)) eqn:Hinc; [|reflexivity].
      assert (Hex : existsb (fun result =>
                               includes (excludes s) (object_el result))
                            (r0 :: rs) = true).
      { apply existsb_exists. exists r. split; [|assumption].
        apply list_elem_of_In. exact Hr. }
      congruence.
    + rewrite Hscan. reflexivity.
Qed.

(** Stepping onto the platform that hangs over the lava: the nearest hit of
    the first candidate is on the platform, which is walkable, the lava under
    it is excluded, and the candidate is passed over. *)
Lemma any_excluded_hit_rejects_candidate_witness :
  let s := Demo.standing ".ground, .platform" ".obstacle, .lava" 0.5
             (THREE.Vec3 4.9 1.6 0) (THREE.Vec3 5.1 1.6 0) in
  let next := THREE.Vec3 5.1 1.6 0 in
  let last := THREE.Vec3 4.9 1.6 0 in
  (exists r, head (candidateResults Demo.scene s next last (0, 1)) = Some r
             /\ object_el r = 3%nat
             /\ includes (excludes s) (object_el r) = false)
  /\ scanPatternLoop Demo.scene scanPattern 16 next initialClosure s
     = cast (candidateRay Demo.scene s next last 0 1)
            (scanPatternLoop Demo.scene (tl scanPattern) 16 next
               initialClosure s)
  /\ exists pre cand post result0 results,
      scanPattern = pre ++ cand :: post
      /\ candidateResults Demo.scene s next last cand = result0 :: results
      /\ Forall (fun result =>
                   includes (excludes s) (object_el result) = false)
                (result0 :: results)
      /\ snd (scanPatternLoop Demo.scene scanPattern 16 next initialClosure s)
         = snd (castAll (raysOf Demo.scene s next last pre)
                  (cast (candidateRay Demo.scene s next last
                                      (fst cand) (snd cand))
                        (true, acceptHit Demo.scene 16 next initialClosure s
                                         result0))).
Proof.
  intros s next last.
  destruct (any_excluded_hit_rejects_candidate Demo.scene 16 next
              initialClosure s last) as (Hrej & Hacc).
  - reflexivity.
  - split; [|split].
    + eexists. split; [vm_compute; reflexivity|]. split; reflexivity.
    + apply (Hrej 0 1 (tl scanPattern)
               {| distance := THREE.y (origin (candidateRay Demo.scene s next
                                                 last 0 1)) - 0.1;
                  point := THREE.Vec3
                             (THREE.x (origin (candidateRay Demo.scene s next
                                                 last 0 1)))
                             0.1
                             (THREE.z (origin (candidateRay Demo.scene s next
                                                 last 0 1)));
                  object_el := 4%nat |}).
      * vm_compute. right. left. reflexivity.
      * reflexivity.
    + apply (Hacc scanPattern). vm_compute. reflexivity.
Defined.

(** ** Rollback *)

(** The rollback does not follow the landings of the agent itself. Of two
    agents, the second never has a hit (its first frame casts nothing, its
    second casts eight rays and commits none) and is moved off its intended
    position all the same, because the first agent has landed in between; and
    the first agent, which has landed, is left at its intended position over
    the lava when all its candidates fail, because the second agent has had a
    first frame in between. *)
Lemma rollback_after_own_landing_counterexample :
  (Story.castsOf 1 Story.configured = Some []
   /\ length <$> Story.castsOf 1 Story.firstLanded = Some 8%nat
   /\ Story.lastPositionOf 1 Story.secondTicked
      = Story.lastPositionOf 1 Story.firstLanded
   /\ Story.positionOf 1 Story.firstLanded = Some (THREE.Vec3 5.5 1.6 0)
   /\ Story.positionOf 1 Story.secondTicked = Some (THREE.Vec3 5 1.6 0)
   /\ Story.positionOf 1 Story.secondTicked
      <> Story.positionOf 1 Story.firstLanded)
  /\ (length <$> Story.castsOf 0 Story.started = Some 1%nat
      /\ Story.lastPositionOf 0 Story.firstLanded
         <> Story.lastPositionOf 0 Story.started
      /\ firstTry (shared Story.firstLanded) = false
      /\ length <$> Story.castsOf 0 Story.secondRestarted = Some 8%nat
      /\ Story.lastPositionOf 0 Story.firstTicked
         = Story.lastPositionOf 0 Story.firstLanded
      /\ Story.positionOf 0 Story.secondRestarted
         = Some (THREE.Vec3 5.99 1.6 0)
      /\ Story.positionOf 0 Story.firstTicked
         = Some (THREE.Vec3 5.99 1.6 0)
      /\ Some (Story.positionOf 0 Story.firstTicked)
         <> Story.lastPositionOf 0 Story.firstLanded).
Proof.
  split.
  - split; [vm_compute; reflexivity|].
    split; [vm_compute; reflexivity|].
    split; [vm_compute; reflexivity|].
    split; [vm_compute; reflexivity|].
    split; [vm_compute; reflexivity|].
    intros H. vm_compute in H. discriminate H.
  - split; [vm_compute; reflexivity|].
    split; [intros H; vm_compute in H; discriminate H|].
    split; [vm_compute; reflexivity|].
    split; [vm_compute; reflexivity|].
    split; [vm_compute; reflexivity|].
    split; [vm_compute; reflexivity|].
    split; [vm_compute; reflexivity|].
    intros H. vm_compute in H. discriminate H.
Qed.

(** C2 (as the code has it). A frame that reaches the scan and in which all
    eight candidates are passed over ends normally after eight rays with the
    closure as it was. When the flag [firstTry] of the closure is clear the
    agent's position is set to the value [lastPosition] had before the frame,
    taken to the local space of the agent's parent; when [firstTry] is set
    the component is left as it was, the agent at its intended position. *)
Theorem failed_scan_rolls_back
        (sc : Scene) (time delta : Q) (c : Closure) (s : Component)
        (last : Vector3) (o : Entity) :
  Schema.enabled (data s) = true ->
  lastPosition s = Some last ->
  xzOrigin s = Some o ->
  objects s <> [] ->
  THREE.distanceTo_le (sampleOrigin sc s o) last 0.01 = false ->
  Forall (fun cand =>
            rejected s (candidateResults sc s (sampleOrigin sc s o) last cand)
            = true) scanPattern ->
  let f := tick sc time delta c s in
  completion f = Normal
  /\ closure f = c
  /\ length (casts f) = 8%nat
  /\ (firstTry c = false ->
      component f = set_position s (parentWorldToLocal sc (el s) last))
  /\ (firstTry c = true -> component f = s).
Proof.
  intros Hen Hlast Ho Hobj Hfar Hall f.
  assert (E : f = afterScan sc
                    (castAll (raysOf sc s (sampleOrigin sc s o) last
                                     scanPattern)
                       (false, {| completion := Normal; closure := c;
                                  component := s; casts := [] |}))).
  { unfold f.
    rewrite (tick_scans sc time delta c s last o Hen Hlast Ho Hobj Hfar).
    f_equal.
    transitivity (scanPatternLoop sc (scanPattern ++ []) delta
                                  (sampleOrigin sc s o) c s).
    - rewrite app_nil_r. reflexivity.
    - apply (scan_prefix_rejected sc delta (sampleOrigin sc s o) c s
               scanPattern [] last Hlast Hall). }
  rewrite afterScan_miss, Hlast in E. rewrite E. clear E f.
  destruct (firstTry c); cbn [completion closure component casts].
  - split; [reflexivity|]. split; [reflexivity|]. split; [reflexivity|].
    split; [discriminate | reflexivity].
  - split; [reflexivity|]. split; [reflexivity|]. split; [reflexivity|].
    split; [reflexivity | discriminate].
Qed.

(** Over the platform that hangs over the lava every candidate is passed
    over: after a landing the agent is put back on [lastPosition]. *)
Lemma failed_scan_rolls_back_witness :
  let s := Demo.standing ".ground, .platform" ".obstacle, .lava" 0.5
             (THREE.Vec3 5 1.6 0) (THREE.Vec3 5.5 1.6 0) in
  let c := {| yVel := 0; firstTry := false |} in
  let f := tick Demo.scene 0 16 c s in
  completion f = Normal
  /\ closure f = c
  /\ length (casts f) = 8%nat
  /\ position (component f) = THREE.Vec3 5 1.6 0.
Proof.
  intros s c f.
  destruct (failed_scan_rolls_back Demo.scene 0 16 c s (THREE.Vec3 5 1.6 0)
              0%nat) as (H1 & H2 & H3 & H4 & _).
  - reflexivity.
  - reflexivity.
  - reflexivity.
  - discriminate.
  - vm_compute. reflexivity.
  - repeat constructor; vm_compute; reflexivity.
  - split; [exact H1|]. split; [exact H2|]. split; [exact H3|].
    unfold f. rewrite (H4 eq_refl). reflexivity.
Defined.

(** ** Gravity *)

Section Gravity.

Variable sc : Scene.
Variables (delta : Q) (nextPosition : Vector3) (c : Closure) (s : Component).
Variables (o : Entity) (result0 : Intersection).
Hypothesis Ho : xzOrigin s = Some o.

(** The agent is above the hit raised by its height: [yVel] grows by the
    clamped step and the committed height is the intended one plus [yVel]. *)
Lemma acceptHit_falling :
  let hitPos := THREE.addY (point result0) (Schema.height (data s)) in
  0.01 < THREE.y nextPosition - (THREE.y hitPos - yVel c * 2) ->
  let v := yVel c + Math_max (gravity * delta * 0.001) (- maxYVelocity) in
  closure (acceptHit sc delta nextPosition c s result0) = set_yVel c v
  /\ lastPosition (component (acceptHit sc delta nextPosition c s result0))
     = Some (THREE.setY hitPos (THREE.y nextPosition + v)).
Proof.
  intros hitPos Hfall v. apply Qlt_bool_iff in Hfall.
  unfold acceptHit. cbv zeta. fold hitPos. rewrite Hfall, Ho.
  split; reflexivity.
Qed.

(** The agent is at the raised hit or below it: [yVel] is reset and the hit
    is committed as it is. *)
Lemma acceptHit_grounded :
  let hitPos := THREE.addY (point result0) (Schema.height (data s)) in
  THREE.y nextPosition - (THREE.y hitPos - yVel c * 2) <= 0.01 ->
  closure (acceptHit sc delta nextPosition c s result0) = set_yVel c 0
  /\ lastPosition (component (acceptHit sc delta nextPosition c s result0))
     = Some hitPos.
Proof.
  intros hitPos Hrest.
  assert (E : Qlt_bool 0.01 (THREE.y nextPosition
                             - (THREE.y hitPos - yVel c * 2)) = false).
  { unfold Qlt_bool. apply Qle_bool_iff in Hrest. rewrite Hrest.
    reflexivity. }
  unfold acceptHit. cbv zeta. fold hitPos. rewrite E, Ho.
  split; reflexivity.
Qed.

End Gravity.

(** The clamped step of a 16 ms frame. *)
Lemma step_16ms (delta : Q) :
  delta == 16 ->
  Math_max (gravity * delta * 0.001) (- maxYVelocity) == - 0.016.
Proof.
  intros Hd. unfold Math_max.
  destruct (Qle_bool (gravity * delta * 0.001) (- maxYVelocity)) eqn:E.
  - apply Qle_bool_iff in E. rewrite Hd in E. vm_compute in E.
    exfalso. apply E. reflexivity.
  - rewrite Hd. reflexivity.
Qed.

(** C4. On a frame that commits a hit [H] (the nearest hit of the accepted
    candidate, raised by the agent's height) with intended height [Y1]: when
    [Y1 - (H.y - yVel * 2) > 0.01] the new [yVel] is the old one plus
    [max (gravity * delta * 0.001) (- maxYVelocity)], with [gravity = -1] and
    [maxYVelocity = 0.5], and the committed height is [Y1] plus the new
    [yVel], not [H.y]. In particular with [Y1 = 5], [H.y = 0], a frame of
    16 ms and [yVel] at 0, the committed height is [5 - 0.016]. *)
Theorem falling_adds_clamped_gravity
        (sc : Scene) (time delta : Q) (c : Closure) (s : Component)
        (last : Vector3) (o : Entity)
        (pre post : list (Q * Q)) (cand : Q * Q)
        (result0 : Intersection) (results : list Intersection) :
  Schema.enabled (data s) = true ->
  lastPosition s = Some last ->
  xzOrigin s = Some o ->
  objects s <> [] ->
  THREE.distanceTo_le (sampleOrigin sc s o) last 0.01 = false ->
  scanPattern = pre ++ cand :: post ->
  Forall (fun cand' =>
            rejected s (candidateResults sc s (sampleOrigin sc s o) last cand')
            = true) pre ->
  candidateResults sc s (sampleOrigin sc s o) last cand = result0 :: results ->
  rejected s (result0 :: results) = false ->
  let H := THREE.addY (point result0) (Schema.height (data s)) in
  let Y1 := THREE.y (sampleOrigin sc s o) in
  0.01 < Y1 - (THREE.y H - yVel c * 2) ->
  let f := tick sc time delta c s in
  gravity = -1 /\ maxYVelocity = 0.5
  /\ yVel (closure f)
     = yVel c + Math_max (gravity * delta * 0.001) (- maxYVelocity)
  /\ lastPosition (component f)
     = Some (THREE.setY H (Y1 + yVel (closure f)))
  /\ (Y1 == 5 -> THREE.y H == 0 -> delta == 16 -> yVel c == 0 ->
      exists p, lastPosition (component f) = Some p
                /\ THREE.y p == 5 - 0.016).
Proof.
  intros Hen Hlast Ho Hobj Hfar Hsplit Hpre Hres Hok H Y1 Hfall f.
  assert (E : f = tick sc time delta c s) by reflexivity.
  rewrite (tick_commits_first_valid sc time delta c s last o pre post cand
             result0 results Hen Hlast Ho Hobj Hfar Hsplit Hpre Hres Hok) in E.
  destruct (acceptHit_falling sc delta (sampleOrigin sc s o) c s o result0
              Ho Hfall) as (Hc & Hl).
  rewrite Hc in E. rewrite E. cbn [closure component set_firstTry set_yVel yVel].
  split; [reflexivity|]. split; [reflexivity|]. split; [reflexivity|].
  split; [exact Hl|].
  intros HY HH Hd Hv. eexists. split; [exact Hl|].
  cbn [THREE.setY THREE.y]. fold Y1.
  rewrite HY, Hv, (step_16ms delta Hd). reflexivity.
Qed.

(** The scenario of the fall: the agent at height 5 over ground whose raised
    height is 0, a frame of 16 ms, no velocity yet. *)
Lemma falling_adds_clamped_gravity_witness :
  let sc := Demo.sceneOf Demo.lowGround in
  let s := Demo.standingIn sc ".ground" "" 0
             (THREE.Vec3 0 5 0) (THREE.Vec3 0.1 5 0) in
  let f := tick sc 0 16 initialClosure s in
  yVel (closure f) == - 0.016
  /\ (exists p, lastPosition (component f) = Some p
                /\ THREE.y p == 5 - 0.016)
  /\ THREE.y (position (component f)) == 4.984.
Proof.
  intros sc s f.
  pose (ray := candidateRay sc s (THREE.Vec3 0.1 5 0) (THREE.Vec3 0 5 0) 0 1).
  destruct (falling_adds_clamped_gravity sc 0 16 initialClosure s
              (THREE.Vec3 0 5 0) 0%nat [] (tl scanPattern) (0, 1)
              {| distance := THREE.y (origin ray) - (-1.6);
                 point := THREE.Vec3 (THREE.x (origin ray)) (-1.6)
                                     (THREE.z (origin ray));
                 object_el := 1%nat |} [])
    as (_ & _ & Hv & _ & Hex).
  - reflexivity.
  - reflexivity.
  - reflexivity.
  - discriminate.
  - vm_compute. reflexivity.
  - reflexivity.
  - constructor.
  - vm_compute. reflexivity.
  - reflexivity.
  - vm_compute. reflexivity.
  - split; [|split].
    + unfold f. rewrite Hv. vm_compute. reflexivity.
    + apply Hex; vm_compute; reflexivity.
    + vm_compute. reflexivity.
Defined.

(** ** Guards *)

(** C9. On a frame where the intended position is within 0.01 of
    [lastPosition], [tick] returns without casting a ray and leaves the
    closure ([yVel], [firstTry]) and the component ([position],
    [lastPosition]) as they were. *)
Theorem still_frame_changes_nothing
        (sc : Scene) (time delta : Q) (c : Closure) (s : Component)
        (last : Vector3) (o : Entity) :
  lastPosition s = Some last ->
  xzOrigin s = Some o ->
  THREE.distanceTo_le (sampleOrigin sc s o) last 0.01 = true ->
  tick sc time delta c s
  = {| completion := Normal; closure := c; component := s; casts := [] |}.
Proof.
  intros Hlast Ho Hnear. unfold tick.
  destruct (Schema.enabled (data s)); cbn [negb]; [|reflexivity].
  rewrite Hlast. cbv iota beta zeta. rewrite Ho, Hlast, Hnear.
  destruct (Nat.eqb (length (objects s)) 0); reflexivity.
Qed.

(** The agent has drifted by 0.005 since the last landing. *)
Lemma still_frame_changes_nothing_witness :
  let s := Demo.standing ".ground" ".obstacle" 0.5
             (THREE.Vec3 0 1.6 0) (THREE.Vec3 0.005 1.6 0) in
  let c := {| yVel := 0; firstTry := false |} in
  tick Demo.scene 0 16 c s
  = {| completion := Normal; closure := c; component := s; casts := [] |}.
Proof.
  intros s c.
  apply (still_frame_changes_nothing Demo.scene 0 16 c s
           (THREE.Vec3 0 1.6 0) 0%nat).
  - reflexivity.
  - reflexivity.
  - vm_compute. reflexivity.
Defined.

(** ** Disabling and enabling *)

(** [update] forgets [lastPosition] whatever else it does, and touches
    neither the data nor the agent's position. *)
Lemma update_resets_lastPosition (sc : Scene) (s : Component) :
  lastPosition (snd (fst (update sc s))) = None
  /\ data (snd (fst (update sc s))) = data s
  /\ position (snd (fst (update sc s))) = position s.
Proof.
  unfold update. cbn.
  destruct (truthy (Schema.exclude (data s))); cbn.
  - destruct (querySelectorAll sc (Schema.exclude (data s))) as [ex|]; cbn;
      [|repeat split].
    destruct (querySelectorAll sc (Schema.navmesh (data s))) as [nodes|]; cbn;
      [|repeat split].
    destruct (truthy (Schema.xzOrigin (data s))); cbn; [|repeat split].
    destruct (querySelector sc (el s) (Schema.xzOrigin (data s)));
      repeat split.
  - destruct (querySelectorAll sc (Schema.navmesh (data s))) as [nodes|]; cbn;
      [|repeat split].
    destruct (truthy (Schema.xzOrigin (data s))); cbn; [|repeat split].
    destruct (querySelector sc (el s) (Schema.xzOrigin (data s)));
      repeat split.
Qed.

(** The first frame of an enabled component after [update]: [lastPosition] is
    sampled from the origin, [firstTry] is set, and the frame ends there. *)
Lemma tick_after_update (sc : Scene) (time delta : Q) (c : Closure)
      (s : Component) (o : Entity) :
  Schema.enabled (data s) = true ->
  lastPosition s = None ->
  xzOrigin s = Some o ->
  tick sc time delta c s
  = {| completion := Normal;
       closure := set_firstTry c true;
       component := set_lastPosition s (Some (sampleOrigin sc s o));
       casts := [] |}.
Proof.
  intros Hen Hlast Ho. unfold tick. rewrite Hen, Hlast, Ho.
  cbn [negb]. cbv iota beta zeta.
  cbn [objects xzOrigin lastPosition set_lastPosition].
  destruct (Nat.eqb (length (objects s)) 0); [reflexivity|].
  rewrite Ho.
  change (sampleOrigin sc (set_lastPosition s (Some (sampleOrigin sc s o))) o)
    with (sampleOrigin sc s o).
  rewrite distanceTo_self. reflexivity.
Qed.

(** Re-enabling does not resume from the state at disable time: an agent that
    had landed ([lastPosition] set, [firstTry] clear) is disabled, ticks once,
    and is enabled again; [lastPosition] is then [null], and the next frame
    sets [firstTry] again. *)
Lemma reenable_resumes_stored_state_counterexample :
  let s0 := Demo.standing ".ground" ".obstacle" 0.5
              (THREE.Vec3 0 1.6 0) (THREE.Vec3 0 1.6 0) in
  let c0 := {| yVel := 0; firstTry := false |} in
  let s1 := snd (fst (setAttribute_enabled Demo.scene false s0)) in
  let f1 := tick Demo.scene 0 16 c0 s1 in
  let s2 := snd (fst (setAttribute_enabled Demo.scene true (component f1))) in
  let f2 := tick Demo.scene 0 16 (closure f1) s2 in
  ~ (lastPosition s2 = lastPosition s0
     /\ firstTry (closure f2) = firstTry c0).
Proof.
  intros s0 c0 s1 f1 s2 f2 [H _]. vm_compute in H. discriminate H.
Qed.

(** C8 (as the code has it). While [enabled] is false every [tick] returns at
    once, with the closure and the component as they were and no ray cast.
    Changing [enabled] runs [update], which keeps the agent's position but
    sets [lastPosition] to [null]; the first frame after enabling again
    therefore samples [lastPosition] anew from the origin and sets [firstTry],
    and carries over only [yVel] and the agent's position. *)
Theorem disabled_freezes_and_toggle_forgets_lastPosition (sc : Scene) :
  (forall time delta c s,
      Schema.enabled (data s) = false ->
      tick sc time delta c s
      = {| completion := Normal; closure := c; component := s;
           casts := [] |})
  /\ (forall b s,
         Schema.enabled (data s) <> b ->
         let s' := snd (fst (setAttribute_enabled sc b s)) in
         Schema.enabled (data s') = b
         /\ lastPosition s' = None
         /\ position s' = position s)
  /\ (forall time delta c s o,
         Schema.enabled (data s) = true ->
         lastPosition s = None ->
         xzOrigin s = Some o ->
         let f := tick sc time delta c s in
         completion f = Normal
         /\ casts f = []
         /\ firstTry (closure f) = true
         /\ yVel (closure f) = yVel c
         /\ lastPosition (component f) = Some (sampleOrigin sc s o)
         /\ position (component f) = position s).
Proof.
  split; [|split].
  - intros time delta c s H. apply tick_disabled. exact H.
  - intros b s Hb s'. subst s'. unfold setAttribute_enabled.
    destruct (Bool.eqb (Schema.enabled (data s)) b) eqn:E.
    + apply Bool.eqb_prop in E. contradiction.
    + destruct (update_resets_lastPosition sc
                  (set_data s (Schema.set_enabled (data s) b)))
        as (H1 & H2 & H3).
      rewrite H1, H2, H3. repeat split.
  - intros time delta c s o Hen Hlast Ho f. subst f.
    rewrite (tick_after_update sc time delta c s o Hen Hlast Ho).
    repeat split.
Qed.

(** The landed agent of the scene is disabled, ticks, and is enabled again. *)
Lemma disabled_freezes_and_toggle_forgets_lastPosition_witness :
  let s0 := Demo.standing ".ground" ".obstacle" 0.5
              (THREE.Vec3 0 1.6 0) (THREE.Vec3 0 1.6 0) in
  let c0 := {| yVel := -0.016; firstTry := false |} in
  let s1 := snd (fst (setAttribute_enabled Demo.scene false s0)) in
  let f1 := tick Demo.scene 0 16 c0 s1 in
  let s2 := snd (fst (setAttribute_enabled Demo.scene true (component f1))) in
  let f2 := tick Demo.scene 0 16 (closure f1) s2 in
  (closure f1 = c0 /\ component f1 = s1 /\ casts f1 = [])
  /\ (lastPosition s1 = None /\ lastPosition s2 = None
      /\ position s2 = position s0)
  /\ (firstTry (closure f2) = true /\ yVel (closure f2) = -0.016
      /\ lastPosition (component f2) = Some (THREE.Vec3 0 1.6 0)).
Proof.
  intros s0 c0 s1 f1 s2 f2.
  destruct (disabled_freezes_and_toggle_forgets_lastPosition Demo.scene)
    as (Hoff & Htoggle & Hfirst).
  assert (E1 : f1 = {| completion := Normal; closure := c0; component := s1;
                       casts := [] |}).
  { apply (Hoff 0 16 c0 s1). reflexivity. }
  split; [|split].
  - rewrite E1. repeat split.
  - destruct (Htoggle false s0) as (_ & H1 & _); [discriminate|].
    destruct (Htoggle true (component f1)) as (_ & H2 & H3);
      [rewrite E1; discriminate|].
    split; [exact H1|]. split; [exact H2|].
    fold s2 in H3. rewrite H3, E1. reflexivity.
  - destruct (Hfirst 0 16 (closure f1) s2 0%nat)
      as (_ & _ & K1 & K2 & K3 & _); try reflexivity.
    split; [exact K1|]. split; [unfold f2; rewrite K2, E1; reflexivity|].
    unfold f2. rewrite K3. reflexivity.
Defined.

(** ** Several instances *)

(** The velocity and the landing flag are not private to an instance. With two
    agents in the scene, a frame of the first one changes the [yVel] and the
    [firstTry] that the second one reads, and with them what the next frame of
    the second one does: it is rolled back when the first one has ticked, and
    left where it is when it has not. *)
Lemma instance_state_is_private_counterexample :
  let w0 := Demo.twoAgents in
  let w1 := tickComponent Demo.scene 0 0 16 w0 in
  ~ (yVel (shared w1) == yVel (shared w0))
  /\ firstTry (shared w1) <> firstTry (shared w0)
  /\ components (tickComponent Demo.scene 1 0 16 w1) !! 1%nat
     <> components (tickComponent Demo.scene 1 0 16 w0) !! 1%nat.
Proof.
  intros w0 w1. split; [|split].
  - intros H. vm_compute in H. discriminate H.
  - intros H. vm_compute in H. discriminate H.
  - intros H. vm_compute in H. discriminate H.
Qed.

(** ** No walkable surface *)

(** With no objects at all a frame still changes state: neither selector
    matches an entity, the component has landed before ([firstTry] clear) and
    has just been configured again; its next frame sets [firstTry] and gives
    [lastPosition] a value. *)
Lemma no_walkable_surface_is_noop_counterexample :
  let s0 := Demo.fresh (Demo.configure ".nothing" "" 0.5)
                       (THREE.Vec3 0 1.6 0) in
  let s1 := snd (fst (update Demo.scene s0)) in
  let c := {| yVel := 0; firstTry := false |} in
  let f1 := tick Demo.scene 0 16 c s1 in
  querySelectorAll Demo.scene ".nothing" = Some []
  /\ objects s1 = []
  /\ lastPosition s1 = None
  /\ lastPosition (component f1) = Some (THREE.Vec3 0 1.6 0)
  /\ firstTry (closure f1) = true
  /\ ~ (closure f1 = c /\ component f1 = s1).
Proof.
  intros s0 s1 c f1. repeat split.
  intros [H _]. vm_compute in H. discriminate H.
Qed.

(** C5 (as the code has it). When the walkable selector matches no entity and
    the exclude selector is empty or matches none either, [update] leaves no
    objects and [lastPosition] [null]. With no objects no [tick] casts a ray
    or changes the agent's position, [yVel] or the objects: a frame of a
    disabled component, or of one whose [lastPosition] is set, returns with
    the closure and the component as they were; the frame of an enabled
    component whose [lastPosition] is [null], the first after [update], sets
    [firstTry] and samples [lastPosition] from the origin, or, when the
    origin is [null], leaves a zero vector in [lastPosition] and throws. *)
Theorem no_objects_no_scan (sc : Scene) :
  (forall s,
      querySelectorAll sc (Schema.navmesh (data s)) = Some [] ->
      (truthy (Schema.exclude (data s)) = false
       \/ querySelectorAll sc (Schema.exclude (data s)) = Some []) ->
      objects (snd (fst (update sc s))) = []
      /\ lastPosition (snd (fst (update sc s))) = None)
  /\ (forall time delta c s,
         objects s = [] ->
         let f := tick sc time delta c s in
         f = (if negb (Schema.enabled (data s))
              then {| completion := Normal; closure := c; component := s;
                      casts := [] |}
              else
                match lastPosition s, xzOrigin s with
                | Some _, _ =>
                  {| completion := Normal; closure := c; component := s;
                     casts := [] |}
                | None, Some o =>
                  {| completion := Normal; closure := set_firstTry c true;
                     component :=
                       set_lastPosition s (Some (sampleOrigin sc s o));
                     casts := [] |}
                | None, None =>
                  {| completion := Throw; closure := set_firstTry c true;
                     component := set_lastPosition s (Some THREE.zero);
                     casts := [] |}
                end)
         /\ casts f = []
         /\ position (component f) = position s
         /\ yVel (closure f) = yVel c
         /\ objects (component f) = []).
Proof.
  split.
  - intros s Hnav Hex.
    split; [|apply (update_resets_lastPosition sc s)].
    unfold update. cbn.
    assert (E : (if truthy (Schema.exclude (data s))
                 then querySelectorAll sc (Schema.exclude (data s))
                 else Some []) = Some []).
    { destruct Hex as [H|H].
      - rewrite H. reflexivity.
      - rewrite H. destruct (truthy _); reflexivity. }
    rewrite E. cbn. rewrite Hnav. cbn.
    destruct (truthy (Schema.xzOrigin (data s))); cbn; [|reflexivity].
    destruct (querySelector sc (el s) (Schema.xzOrigin (data s)));
      reflexivity.
  - intros time delta c s Hobj f. subst f. unfold tick.
    destruct (Schema.enabled (data s)); cbn [negb].
    + destruct (lastPosition s) as [last|] eqn:Hlast.
      * cbv iota beta zeta. rewrite Hobj. cbn [length Nat.eqb].
        cbn [casts component closure]. repeat split; assumption.
      * destruct (xzOrigin s) as [o|]; cbv iota beta zeta;
          cbn [objects set_lastPosition]; rewrite ?Hobj;
          cbn [length Nat.eqb casts component closure position
               set_lastPosition set_firstTry yVel objects];
          repeat split; assumption.
    + cbn [casts component closure]. repeat split; assumption.
Qed.

(** Neither selector matches an entity of the scene: no objects; the first
    frame samples [lastPosition], and a frame after a move casts nothing and
    changes nothing. *)
Lemma no_objects_no_scan_witness :
  let s0 := Demo.fresh (Demo.configure ".nothing" "" 0.5)
                       (THREE.Vec3 0 1.6 0) in
  let s1 := snd (fst (update Demo.scene s0)) in
  let f1 := tick Demo.scene 0 16 initialClosure s1 in
  let s2 := set_position (component f1) (THREE.Vec3 1.5 1.6 0) in
  let f2 := tick Demo.scene 16 16 (closure f1) s2 in
  objects s1 = []
  /\ f1 = {| completion := Normal; closure := initialClosure;
             component := set_lastPosition s1 (Some (THREE.Vec3 0 1.6 0));
             casts := [] |}
  /\ f2 = {| completion := Normal; closure := closure f1; component := s2;
             casts := [] |}.
Proof.
  intros s0 s1 f1 s2 f2.
  destruct (no_objects_no_scan Demo.scene) as (Hupd & Htick).
  assert (H1 : objects s1 = []).
  { destruct (Hupd s0) as [K _];
      [reflexivity | left; reflexivity | exact K]. }
  split; [exact H1|]. split.
  - destruct (Htick 0 16 initialClosure s1 H1) as (K & _). exact K.
  - destruct (Htick 16 16 (closure f1) s2) as (K & _).
    + reflexivity.
    + exact K.
Defined.

(** [update] never warns: [Array.from] gives an array, which is not [null]. *)
Lemma update_never_warns (sc : Scene) (s : Component) :
  snd (update sc s) = [].
Proof.
  unfold update. cbn.
  destruct (truthy (Schema.exclude (data s))); cbn.
  - destruct (querySelectorAll sc (Schema.exclude (data s))); cbn;
      [|reflexivity].
    destruct (querySelectorAll sc (Schema.navmesh (data s))); cbn;
      [|reflexivity].
    destruct (truthy (Schema.xzOrigin (data s))); cbn; [|reflexivity].
    destruct (querySelector sc (el s) (Schema.xzOrigin (data s)));
      reflexivity.
  - destruct (querySelectorAll sc (Schema.navmesh (data s))); cbn;
      [|reflexivity].
    destruct (truthy (Schema.xzOrigin (data s))); cbn; [|reflexivity].
    destruct (querySelector sc (el s) (Schema.xzOrigin (data s)));
      reflexivity.
Qed.

(** ** Terminal velocity *)

(** C3 (what the code does). The clamp of [tick] bounds the step added to
    [yVel] in one frame, not [yVel]: an agent 100 above the ground with an
    unbounded fall, moving 0.1 along x each frame, has [yVel] at -0.5 after
    one frame of one second and at -1 after two, and at -0.75 after three
    frames of 250 ms; both are below [- maxYVelocity]. *)
Theorem yVel_passes_terminal_velocity :
  let start := (initialClosure,
                Demo.standing ".ground" "" 0
                              (THREE.Vec3 0 100 0) (THREE.Vec3 0 100 0)) in
  let step := THREE.Vec3 0.1 0 0 in
  yVel (fst (Demo.frames 1 step 1000 start)) == - 0.5
  /\ yVel (fst (Demo.frames 2 step 1000 start)) == - 1
  /\ yVel (fst (Demo.frames 2 step 1000 start)) < - maxYVelocity
  /\ yVel (fst (Demo.frames 3 step 250 start)) == - 0.75
  /\ yVel (fst (Demo.frames 3 step 250 start)) < - maxYVelocity.
Proof.
  intros start step. repeat split; vm_compute; reflexivity.
Qed.

(** * Further properties of [tick] and [update] *)

(** ** What a frame leaves alone *)

Section FrameInvariants.

Variable sc : Scene.
Variables (delta : Q) (nextPosition : Vector3).

Lemma sameConfig_refl (s : Component) : sameConfig s s.
Proof. repeat split. Qed.

(** Committing a hit writes the position and [lastPosition] only, and casts
    nothing itself. *)
Lemma acceptHit_sameConfig (c : Closure) (s : Component) (r0 : Intersection) :
  sameConfig s (component (acceptHit sc delta nextPosition c s r0))
  /\ casts (acceptHit sc delta nextPosition c s r0) = []
  /\ firstTry (closure (acceptHit sc delta nextPosition c s r0)) = firstTry c.
Proof.
  unfold acceptHit. cbv zeta.
  destruct (Qlt_bool _ _); destruct (xzOrigin s) eqn:Ho; cbn;
    repeat split; try assumption.
Qed.

(** The loop keeps the configuration and [firstTry], casts at most one ray for
    each candidate, and every ray has the [far] of the configuration. *)
Lemma scan_invariants (c : Closure) (s : Component) (pattern : list (Q * Q)) :
  let r := scanPatternLoop sc pattern delta nextPosition c s in
  sameConfig s (component (snd r))
  /\ (length (casts (snd r)) <= length pattern)%nat
  /\ Forall (fun ray => far ray = rayFar s) (casts (snd r))
  /\ firstTry (closure (snd r)) = firstTry c.
Proof.
  induction pattern as [|[angle dist] pattern IH]; cbn [scanPatternLoop].
  - cbn. repeat split; [lia | constructor].
  - destruct (lastPosition s) as [last|].
    + cbv zeta in *.
      assert (Hfar : far (candidateRay sc s nextPosition last angle dist)
                     = rayFar s) by reflexivity.
      destruct IH as (I1 & I2 & I3 & I4).
      destruct (intersectObjects sc (objects s)
                  (candidateRay sc s nextPosition last angle dist))
        as [|r0 rs].
      * destruct (cast_fields
                    (candidateRay sc s nextPosition last angle dist)
                    (scanPatternLoop sc pattern delta nextPosition c s))
          as (_ & _ & K3 & K4 & K5).
        rewrite K3, K4, K5. cbn [length].
        repeat split; try apply I1; [lia | constructor; assumption
                                     | assumption].
      * destruct (existsb _ (r0 :: rs)).
        -- destruct (cast_fields
                       (candidateRay sc s nextPosition last angle dist)
                       (scanPatternLoop sc pattern delta nextPosition c s))
             as (_ & _ & K3 & K4 & K5).
           rewrite K3, K4, K5. cbn [length].
           repeat split; try apply I1; [lia | constructor; assumption
                                        | assumption].
        -- destruct (acceptHit_sameConfig c s r0) as (A1 & A2 & A3).
           cbn [cast fst snd component casts closure]. rewrite A2.
           cbn [length].
           repeat split; try apply A1; [lia | repeat constructor; assumption
                                        | assumption].
    + cbn. repeat split; [lia | constructor].
Qed.

End FrameInvariants.

(** X1. A frame never writes the configuration: whatever [tick] does, the
    data, the entity, the excluded entities, the objects and the origin of
    the component are what they were. *)
Theorem tick_keeps_configuration
        (sc : Scene) (time delta : Q) (c : Closure) (s : Component) :
  sameConfig s (component (tick sc time delta c s)).
Proof.
  unfold tick.
  destruct (Schema.enabled (data s)); cbn [negb]; [|apply sameConfig_refl].
  assert (Hscan : forall c' s' next,
             sameConfig s s' ->
             sameConfig s (component
                             (afterScan sc
                                (scanPatternLoop sc scanPattern delta next
                                                 c' s')))).
  { intros c' s' next Hs'.
    destruct (scan_invariants sc delta next c' s' scanPattern)
      as ((D1 & D2 & D3 & D4 & D5) & _).
    destruct Hs' as (E1 & E2 & E3 & E4 & E5).
    unfold afterScan.
    destruct (scanPatternLoop sc scanPattern delta next c' s') as [b f].
    cbn [snd] in *.
    destruct (completion f).
    - destruct (negb _ && negb b).
      + destruct (lastPosition (component f)); unfold sameConfig; cbn;
          repeat split; congruence.
      + unfold sameConfig. cbn. repeat split; congruence.
    - repeat split; congruence. }
  destruct (lastPosition s) as [last|] eqn:Hlast.
  - cbv iota beta zeta.
    destruct (Nat.eqb (length (objects s)) 0); [apply sameConfig_refl|].
    destruct (xzOrigin s) as [o|]; [|apply sameConfig_refl].
    rewrite Hlast.
    destruct (THREE.distanceTo_le _ _ _); [apply sameConfig_refl|].
    apply Hscan. apply sameConfig_refl.
  - destruct (xzOrigin s) as [o|] eqn:Ho; cbv iota beta zeta.
    + cbn [objects set_lastPosition xzOrigin lastPosition]. rewrite Ho.
      destruct (Nat.eqb (length (objects s)) 0); [repeat split|].
      destruct (THREE.distanceTo_le _ _ _); [repeat split|].
      apply Hscan. repeat split.
    + repeat split.
Qed.

(** X2. A frame casts at most eight rays, and each of them reaches as far as
    the configuration says: [fall + maxYVelocity] when [fall] is positive,
    without bound otherwise. *)
Theorem tick_casts_at_most_eight_rays
        (sc : Scene) (time delta : Q) (c : Closure) (s : Component) :
  (length (casts (tick sc time delta c s)) <= 8)%nat
  /\ Forall (fun ray => far ray = rayFar s) (casts (tick sc time delta c s)).
Proof.
  assert (Hscan : forall c' s' next,
             data s' = data s ->
             (length (casts (afterScan sc
                               (scanPatternLoop sc scanPattern delta next
                                                c' s'))) <= 8)%nat
             /\ Forall (fun ray => far ray = rayFar s)
                       (casts (afterScan sc
                                 (scanPatternLoop sc scanPattern delta next
                                                  c' s')))).
  { intros c' s' next Hd.
    destruct (scan_invariants sc delta next c' s' scanPattern)
      as (_ & L1 & L2 & _).
    assert (Hfar : rayFar s' = rayFar s) by (unfold rayFar; rewrite Hd;
                                             reflexivity).
    rewrite Hfar in L2. change (length scanPattern) with 8%nat in L1.
    unfold afterScan.
    destruct (scanPatternLoop sc scanPattern delta next c' s') as [b f].
    cbn [snd] in *.
    destruct (completion f).
    - destruct (negb _ && negb b).
      + destruct (lastPosition (component f)); cbn; split; assumption.
      + cbn. split; assumption.
    - split; assumption. }
  assert (Hnone : forall k c' s',
             (length (casts {| completion := k; closure := c';
                               component := s'; casts := [] |}) <= 8)%nat
             /\ Forall (fun ray => far ray = rayFar s)
                       (casts {| completion := k; closure := c';
                                 component := s'; casts := [] |})).
  { intros. cbn. split; [lia | constructor]. }
  unfold tick.
  destruct (Schema.enabled (data s)); cbn [negb]; [|apply Hnone].
  destruct (lastPosition s) as [last|] eqn:Hlast.
  - cbv iota beta zeta.
    destruct (Nat.eqb (length (objects s)) 0); [apply Hnone|].
    destruct (xzOrigin s) as [o|]; [|apply Hnone].
    rewrite Hlast.
    destruct (THREE.distanceTo_le _ _ _); [apply Hnone|].
    apply Hscan. reflexivity.
  - destruct (xzOrigin s) as [o|] eqn:Ho; cbv iota beta zeta.
    + cbn [objects set_lastPosition xzOrigin lastPosition]. rewrite Ho.
      destruct (Nat.eqb (length (objects s)) 0); [apply Hnone|].
      destruct (THREE.distanceTo_le _ _ _); [apply Hnone|].
      apply Hscan. reflexivity.
    + apply Hnone.
Qed.

(** ** The velocity over a frame *)

(** The clamped step is between [- maxYVelocity] and 0 when time does not run
    backwards. *)
Lemma step_bounds (delta : Q) :
  0 <= delta ->
  - maxYVelocity <= Math_max (gravity * delta * 0.001) (- maxYVelocity)
  /\ Math_max (gravity * delta * 0.001) (- maxYVelocity) <= 0.
Proof.
  intros Hd. unfold Math_max, gravity, maxYVelocity.
  destruct (Qle_bool _ _) eqn:E.
  - split; lra.
  - assert (H : ~ (-1 * delta * 0.001 <= - (0.5))).
    { intros H. apply Qle_bool_iff in H. congruence. }
    split; lra.
Qed.

(** What [yVel] can be after the loop: what it was, 0 after a hit at rest, or
    one clamped step lower after a hit in the air. *)
Lemma scan_yVel (sc : Scene) (delta : Q) (next : Vector3) (c : Closure)
      (s : Component) (pattern : list (Q * Q)) :
  let v := yVel (closure (snd (scanPatternLoop sc pattern delta next c s))) in
  v = yVel c \/ v = 0
  \/ v = yVel c + Math_max (gravity * delta * 0.001) (- maxYVelocity).
Proof.
  induction pattern as [|[angle dist] pattern IH]; cbn [scanPatternLoop].
  - left. reflexivity.
  - destruct (lastPosition s) as [last|]; [|left; reflexivity].
    cbv zeta in *.
    destruct (intersectObjects sc (objects s)
                (candidateRay sc s next last angle dist)) as [|r0 rs].
    + destruct (cast_fields (candidateRay sc s next last angle dist)
                  (scanPatternLoop sc pattern delta next c s))
        as (_ & _ & K & _).
      rewrite K. exact IH.
    + destruct (existsb _ (r0 :: rs)).
      * destruct (cast_fields (candidateRay sc s next last angle dist)
                    (scanPatternLoop sc pattern delta next c s))
          as (_ & _ & K & _).
        rewrite K. exact IH.
      * cbn [cast fst snd closure]. unfold acceptHit. cbv zeta.
        destruct (Qlt_bool _ _); destruct (xzOrigin s); cbn;
          [right; right | right; right | right; left | right; left];
          reflexivity.
Qed.

(** [yVel] after a frame: the three cases of the loop. *)
Lemma tick_yVel (sc : Scene) (time delta : Q) (c : Closure) (s : Component) :
  let v := yVel (closure (tick sc time delta c s)) in
  v = yVel c \/ v = 0
  \/ v = yVel c + Math_max (gravity * delta * 0.001) (- maxYVelocity).
Proof.
  assert (Hscan : forall c' s' next,
             yVel c' = yVel c ->
             let v := yVel (closure (afterScan sc
                                       (scanPatternLoop sc scanPattern delta
                                                        next c' s'))) in
             v = yVel c \/ v = 0
             \/ v = yVel c + Math_max (gravity * delta * 0.001)
                                      (- maxYVelocity)).
  { intros c' s' next Hc v. subst v.
    pose proof (scan_yVel sc delta next c' s' scanPattern) as H.
    cbv zeta in H. rewrite Hc in H. unfold afterScan.
    destruct (scanPatternLoop sc scanPattern delta next c' s') as [b f].
    cbn [snd] in *.
    destruct (completion f); [|exact H].
    destruct (negb _ && negb b).
    - destruct (lastPosition (component f)); cbn;
        destruct b; cbn; exact H.
    - cbn. destruct b; cbn; exact H. }
  unfold tick.
  destruct (Schema.enabled (data s)); cbn [negb]; [|left; reflexivity].
  destruct (lastPosition s) as [last|] eqn:Hlast.
  - cbv iota beta zeta.
    destruct (Nat.eqb (length (objects s)) 0); [left; reflexivity|].
    destruct (xzOrigin s) as [o|]; [|left; reflexivity].
    rewrite Hlast.
    destruct (THREE.distanceTo_le _ _ _); [left; reflexivity|].
    apply Hscan. reflexivity.
  - destruct (xzOrigin s) as [o|] eqn:Ho; cbv iota beta zeta.
    + cbn [objects set_lastPosition xzOrigin lastPosition]. rewrite Ho.
      destruct (Nat.eqb (length (objects s)) 0); [left; reflexivity|].
      destruct (THREE.distanceTo_le _ _ _); [left; reflexivity|].
      apply Hscan. reflexivity.
    + left. reflexivity.
Qed.

(** X4. When the frame time is not negative and [yVel] is not positive, it is
    not positive after the frame either, and the frame has lowered it by
    [maxYVelocity] at most: the velocity is never upward and a single frame
    never adds more than the terminal step. *)
Theorem yVel_stays_downward_one_step
        (sc : Scene) (time delta : Q) (c : Closure) (s : Component) :
  0 <= delta ->
  yVel c <= 0 ->
  yVel (closure (tick sc time delta c s)) <= 0
  /\ yVel c - maxYVelocity <= yVel (closure (tick sc time delta c s)).
Proof.
  intros Hd Hv.
  destruct (step_bounds delta Hd) as (B1 & B2).
  pose proof (tick_yVel sc time delta c s) as H. cbv zeta in H.
  unfold maxYVelocity in *.
  destruct H as [H | [H | H]]; rewrite H; split; lra.
Qed.

(** Two falling frames of one second in the scene: the velocity stays
    downward and each frame lowers it by half a unit at most. *)
Lemma yVel_stays_downward_one_step_witness :
  let c := {| yVel := - 0.5; firstTry := false |} in
  let s := Demo.standing ".ground" "" 0 (THREE.Vec3 0 100 0)
                         (THREE.Vec3 0.1 100 0) in
  yVel (closure (tick Demo.scene 0 1000 c s)) <= 0
  /\ yVel c - maxYVelocity <= yVel (closure (tick Demo.scene 0 1000 c s))
  /\ yVel (closure (tick Demo.scene 0 1000 c s)) == - 1.
Proof.
  intros c s.
  destruct (yVel_stays_downward_one_step Demo.scene 0 1000 c s) as (H1 & H2).
  - vm_compute. discriminate.
  - vm_compute. discriminate.
  - split; [exact H1|]. split; [exact H2|]. vm_compute. reflexivity.
Defined.

(** ** A frame that commits a hit *)

(** X3. On a frame that commits a hit [H] (the nearest hit of the accepted
    candidate, raised by the agent's height) while the intended height is not
    more than 0.01 above [H.y - yVel * 2]: [yVel] is reset to 0, [firstTry]
    is cleared and [lastPosition] becomes [H] itself. *)
Theorem grounded_hit_resets_velocity
        (sc : Scene) (time delta : Q) (c : Closure) (s : Component)
        (last : Vector3) (o : Entity)
        (pre post : list (Q * Q)) (cand : Q * Q)
        (result0 : Intersection) (results : list Intersection) :
  Schema.enabled (data s) = true ->
  lastPosition s = Some last ->
  xzOrigin s = Some o ->
  objects s <> [] ->
  THREE.distanceTo_le (sampleOrigin sc s o) last 0.01 = false ->
  scanPattern = pre ++ cand :: post ->
  Forall (fun cand' =>
            rejected s (candidateResults sc s (sampleOrigin sc s o) last cand')
            = true) pre ->
  candidateResults sc s (sampleOrigin sc s o) last cand = result0 :: results ->
  rejected s (result0 :: results) = false ->
  let H := THREE.addY (point result0) (Schema.height (data s)) in
  THREE.y (sampleOrigin sc s o) - (THREE.y H - yVel c * 2) <= 0.01 ->
  let f := tick sc time delta c s in
  yVel (closure f) = 0
  /\ firstTry (closure f) = false
  /\ lastPosition (component f) = Some H.
Proof.
  intros Hen Hlast Ho Hobj Hfar Hsplit Hpre Hres Hok H Hrest f.
  assert (E : f = tick sc time delta c s) by reflexivity.
  rewrite (tick_commits_first_valid sc time delta c s last o pre post cand
             result0 results Hen Hlast Ho Hobj Hfar Hsplit Hpre Hres Hok) in E.
  destruct (acceptHit_grounded sc delta (sampleOrigin sc s o) c s o result0
              Ho Hrest) as (Hc & Hl).
  rewrite Hc in E. rewrite E. cbn [closure component set_firstTry set_yVel
                                   yVel firstTry].
  split; [reflexivity|]. split; [reflexivity|]. exact Hl.
Qed.

(** The agent walks on the ground of the scene: the hit is at its feet. *)
Lemma grounded_hit_resets_velocity_witness :
  let s := Demo.standing ".ground" ".obstacle" 0.5
             (THREE.Vec3 0 1.6 0) (THREE.Vec3 0.5 1.6 0) in
  let f := tick Demo.scene 0 16 {| yVel := - 0.016; firstTry := true |} s in
  yVel (closure f) = 0
  /\ firstTry (closure f) = false
  /\ exists p, lastPosition (component f) = Some p
               /\ THREE.x p == 0.5 /\ THREE.y p == 1.6.
Proof.
  intros s f.
  pose (ray := candidateRay Demo.scene s (THREE.Vec3 0.5 1.6 0)
                            (THREE.Vec3 0 1.6 0) 0 1).
  destruct (grounded_hit_resets_velocity Demo.scene 0 16
              {| yVel := - 0.016; firstTry := true |} s
              (THREE.Vec3 0 1.6 0) 0%nat [] (tl scanPattern) (0, 1)
              {| distance := THREE.y (origin ray) - 0;
                 point := THREE.Vec3 (THREE.x (origin ray)) 0
                                     (THREE.z (origin ray));
                 object_el := 1%nat |} [])
    as (H1 & H2 & H3).
  - reflexivity.
  - reflexivity.
  - reflexivity.
  - discriminate.
  - vm_compute. reflexivity.
  - reflexivity.
  - constructor.
  - vm_compute. reflexivity.
  - reflexivity.
  - vm_compute. discriminate.
  - split; [exact H1|]. split; [exact H2|].
    eexists. split; [exact H3|]. split; vm_compute; reflexivity.
Defined.

(** ** [lastPosition] *)

(** The loop never takes [lastPosition] away. *)
Lemma scan_keeps_lastPosition (sc : Scene) (delta : Q) (next : Vector3)
      (c : Closure) (s : Component) (pattern : list (Q * Q)) :
  lastPosition s <> None ->
  lastPosition
    (component (snd (scanPatternLoop sc pattern delta next c s))) <> None.
Proof.
  intros Hlast. induction pattern as [|[angle dist] pattern IH];
    cbn [scanPatternLoop].
  - exact Hlast.
  - destruct (lastPosition s) as [last|] eqn:El; [|contradiction].
    cbv zeta in *.
    destruct (intersectObjects sc (objects s)
                (candidateRay sc s next last angle dist)) as [|r0 rs].
    + destruct (cast_fields (candidateRay sc s next last angle dist)
                  (scanPatternLoop sc pattern delta next c s))
        as (_ & _ & _ & K4 & _).
      rewrite K4. exact IH.
    + destruct (existsb _ (r0 :: rs)).
      * destruct (cast_fields (candidateRay sc s next last angle dist)
                    (scanPatternLoop sc pattern delta next c s))
          as (_ & _ & _ & K4 & _).
        rewrite K4. exact IH.
      * cbn [cast fst snd component]. unfold acceptHit. cbv zeta.
        destruct (Qlt_bool _ _); destruct (xzOrigin s); cbn;
          try discriminate; rewrite El; discriminate.
Qed.

(** X6. [tick] never takes [lastPosition] away: after a frame of an enabled
    component, or of any component whose [lastPosition] was set,
    [lastPosition] is set, also when the frame ends in a [TypeError]. Only
    [update] makes it [null]. *)
Theorem tick_never_nulls_lastPosition
        (sc : Scene) (time delta : Q) (c : Closure) (s : Component) :
  Schema.enabled (data s) = true \/ lastPosition s <> None ->
  lastPosition (component (tick sc time delta c s)) <> None.
Proof.
  intros H.
  assert (Hscan : forall c' s' next,
             lastPosition s' <> None ->
             lastPosition
               (component (afterScan sc
                             (scanPatternLoop sc scanPattern delta next
                                              c' s'))) <> None).
  { intros c' s' next Hl.
    pose proof (scan_keeps_lastPosition sc delta next c' s' scanPattern Hl)
      as K.
    unfold afterScan.
    destruct (scanPatternLoop sc scanPattern delta next c' s') as [b f].
    cbn [snd] in K.
    destruct (completion f); [|exact K].
    destruct (negb _ && negb b); [|exact K].
    destruct (lastPosition (component f)) eqn:E; [|contradiction].
    cbn. rewrite E. discriminate. }
  unfold tick.
  destruct (Schema.enabled (data s)); cbn [negb].
  - destruct (lastPosition s) as [last|] eqn:Hlast.
    + cbv iota beta zeta.
      destruct (Nat.eqb (length (objects s)) 0);
        [cbn; rewrite Hlast; discriminate|].
      destruct (xzOrigin s) as [o|]; [|cbn; rewrite Hlast; discriminate].
      rewrite Hlast.
      destruct (THREE.distanceTo_le _ _ _);
        [cbn; rewrite Hlast; discriminate|].
      apply Hscan. rewrite Hlast. discriminate.
    + destruct (xzOrigin s) as [o|] eqn:Ho; cbv iota beta zeta;
        [|cbn; discriminate].
      cbn [objects set_lastPosition xzOrigin lastPosition]. rewrite Ho.
      destruct (Nat.eqb (length (objects s)) 0); [cbn; discriminate|].
      destruct (THREE.distanceTo_le _ _ _); [cbn; discriminate|].
      apply Hscan. discriminate.
  - destruct H as [H|H]; [discriminate H | exact H].
Qed.

(** The agent of the scene, just configured with an origin selector that
    matches nothing: its first frame throws and leaves a [lastPosition]. *)
Lemma tick_never_nulls_lastPosition_witness :
  let d := {| Schema.enabled := true; Schema.navmesh := ".ground";
              Schema.fall := 0.5; Schema.height := 1.6;
              Schema.exclude := ""; Schema.xzOrigin := "#rig" |} in
  let s := snd (fst (update Demo.scene
                       (Demo.fresh d (THREE.Vec3 0 1.6 0)))) in
  lastPosition s = None
  /\ completion (tick Demo.scene 0 16 initialClosure s) = Throw
  /\ lastPosition (component (tick Demo.scene 0 16 initialClosure s))
     <> None.
Proof.
  intros d s. split; [reflexivity|]. split; [reflexivity|].
  apply (tick_never_nulls_lastPosition Demo.scene 0 16 initialClosure s).
  left. reflexivity.
Defined.

(** X12. Once a hit has been committed, it stays so: a frame of a component
    whose [lastPosition] is set finds [firstTry] clear and leaves it clear.
    Only the frame that follows [update] sets it again. *)
Theorem landed_stays_landed
        (sc : Scene) (time delta : Q) (c : Closure) (s : Component)
        (last : Vector3) :
  lastPosition s = Some last ->
  firstTry c = false ->
  firstTry (closure (tick sc time delta c s)) = false.
Proof.
  intros Hlast Hft. unfold tick.
  destruct (Schema.enabled (data s)); cbn [negb]; [|exact Hft].
  rewrite Hlast. cbv iota beta zeta.
  destruct (Nat.eqb (length (objects s)) 0); [exact Hft|].
  destruct (xzOrigin s) as [o|]; [|exact Hft].
  rewrite Hlast.
  destruct (THREE.distanceTo_le _ _ _); [exact Hft|].
  destruct (scan_invariants sc delta (sampleOrigin sc s o) c s scanPattern)
    as (_ & _ & _ & K).
  unfold afterScan.
  destruct (scanPatternLoop sc scanPattern delta (sampleOrigin sc s o) c s)
    as [b f].
  cbn [snd] in K. rewrite Hft in K.
  destruct (completion f); [|exact K].
  destruct b; cbn.
  - reflexivity.
  - rewrite K. cbn. destruct (lastPosition (component f)); cbn; exact K.
Qed.

(** A landed agent over the lava: every candidate is passed over, the agent is
    rolled back, and [firstTry] stays clear. *)
Lemma landed_stays_landed_witness :
  let s := Demo.standing ".ground, .platform" ".obstacle, .lava" 0.5
             (THREE.Vec3 5 1.6 0) (THREE.Vec3 5.5 1.6 0) in
  firstTry (closure (tick Demo.scene 0 16 {| yVel := 0; firstTry := false |}
                          s)) = false.
Proof.
  intros s.
  apply (landed_stays_landed Demo.scene 0 16 {| yVel := 0; firstTry := false |}
           s (THREE.Vec3 5 1.6 0)); reflexivity.
Defined.

(** ** An origin that does not resolve *)

(** X7. When [data.xzOrigin] is a selector that matches nothing under the
    agent, [update] completes and stores [null] as the origin; the first frame
    of the enabled component then throws after it has set [firstTry] and put
    a fresh zero vector in [lastPosition], and every later frame throws
    again, changing nothing, as long as the component has objects (with no
    objects it returns at the guard). No ray is cast in any of them. *)
Theorem unresolved_origin_makes_tick_throw (sc : Scene) (s0 : Component) :
  truthy (Schema.xzOrigin (data s0)) = true ->
  querySelector sc (el s0) (Schema.xzOrigin (data s0)) = Some None ->
  fst (fst (update sc s0)) = Normal ->
  Schema.enabled (data s0) = true ->
  let s := snd (fst (update sc s0)) in
  xzOrigin s = None
  /\ (forall time delta c,
         tick sc time delta c s
         = {| completion := Throw; closure := set_firstTry c true;
              component := set_lastPosition s (Some THREE.zero);
              casts := [] |})
  /\ (forall time delta c s' last,
         sameConfig s s' -> lastPosition s' = Some last ->
         tick sc time delta c s'
         = {| completion := (if Nat.eqb (length (objects s)) 0
                             then Normal else Throw);
              closure := c; component := s'; casts := [] |}).
Proof.
  intros Hsel Hq Hn Hen s.
  destruct (update_resets_lastPosition sc s0) as (U1 & U2 & _).
  fold s in U1, U2.
  assert (Hx : xzOrigin s = None).
  { subst s. revert Hn. unfold update. cbn.
    destruct (if truthy (Schema.exclude (data s0))
              then querySelectorAll sc (Schema.exclude (data s0))
              else Some []) as [ex|]; cbn; [|discriminate].
    destruct (querySelectorAll sc (Schema.navmesh (data s0))) as [nodes|];
      cbn; [|discriminate].
    rewrite Hsel, Hq. cbn. reflexivity. }
  split; [exact Hx|]. split.
  - intros time delta c. unfold tick. rewrite U2, Hen, U1, Hx. reflexivity.
  - intros time delta c s' last (C1 & _ & _ & C4 & C5) Hl.
    unfold tick. rewrite C1, U2, Hen, Hl. cbn [negb]. cbv iota beta zeta.
    rewrite C4, C5, Hx.
    destruct (Nat.eqb (length (objects s)) 0); reflexivity.
Qed.

(** The agent of the scene configured with an origin selector that matches
    nothing. *)
Lemma unresolved_origin_makes_tick_throw_witness :
  let d := {| Schema.enabled := true; Schema.navmesh := ".ground";
              Schema.fall := 0.5; Schema.height := 1.6;
              Schema.exclude := ""; Schema.xzOrigin := "#rig" |} in
  let s := snd (fst (update Demo.scene
                       (Demo.fresh d (THREE.Vec3 0 1.6 0)))) in
  let f1 := tick Demo.scene 0 16 initialClosure s in
  let f2 := tick Demo.scene 16 16 (closure f1) (component f1) in
  xzOrigin s = None
  /\ completion f1 = Throw
  /\ lastPosition (component f1) = Some THREE.zero
  /\ f2 = {| completion := Throw; closure := closure f1;
             component := component f1; casts := [] |}.
Proof.
  intros d s f1 f2.
  destruct (unresolved_origin_makes_tick_throw Demo.scene
              (Demo.fresh d (THREE.Vec3 0 1.6 0)))
    as (H1 & H2 & H3); try reflexivity.
  split; [exact H1|].
  assert (E1 : f1 = {| completion := Throw;
                       closure := set_firstTry initialClosure true;
                       component := set_lastPosition s (Some THREE.zero);
                       casts := [] |}).
  { exact (H2 0 16 initialClosure). }
  split; [rewrite E1; reflexivity|].
  split; [rewrite E1; reflexivity|].
  apply (H3 16 16 (closure f1) (component f1) THREE.zero).
  - rewrite E1. repeat split.
  - rewrite E1. reflexivity.
Defined.

(** ** [update] *)

(** X8. [update] is idempotent: running it again on the component it left
    ends the same way, with the same component and the same console. *)
Theorem update_idempotent (sc : Scene) (s : Component) :
  update sc (snd (fst (update sc s))) = update sc s.
Proof.
  unfold update. cbn.
  destruct (truthy (Schema.exclude (data s))) eqn:Hex; cbn.
  - destruct (querySelectorAll sc (Schema.exclude (data s))) as [ex|] eqn:Eex;
      cbn; rewrite ?Hex, ?Eex; cbn; [|reflexivity].
    destruct (querySelectorAll sc (Schema.navmesh (data s))) as [nodes|]
      eqn:Enav; cbn; rewrite ?Hex, ?Eex, ?Enav; cbn; [|reflexivity].
    destruct (truthy (Schema.xzOrigin (data s))) eqn:Hx; cbn;
      rewrite ?Hex, ?Eex, ?Enav, ?Hx; cbn; [|reflexivity].
    destruct (querySelector sc (el s) (Schema.xzOrigin (data s))) eqn:Eq;
      cbn; rewrite ?Hex, ?Eex, ?Enav, ?Hx, ?Eq; reflexivity.
  - destruct (querySelectorAll sc (Schema.navmesh (data s))) as [nodes|]
      eqn:Enav; cbn; rewrite ?Hex, ?Enav; cbn; [|reflexivity].
    destruct (truthy (Schema.xzOrigin (data s))) eqn:Hx; cbn;
      rewrite ?Hex, ?Enav, ?Hx; cbn; [|reflexivity].
    destruct (querySelector sc (el s) (Schema.xzOrigin (data s))) eqn:Eq;
      cbn; rewrite ?Hex, ?Enav, ?Hx, ?Eq; reflexivity.
Qed.

(** X9. After [update] with selectors the DOM accepts, the excluded entities
    are the matches of the exclude selector (none when it is empty), the
    objects are those of the walkable matches followed by those of the
    excluded entities, so every excluded entity is among the objects given to
    the ray caster, and the objects are not empty as soon as something is
    excluded. *)
Theorem update_objects_hold_excluded
        (sc : Scene) (s : Component) (ex nodes : list Entity) :
  (if truthy (Schema.exclude (data s))
   then querySelectorAll sc (Schema.exclude (data s))
   else Some []) = Some ex ->
  querySelectorAll sc (Schema.navmesh (data s)) = Some nodes ->
  let s' := snd (fst (update sc s)) in
  excludes s' = ex
  /\ objects s' = map object3D nodes ++ map object3D ex
  /\ (forall e, In e ex -> In (object3D e) (objects s'))
  /\ (ex <> [] -> objects s' <> [])
  /\ (truthy (Schema.exclude (data s)) = false -> ex = []).
Proof.
  intros Hex Hnav s'.
  assert (E : excludes s' = ex
              /\ objects s' = map object3D nodes ++ map object3D ex).
  { subst s'. unfold update. cbn. rewrite Hex. cbn. rewrite Hnav. cbn.
    destruct (truthy (Schema.xzOrigin (data s))); cbn; [|split; reflexivity].
    destruct (querySelector sc (el s) (Schema.xzOrigin (data s)));
      split; reflexivity. }
  destruct E as (E1 & E2). split; [exact E1|]. split; [exact E2|].
  split; [|split].
  - intros e He. rewrite E2. apply in_or_app. right.
    apply in_map. exact He.
  - intros Hne. rewrite E2. destruct ex as [|e ex']; [contradiction|].
    intros H. apply app_eq_nil in H. destruct H as [_ H]. discriminate H.
  - intros Hf. rewrite Hf in Hex. congruence.
Qed.

(** The scene with the ground walkable and the obstacle excluded. *)
Lemma update_objects_hold_excluded_witness :
  let s := Demo.fresh (Demo.configure ".ground" ".obstacle" 0.5)
                      (THREE.Vec3 0 1.6 0) in
  let s' := snd (fst (update Demo.scene s)) in
  excludes s' = [2%nat]
  /\ objects s' = [object3D 1%nat; object3D 2%nat]
  /\ In (object3D 2%nat) (objects s').
Proof.
  intros s s'.
  destruct (update_objects_hold_excluded Demo.scene s [2%nat] [1%nat])
    as (H1 & H2 & H3 & _).
  - reflexivity.
  - reflexivity.
  - split; [exact H1|]. split; [exact H2|].
    apply H3. left. reflexivity.
Defined.

(** X10. When the DOM rejects the walkable selector (as it does the empty
    string, the default of the schema), [update] throws without warning: by
    then it has forgotten [lastPosition], while the objects and the origin are
    still those of the configuration before. *)
Theorem update_rejected_selector_keeps_objects (sc : Scene) (s : Component) :
  querySelectorAll sc (Schema.navmesh (data s)) = None ->
  fst (fst (update sc s)) = Throw
  /\ snd (update sc s) = []
  /\ lastPosition (snd (fst (update sc s))) = None
  /\ objects (snd (fst (update sc s))) = objects s
  /\ xzOrigin (snd (fst (update sc s))) = xzOrigin s.
Proof.
  intros Hnav. unfold update. cbn.
  destruct (if truthy (Schema.exclude (data s))
            then querySelectorAll sc (Schema.exclude (data s))
            else Some []) as [ex|]; cbn.
  - rewrite Hnav. cbn. repeat split.
  - repeat split.
Qed.

(** The component with the defaults of the schema, in the scene. *)
Lemma update_rejected_selector_keeps_objects_witness :
  let s := Demo.fresh Schema.default (THREE.Vec3 0 1.6 0) in
  fst (fst (update Demo.scene s)) = Throw
  /\ objects (snd (fst (update Demo.scene s))) = [].
Proof.
  intros s.
  destruct (update_rejected_selector_keeps_objects Demo.scene s)
    as (H1 & _ & _ & H4 & _).
  - reflexivity.
  - split; [exact H1 | exact H4].
Defined.

(** ** After a rollback *)

(** A frame in which every candidate is passed over, as a whole. *)
Lemma tick_all_rejected (sc : Scene) (time delta : Q) (c : Closure)
      (s : Component) (last : Vector3) (o : Entity) :
  Schema.enabled (data s) = true ->
  lastPosition s = Some last ->
  xzOrigin s = Some o ->
  objects s <> [] ->
  THREE.distanceTo_le (sampleOrigin sc s o) last 0.01 = false ->
  Forall (fun cand =>
            rejected s (candidateResults sc s (sampleOrigin sc s o) last cand)
            = true) scanPattern ->
  tick sc time delta c s
  = {| completion := Normal; closure := c;
       component := if firstTry c then s
                    else set_position s (parentWorldToLocal sc (el s) last);
       casts := raysOf sc s (sampleOrigin sc s o) last scanPattern |}.
Proof.
  intros Hen Hlast Ho Hobj Hfar Hall.
  rewrite (tick_scans sc time delta c s last o Hen Hlast Ho Hobj Hfar).
  transitivity (afterScan sc
                  (castAll (raysOf sc s (sampleOrigin sc s o) last scanPattern)
                     (false, {| completion := Normal; closure := c;
                                component := s; casts := [] |}))).
  - f_equal.
    transitivity (scanPatternLoop sc (scanPattern ++ []) delta
                                  (sampleOrigin sc s o) c s).
    + rewrite app_nil_r. reflexivity.
    + apply (scan_prefix_rejected sc delta (sampleOrigin sc s o) c s
               scanPattern [] last Hlast Hall).
  - rewrite afterScan_miss, Hlast. destruct (firstTry c); reflexivity.
Qed.

(** X11. When the origin is the agent itself and the host's world position of
    the agent undoes [worldToLocal] at [lastPosition], a rollback puts the
    agent back exactly on [lastPosition]: if nothing moves the agent, the next
    frame finds it within the threshold and returns without casting a ray or
    changing anything. *)
Theorem rollback_then_rest
        (sc : Scene) (time delta time' delta' : Q) (c : Closure)
        (s : Component) (last : Vector3) :
  Schema.enabled (data s) = true ->
  lastPosition s = Some last ->
  xzOrigin s = Some (el s) ->
  truthy (Schema.xzOrigin (data s)) = false ->
  objects s <> [] ->
  THREE.distanceTo_le (sampleOrigin sc s (el s)) last 0.01 = false ->
  Forall (fun cand =>
            rejected s (candidateResults sc s (sampleOrigin sc s (el s)) last
                                         cand) = true) scanPattern ->
  firstTry c = false ->
  getWorldPosition sc (el s) (parentWorldToLocal sc (el s) last) = last ->
  let f := tick sc time delta c s in
  position (component f) = parentWorldToLocal sc (el s) last
  /\ tick sc time' delta' (closure f) (component f)
     = {| completion := Normal; closure := closure f;
          component := component f; casts := [] |}.
Proof.
  intros Hen Hlast Ho Hsel Hobj Hfar Hall Hft Hround f.
  assert (E : f = tick sc time delta c s) by reflexivity.
  rewrite (tick_all_rejected sc time delta c s last (el s) Hen Hlast Ho Hobj
             Hfar Hall), Hft in E.
  rewrite E. cbn [component closure position set_position].
  split; [reflexivity|].
  unfold tick. cbn [data set_position lastPosition objects xzOrigin].
  rewrite Hen, Hlast. cbn [negb]. cbv iota beta zeta.
  cbn [data set_position lastPosition objects xzOrigin].
  rewrite Ho, Hlast.
  destruct (objects s) as [|ob obs]; [contradiction|]. cbn [length Nat.eqb].
  assert (Hs : sampleOrigin sc
                 (set_position s (parentWorldToLocal sc (el s) last)) (el s)
               = last).
  { unfold sampleOrigin. cbn [data position set_position]. rewrite Hsel.
    exact Hround. }
  rewrite Hs, distanceTo_self. reflexivity.
Qed.

(** The landed agent over the lava is rolled back, and the frame after it
    does nothing. *)
Lemma rollback_then_rest_witness :
  let s := Demo.standing ".ground, .platform" ".obstacle, .lava" 0.5
             (THREE.Vec3 5 1.6 0) (THREE.Vec3 5.5 1.6 0) in
  let c := {| yVel := 0; firstTry := false |} in
  let f := tick Demo.scene 0 16 c s in
  position (component f) = THREE.Vec3 5 1.6 0
  /\ casts (tick Demo.scene 16 16 (closure f) (component f)) = [].
Proof.
  intros s c f.
  destruct (rollback_then_rest Demo.scene 0 16 16 16 c s (THREE.Vec3 5 1.6 0))
    as (H1 & H2).
  - reflexivity.
  - reflexivity.
  - reflexivity.
  - reflexivity.
  - discriminate.
  - vm_compute. reflexivity.
  - repeat constructor; vm_compute; reflexivity.
  - reflexivity.
  - reflexivity.
  - split; [exact H1|]. fold f in H2. rewrite H2. reflexivity.
Defined.

(** * Properties of the lightmap listeners *)

(** ** Names and keys *)

Section Split.

Import Lightmap.

Variable sep : ascii.

Lemma split_not_nil (s : string) : split sep s <> [].
Proof.
  destruct s as [|ch s]; cbn [split]; [discriminate|].
  destruct (Ascii.eqb ch sep); [discriminate|].
  destruct (split sep s); discriminate.
Qed.

(** Joining the parts gives the string back. *)
Lemma join_split (s : string) : join sep (split sep s) = s.
Proof.
  induction s as [|ch s IH]; [reflexivity|]. cbn [split].
  destruct (Ascii.eqb ch sep) eqn:E.
  - apply Ascii.eqb_eq in E. subst ch.
    pose proof (split_not_nil s) as Hne.
    destruct (split sep s) as [|p ps]; [contradiction|].
    cbn [join String.append]. cbn [join] in IH. rewrite IH. reflexivity.
  - pose proof (split_not_nil s) as Hne.
    destruct (split sep s) as [|p ps]; [contradiction|].
    destruct ps as [|p' ps].
    + cbn [join] in *. rewrite IH. reflexivity.
    + change (join sep (String ch p :: p' :: ps))
        with (String ch (String.append p
                           (String sep (join sep (p' :: ps))))).
      change (join sep (p :: p' :: ps))
        with (String.append p (String sep (join sep (p' :: ps)))) in IH.
      rewrite IH. reflexivity.
Qed.

(** No part holds the separator. *)
Lemma split_parts_clean (s : string) :
  Forall (fun p => occurs sep p = false) (split sep s).
Proof.
  induction s as [|ch s IH]; cbn [split].
  - repeat constructor.
  - destruct (Ascii.eqb ch sep) eqn:E.
    + constructor; [reflexivity | exact IH].
    + destruct (split sep s) as [|p ps].
      * repeat constructor. cbn. rewrite E. reflexivity.
      * inversion IH as [|? ? Hp Hps]; subst.
        constructor; [|exact Hps]. cbn. rewrite E. exact Hp.
Qed.

(** A string without the separator is its only part. *)
Lemma split_clean (s : string) : occurs sep s = false -> split sep s = [s].
Proof.
  induction s as [|ch s IH]; [reflexivity|]. cbn [occurs split].
  intros H. apply orb_false_iff in H. destruct H as [E H].
  rewrite E, (IH H). reflexivity.
Qed.

End Split.

(** A key that holds the separator is no part of any name. *)
Lemma piped_key_matches_nothing (k : string) (m : Lightmap.Material) :
  Lightmap.occurs Lightmap.pipe k = true ->
  Lightmap.nameMatches k m = false.
Proof.
  intros Hk. unfold Lightmap.nameMatches.
  pose proof (split_parts_clean Lightmap.pipe (Lightmap.name m)) as H.
  induction H as [|p ps Hp _ IH]; [reflexivity|].
  cbn [existsb]. rewrite IH, orb_false_r.
  destruct (String.eqb p k) eqn:E; [|reflexivity].
  apply String.eqb_eq in E. subst p. congruence.
Qed.

(** ** One node *)

Section Visit.

Import Lightmap.

Variables (d : Data) (t : Texture).

(** Lighting a material again changes nothing more, and never its name. *)
Lemma light_idempotent (i : Q) (m : Material) :
  light t i (light t i m) = light t i m.
Proof.
  unfold light. cbn. f_equal. f_equal. apply insert_insert_eq.
Qed.

Lemma light_name (i : Q) (m : Material) : name (light t i m) = name m.
Proof. reflexivity. Qed.

(** The material of a mesh after its material has been replaced. *)
Lemma materialOf_insert (mats : gmap nat Material) (n : Node) (k : nat)
      (m m' : Material) :
  materialOf mats n = Some (k, m) ->
  materialOf (<[k := m']> mats) n = Some (k, m').
Proof.
  unfold materialOf. destruct (material n) as [k'|]; [|discriminate].
  destruct (mats !! k') as [m0|] eqn:E; [|discriminate].
  intros H. injection H as -> ->. rewrite lookup_insert_eq. reflexivity.
Qed.

(** The loop over the parts of a name, for a mesh that has a material: the
    material is lit when a part is the key, and one line is logged for each
    such part. *)
Lemma forElement_fold (n : Node) (matName : string) (k : nat)
      (elements : list string) :
  forall (m : Material) (r : Run),
    ended r = Normal ->
    materialOf (materials r) n = Some (k, m) ->
    let hit := existsb (fun element => String.eqb element (key d)) elements in
    let r' := fold_left (forElement d t n matName) elements r in
    ended r' = Normal
    /\ materials r' = (if hit then <[k := light t (intensity d) m]> (materials r)
                       else materials r)
    /\ applied r' = (applied r || hit)
    /\ console r'
       = console r
         ++ repeat (console_log "Applying lightmap to material:"
                                [ArgString matName])
                   (length (List.filter
                              (fun element => String.eqb element (key d))
                              elements)).
Proof.
  induction elements as [|e elements IH]; intros m r Hr Hm; cbn zeta.
  - cbn. rewrite orb_false_r, app_nil_r. repeat split. exact Hr.
  - cbn [fold_left existsb List.filter].
    destruct (String.eqb e (key d)) eqn:E.
    + pose (r1 := setApplied
                    {| ended := Normal;
                       materials := <[k := light t (intensity d) m]>
                                      (materials r);
                       applied := applied r;
                       console := console r
                                  ++ [console_log
                                        "Applying lightmap to material:"
                                        [ArgString matName]] |}).
      assert (Hstep : forElement d t n matName r e = r1).
      { unfold forElement. rewrite Hr, E. unfold lightNode, say.
        cbn [materials ended applied console]. rewrite Hm. reflexivity. }
      rewrite Hstep.
      assert (H1 : ended r1 = Normal) by reflexivity.
      assert (Hm1 : materialOf (materials r1) n
                    = Some (k, light t (intensity d) m)).
      { subst r1. cbn [materials setApplied].
        apply (materialOf_insert _ n k m). exact Hm. }
      destruct (IH (light t (intensity d) m) r1 H1 Hm1) as (I1 & I2 & I3 & I4).
      rewrite I1, I2, I3, I4. subst r1.
      cbn [materials applied console setApplied length repeat orb].
      rewrite light_idempotent, insert_insert_eq.
      repeat split.
      * destruct (existsb _ elements); reflexivity.
      * rewrite orb_true_r. reflexivity.
      * rewrite <- app_assoc. reflexivity.
    + assert (Hstep : forElement d t n matName r e = r).
      { unfold forElement. rewrite Hr, E. reflexivity. }
      rewrite Hstep.
      destruct (IH m r Hr Hm) as (I1 & I2 & I3 & I4).
      rewrite I1, I2, I3, I4. cbn [orb]. repeat split.
Qed.

(** A visit that does not throw lights the material of the node when the node
    is a mesh and the key is a part of the name, and nothing else. *)
Lemma visit_lookup (r : Run) (n : Node) :
  ended r = Normal ->
  ended (visit d t r n) = Normal ->
  forall k,
    materials (visit d t r n) !! k
    = (fun m => if holds n k && nameMatches (key d) m then light t (intensity d) m else m)
        <$> materials r !! k.
Proof.
  intros Hr Hn k. unfold visit in *. rewrite Hr in *. unfold holds.
  destruct (isMesh n); cbn [andb].
  - destruct (materialOf (materials r) n) as [[k0 m0]|] eqn:Hm.
    + assert (Hname : (if truthy (name m0) then name m0 else EmptyString)
                      = name m0).
      { unfold truthy. destruct (String.eqb (name m0) EmptyString) eqn:E;
          [|reflexivity].
        apply String.eqb_eq in E. cbn. congruence. }
      rewrite Hname in *.
      destruct (forElement_fold n (name m0) k0 (split pipe (name m0)) m0 r
                  Hr Hm) as (_ & I2 & _).
      rewrite I2. fold (nameMatches (key d) m0).
      unfold materialOf in Hm.
      destruct (material n) as [k'|]; [|discriminate].
      destruct (materials r !! k') as [m'|] eqn:E; [|discriminate].
      injection Hm as -> ->.
      destruct (Nat.eqb k0 k) eqn:Ek.
      * apply Nat.eqb_eq in Ek. subst k. rewrite E. cbn.
        destruct (nameMatches (key d) m0).
        -- rewrite lookup_insert_eq. reflexivity.
        -- exact E.
      * apply Nat.eqb_neq in Ek. cbn.
        destruct (nameMatches (key d) m0).
        -- rewrite lookup_insert_ne by exact Ek.
           destruct (materials r !! k); reflexivity.
        -- destruct (materials r !! k); reflexivity.
    + cbn [split pipe fold_left] in *. unfold forElement in *.
      rewrite Hr in *.
      destruct (String.eqb EmptyString (key d)).
      * unfold lightNode, say in Hn. cbn [materials] in Hn.
        rewrite Hm in Hn. cbn in Hn. discriminate Hn.
      * unfold materialOf in Hm.
        destruct (material n) as [k'|].
        -- destruct (materials r !! k') as [m'|] eqn:E; [discriminate|].
           destruct (Nat.eqb k' k) eqn:Ek.
           ++ apply Nat.eqb_eq in Ek. subst k'. rewrite E. reflexivity.
           ++ destruct (materials r !! k); reflexivity.
        -- destruct (materials r !! k); reflexivity.
  - destruct (materials r !! k); reflexivity.
Qed.

End Visit.

(** ** A whole traversal *)

Section Traversal.

Import Lightmap.

Variables (d : Data) (t : Texture).

(** A run that has thrown is not touched any more. *)
Lemma visit_after_throw (nodes : list Node) (r : Run) :
  ended r = Throw -> fold_left (visit d t) nodes r = r.
Proof.
  induction nodes as [|n nodes IH]; intros Hr; [reflexivity|].
  cbn [fold_left]. unfold visit at 2. rewrite Hr. apply IH. exact Hr.
Qed.

(** A visit throws exactly at a mesh without material when the key is the
    empty string, and it never changes which materials exist. *)
Lemma visit_ended (r : Run) (n : Node) :
  ended r = Normal ->
  ended (visit d t r n)
  = (if bareMesh (materials r) n && String.eqb EmptyString (key d)
     then Throw else Normal)
  /\ (forall n', materialOf (materials (visit d t r n)) n' = None
                 <-> materialOf (materials r) n' = None).
Proof.
  intros Hr. unfold visit, bareMesh. rewrite Hr.
  destruct (isMesh n); cbn [andb]; [|split; [exact Hr | tauto]].
  destruct (materialOf (materials r) n) as [[k0 m0]|] eqn:Hm.
  - destruct (forElement_fold d t n
                (if truthy (name m0) then name m0 else EmptyString) k0
                (split pipe (if truthy (name m0) then name m0
                             else EmptyString)) m0 r Hr Hm)
      as (I1 & I2 & _).
    split; [exact I1|]. intros n'. rewrite I2.
    destruct (existsb _ _); [|tauto].
    unfold materialOf in *. destruct (material n') as [k'|]; [|tauto].
    destruct (material n) as [kn|]; [|discriminate].
    destruct (materials r !! kn) as [mn|] eqn:En; [|discriminate].
    injection Hm as -> ->.
    destruct (Nat.eq_dec k0 k') as [->|Hne].
    + rewrite lookup_insert_eq, En. split; discriminate.
    + rewrite lookup_insert_ne by exact Hne. tauto.
  - cbn [split pipe fold_left]. unfold forElement. rewrite Hr.
    destruct (String.eqb EmptyString (key d)).
    + unfold lightNode, say. cbn [materials]. rewrite Hm. cbn.
      split; [reflexivity | tauto].
    + split; [exact Hr | tauto].
Qed.

Lemma existsb_same {A : Type} (f g : A -> bool) (l : list A) :
  (forall a, f a = g a) -> existsb f l = existsb g l.
Proof.
  intros H. induction l as [|a l IH]; [reflexivity|].
  cbn. rewrite H, IH. reflexivity.
Qed.

Lemma bareMesh_ext (mats mats' : gmap nat Material) :
  (forall n', materialOf mats' n' = None <-> materialOf mats n' = None) ->
  forall n, bareMesh mats' n = bareMesh mats n.
Proof.
  intros H n. unfold bareMesh. destruct (isMesh n); [|reflexivity]. cbn.
  specialize (H n).
  destruct (materialOf mats' n), (materialOf mats n); try reflexivity.
  - destruct H as [_ H]. discriminate (H eq_refl).
  - destruct H as [H _]. discriminate (H eq_refl).
Qed.

(** How the first traversal of [lightmap] ends. *)
Lemma fold_visit_ended (nodes : list Node) :
  forall r,
    ended r = Normal ->
    ended (fold_left (visit d t) nodes r)
    = (if existsb (bareMesh (materials r)) nodes
          && String.eqb EmptyString (key d)
       then Throw else Normal)
    /\ (forall n', materialOf (materials (fold_left (visit d t) nodes r)) n'
                   = None
                   <-> materialOf (materials r) n' = None).
Proof.
  induction nodes as [|n nodes IH]; intros r Hr.
  - cbn. split; [exact Hr | tauto].
  - cbn [fold_left existsb].
    destruct (visit_ended r n Hr) as (V1 & V2).
    destruct (bareMesh (materials r) n && String.eqb EmptyString (key d))
      eqn:E.
    + rewrite (visit_after_throw nodes _ V1).
      apply andb_true_iff in E. destruct E as [E1 E2].
      rewrite E1, E2. cbn. split; [exact V1 | exact V2].
    + destruct (IH _ V1) as (I1 & I2).
      rewrite I1.
      rewrite (existsb_same _ _ nodes (bareMesh_ext _ _ V2)).
      split.
      * destruct (bareMesh (materials r) n); cbn [orb andb] in *;
          [rewrite E; rewrite andb_false_r; reflexivity | reflexivity].
      * intros n'. rewrite I2. apply V2.
Qed.

(** The materials after the first traversal of [lightmap], when it did not
    throw: lit where a mesh among the nodes holds the material and the key is
    a part of its name, as they were elsewhere. *)
Lemma fold_visit_lookup (nodes : list Node) :
  forall r,
    ended r = Normal ->
    ended (fold_left (visit d t) nodes r) = Normal ->
    forall k,
      materials (fold_left (visit d t) nodes r) !! k
      = (fun m => if heldIn nodes k && nameMatches (key d) m
                  then light t (intensity d) m else m)
          <$> materials r !! k.
Proof.
  induction nodes as [|n nodes IH]; intros r Hr Hend k.
  - cbn. destruct (materials r !! k); reflexivity.
  - cbn [fold_left] in *.
    assert (H1 : ended (visit d t r n) = Normal).
    { destruct (ended (visit d t r n)) eqn:E; [reflexivity|].
      rewrite (visit_after_throw nodes _ E) in Hend. congruence. }
    rewrite (IH _ H1 Hend k), (visit_lookup d t r n Hr H1 k).
    destruct (materials r !! k) as [m|]; [|reflexivity]. cbn.
    f_equal. unfold nameMatches, heldIn. cbn [existsb].
    destruct (holds n k); cbn [orb andb].
    + destruct (existsb _ (split pipe (name m))) eqn:Em; cbn.
      * rewrite Em. destruct (existsb _ nodes); cbn;
          [apply light_idempotent | reflexivity].
      * rewrite Em, andb_false_r. reflexivity.
    + reflexivity.
Qed.

(** A visit of a node changes nothing when the node is no mesh, or when it
    has a material whose name does not have the key among its parts, or when
    it has no material and the key is not the empty string. *)
Lemma visit_noop (r : Run) (n : Node) :
  ended r = Normal ->
  (forall k m, materialOf (materials r) n = Some (k, m) ->
               isMesh n = true -> nameMatches (key d) m = false) ->
  bareMesh (materials r) n && String.eqb EmptyString (key d) = false ->
  visit d t r n = r.
Proof.
  intros Hr Hno Hbare. unfold visit, bareMesh in *. rewrite Hr.
  destruct (isMesh n); [|reflexivity]. cbn [andb] in Hbare.
  destruct (materialOf (materials r) n) as [[k0 m0]|] eqn:Hm.
  - assert (Hname : (if truthy (name m0) then name m0 else EmptyString)
                    = name m0).
    { unfold truthy. destruct (String.eqb (name m0) EmptyString) eqn:E;
        [|reflexivity].
      apply String.eqb_eq in E. cbn. congruence. }
    rewrite Hname.
    destruct (forElement_fold d t n (name m0) k0 (split pipe (name m0)) m0 r
                Hr Hm) as (I1 & I2 & I3 & I4).
    specialize (Hno k0 m0 eq_refl eq_refl). unfold nameMatches in Hno.
    rewrite Hno in I2, I3. rewrite orb_false_r in I3.
    assert (Hlen : length (List.filter
                             (fun element => String.eqb element (key d))
                             (split pipe (name m0))) = 0%nat).
    { clear -Hno. induction (split pipe (name m0)) as [|e l IH];
        [reflexivity|].
      cbn [existsb List.filter] in *.
      apply orb_false_iff in Hno. destruct Hno as [H1 H2].
      rewrite H1. apply IH. exact H2. }
    rewrite Hlen in I4. cbn [repeat] in I4. rewrite app_nil_r in I4.
    destruct (fold_left _ _ r) as [e' m' a' c'], r as [e0 m0' a0 c0].
    cbn in *. congruence.
  - cbn [split pipe fold_left]. unfold forElement. rewrite Hr.
    cbn [andb] in Hbare. rewrite Hbare. reflexivity.
Qed.

(** The second traversal of [lightmap] logs one line for each mesh. *)
Lemma fold_listName (nodes : list Node) :
  forall r,
    fold_left listName nodes r
    = {| ended := ended r; materials := materials r; applied := applied r;
         console := console r
                    ++ map (nameLine (materials r))
                           (List.filter isMesh nodes) |}.
Proof.
  induction nodes as [|n nodes IH]; intros r.
  - cbn. rewrite app_nil_r. destruct r; reflexivity.
  - cbn [fold_left List.filter]. rewrite IH. unfold listName.
    destruct (isMesh n).
    + unfold say. cbn [ended materials applied console map].
      rewrite <- app_assoc. reflexivity.
    + reflexivity.
Qed.

End Traversal.

Section TraversalTest.

Import Lightmap.

Variables (t : Texture) (i : Q).

Lemma visitTest_after_throw (nodes : list Node) (r : Run) :
  ended r = Throw -> fold_left (visitTest t i) nodes r = r.
Proof.
  induction nodes as [|n nodes IH]; intros Hr; [reflexivity|].
  cbn [fold_left]. unfold visitTest at 2. rewrite Hr. apply IH. exact Hr.
Qed.

(** One visit of [lightmap-test]: it throws at a mesh without material, and
    lights the material of any other mesh. *)
Lemma visitTest_step (r : Run) (n : Node) :
  ended r = Normal ->
  ended (visitTest t i r n)
  = (if bareMesh (materials r) n then Throw else Normal)
  /\ (forall n', materialOf (materials (visitTest t i r n)) n' = None
                 <-> materialOf (materials r) n' = None)
  /\ (ended (visitTest t i r n) = Normal ->
      forall k, materials (visitTest t i r n) !! k
                = (fun m => if holds n k then light t i m else m)
                    <$> materials r !! k).
Proof.
  intros Hr. unfold visitTest, bareMesh, holds. rewrite Hr.
  destruct (isMesh n); cbn [andb].
  - unfold lightNode, say. cbn [materials applied console].
    destruct (materialOf (materials r) n) as [[k0 m0]|] eqn:Hm;
      cbn [ended materials].
    + unfold materialOf in Hm.
      destruct (material n) as [kn|]; [|discriminate].
      destruct (materials r !! kn) as [mn|] eqn:En; [|discriminate].
      injection Hm as -> ->.
      split; [reflexivity|]. split.
      * intros n'. unfold materialOf. destruct (material n') as [k'|]; [|tauto].
        destruct (Nat.eq_dec k0 k') as [->|Hne].
        -- rewrite lookup_insert_eq, En. split; discriminate.
        -- rewrite lookup_insert_ne by exact Hne. tauto.
      * intros _ k. destruct (Nat.eqb k0 k) eqn:Ek.
        -- apply Nat.eqb_eq in Ek. subst k.
           rewrite lookup_insert_eq, En. reflexivity.
        -- apply Nat.eqb_neq in Ek. rewrite lookup_insert_ne by exact Ek.
           destruct (materials r !! k); reflexivity.
    + split; [reflexivity|]. split; [tauto | discriminate].
  - split; [exact Hr|]. split; [tauto|].
    intros _ k. destruct (materials r !! k); reflexivity.
Qed.

(** The traversal of [lightmap-test]: it throws when some mesh among the
    nodes has no material, and otherwise lights every material that a mesh
    holds. *)
Lemma fold_visitTest (nodes : list Node) :
  forall r,
    ended r = Normal ->
    ended (fold_left (visitTest t i) nodes r)
    = (if existsb (bareMesh (materials r)) nodes then Throw else Normal)
    /\ (ended (fold_left (visitTest t i) nodes r) = Normal ->
        forall k, materials (fold_left (visitTest t i) nodes r) !! k
                  = (fun m => if heldIn nodes k then light t i m else m)
                      <$> materials r !! k).
Proof.
  induction nodes as [|n nodes IH]; intros r Hr.
  - cbn. split; [exact Hr|]. intros _ k.
    destruct (materials r !! k); reflexivity.
  - cbn [fold_left existsb].
    destruct (visitTest_step r n Hr) as (V1 & V2 & V3).
    destruct (bareMesh (materials r) n) eqn:E; cbn [orb].
    + rewrite (visitTest_after_throw nodes _ V1).
      split; [exact V1|]. intros H. congruence.
    + destruct (IH _ V1) as (I1 & I2).
      rewrite (existsb_same _ _ nodes (bareMesh_ext _ _ V2)) in I1.
      split; [exact I1|]. intros Hend k.
      rewrite (I2 Hend k), (V3 V1 k).
      change (heldIn (n :: nodes) k) with (holds n k || heldIn nodes k).
      destruct (holds n k), (heldIn nodes k);
        destruct (materials r !! k) as [m|]; try reflexivity.
      cbn. f_equal. unfold light. cbn. f_equal. f_equal.
      apply insert_insert_eq.
Qed.

End TraversalTest.

(** ** The listeners *)

Section Listeners.

Import Lightmap.

Variables (three : Build) (d : Data) (root : Node).
Variable mats : gmap nat Material.

(** [lightmap] with a usable texture, unfolded once. *)
Lemma onModelLoaded_usable (img : Entity) (src : string) :
  usable (texture d) = Some (img, src) ->
  let r0 := {| ended := Normal; materials := mats; applied := false;
               console :=
                 [console_log "Creating lightmap texture from image element:"
                              [ArgString src];
                  console_log "Lightmap texture prepared" []] |} in
  let r := fold_left (visit d (prepareTexture three img)) (traverse root) r0 in
  onModelLoaded three d root mats
  = match ended r with
    | Throw => r
    | Normal =>
      if applied r then r
      else fold_left listName (traverse root)
             (say (console_log "Available materials in model:" [])
                  (say (console_warn "No material found with key:"
                                     [ArgString (key d)]) r))
    end.
Proof. intros H. unfold onModelLoaded. rewrite H. reflexivity. Qed.

(** How [lightmap] ends and what materials it leaves, in terms of the first
    traversal. *)
Lemma onModelLoaded_fields (img : Entity) (src : string) :
  usable (texture d) = Some (img, src) ->
  let r0 := {| ended := Normal; materials := mats; applied := false;
               console :=
                 [console_log "Creating lightmap texture from image element:"
                              [ArgString src];
                  console_log "Lightmap texture prepared" []] |} in
  let r := fold_left (visit d (prepareTexture three img)) (traverse root) r0 in
  ended (onModelLoaded three d root mats) = ended r
  /\ materials (onModelLoaded three d root mats) = materials r.
Proof.
  intros H r0 r. rewrite (onModelLoaded_usable img src H). fold r0. fold r.
  destruct (ended r) eqn:E; [|split; [exact E | reflexivity]].
  destruct (applied r); [split; [exact E | reflexivity]|].
  rewrite fold_listName. cbn. split; [exact E | reflexivity].
Qed.

(** A traversal in which no visit does anything. *)
Lemma fold_visit_noop (t : Texture) (nodes : list Node) (r : Run) :
  ended r = Normal ->
  (forall n, In n nodes ->
             (forall k m, materialOf (materials r) n = Some (k, m) ->
                          isMesh n = true -> nameMatches (key d) m = false)
             /\ bareMesh (materials r) n && String.eqb EmptyString (key d)
                = false) ->
  fold_left (visit d t) nodes r = r.
Proof.
  intros Hr. induction nodes as [|n nodes IH]; intros H; [reflexivity|].
  cbn [fold_left].
  destruct (H n (or_introl eq_refl)) as (H1 & H2).
  rewrite (visit_noop d t r n Hr H1 H2).
  apply IH. intros n' Hn'. apply H. right. exact Hn'.
Qed.

(** [lightmap] when no mesh has the key in the name of its material. *)
Lemma onModelLoaded_no_match (img : Entity) (src : string) :
  usable (texture d) = Some (img, src) ->
  (forall n, In n (traverse root) ->
             (forall k m, materialOf mats n = Some (k, m) ->
                          isMesh n = true -> nameMatches (key d) m = false)
             /\ bareMesh mats n && String.eqb EmptyString (key d) = false) ->
  onModelLoaded three d root mats
  = {| ended := Normal; materials := mats; applied := false;
       console :=
         [console_log "Creating lightmap texture from image element:"
                      [ArgString src];
          console_log "Lightmap texture prepared" [];
          console_warn "No material found with key:" [ArgString (key d)];
          console_log "Available materials in model:" []]
         ++ map (nameLine mats) (List.filter isMesh (traverse root)) |}.
Proof.
  intros Hu Hno. rewrite (onModelLoaded_usable img src Hu). cbv zeta.
  rewrite (fold_visit_noop (prepareTexture three img) (traverse root)
             {| ended := Normal; materials := mats; applied := false;
                console :=
                  [console_log "Creating lightmap texture from image element:"
                               [ArgString src];
                   console_log "Lightmap texture prepared" []] |}
             eq_refl Hno).
  cbn [ended applied]. rewrite fold_listName. reflexivity.
Qed.

End Listeners.

(** X13. When the texture of the component is not an image element with a
    source (a string, such as the default empty string or a URL, or an image
    without [src]), both listeners log one error and return: no material is
    touched. *)
Theorem unusable_texture_touches_nothing
        (three : Lightmap.Build) (d : Lightmap.Data) (root : Lightmap.Node)
        (mats : gmap nat Lightmap.Material) :
  (exists s, Lightmap.texture d = Lightmap.AssetString s)
  \/ (exists img, Lightmap.texture d = Lightmap.AssetElement img EmptyString) ->
  let quiet :=
    {| Lightmap.ended := Normal; Lightmap.materials := mats;
       Lightmap.applied := false;
       Lightmap.console :=
         [Lightmap.console_error "Lightmap texture not found or invalid:"
                                 [Lightmap.ArgAsset (Lightmap.texture d)]] |} in
  Lightmap.onModelLoaded three d root mats = quiet
  /\ Lightmap.onModelLoadedTest three d root mats = quiet.
Proof.
  intros H quiet.
  assert (Hu : Lightmap.usable (Lightmap.texture d) = None).
  { destruct H as [[s ->] | [img ->]]; reflexivity. }
  unfold Lightmap.onModelLoaded, Lightmap.onModelLoadedTest. rewrite Hu.
  split; reflexivity.
Qed.

(** The component with a URL as its texture, on the room. *)
Lemma unusable_texture_touches_nothing_witness :
  let d := {| Lightmap.texture := Lightmap.AssetString "lightmaps/room.jpg";
              Lightmap.key := "Wood"; Lightmap.intensity := 1 |} in
  Lightmap.materials
    (Lightmap.onModelLoaded Lightmap.r173 d Lightmap.room
                            Lightmap.roomMaterials)
  = Lightmap.roomMaterials
  /\ Lightmap.materials
       (Lightmap.onModelLoadedTest Lightmap.r173 d Lightmap.room
                                   Lightmap.roomMaterials)
     = Lightmap.roomMaterials.
Proof.
  intros d.
  destruct (unusable_texture_touches_nothing Lightmap.r173 d Lightmap.room
              Lightmap.roomMaterials) as (H1 & H2).
  - left. exists "lightmaps/room.jpg"%string. reflexivity.
  - rewrite H1, H2. split; reflexivity.
Defined.

(** X14. When [lightmap] does not throw, a material is lit exactly when a
    mesh of the model holds it and the key is one of the parts of its name
    between the bars; every other material, also one with a matching name
    that no mesh holds, is as it was. A lit material keeps its name, has the
    prepared texture as its [lightMap], the intensity of the component,
    [needsUpdate] set and [USE_LIGHTMAP] defined, and keeps every other define
    it had. *)
Theorem lightmap_lights_matching_materials
        (three : Lightmap.Build) (d : Lightmap.Data) (root : Lightmap.Node)
        (mats : gmap nat Lightmap.Material) (img : Entity) (src : string) :
  Lightmap.usable (Lightmap.texture d) = Some (img, src) ->
  Lightmap.ended (Lightmap.onModelLoaded three d root mats) = Normal ->
  let t := Lightmap.prepareTexture three img in
  (forall k,
      Lightmap.materials (Lightmap.onModelLoaded three d root mats) !! k
      = (fun m => if Lightmap.heldByMesh root k
                     && Lightmap.nameMatches (Lightmap.key d) m
                  then Lightmap.light t (Lightmap.intensity d) m else m)
          <$> mats !! k)
  /\ (forall m,
         let m' := Lightmap.light t (Lightmap.intensity d) m in
         Lightmap.name m' = Lightmap.name m
         /\ Lightmap.lightMap m' = Some t
         /\ Lightmap.lightMapIntensity m' = Lightmap.intensity d
         /\ Lightmap.needsUpdate m' = true
         /\ exists defs,
             Lightmap.defines m' = Some defs
             /\ defs !! "USE_LIGHTMAP"%string = Some EmptyString
             /\ forall name',
                 name' <> "USE_LIGHTMAP"%string ->
                 defs !! name' = default ∅ (Lightmap.defines m) !! name').
Proof.
  intros Hu Hend t. split.
  - intros k.
    destruct (onModelLoaded_fields three d root mats img src Hu) as (F1 & F2).
    rewrite F2. rewrite F1 in Hend.
    apply (fold_visit_lookup d t (Lightmap.traverse root));
      [reflexivity | exact Hend].
  - intros m m'. repeat split.
    eexists. split; [reflexivity|]. split.
    + apply lookup_insert_eq.
    + intros name' Hn. apply lookup_insert_ne. congruence.
Qed.

(** The room with the key [Wood]: the material the two table meshes share is
    lit, the floor is not, and neither is the material named [Wood] that only
    a group holds. *)
Lemma lightmap_lights_matching_materials_witness :
  let d := {| Lightmap.texture := Lightmap.AssetElement 9%nat "room.jpg";
              Lightmap.key := "Wood"; Lightmap.intensity := 0.8 |} in
  let r := Lightmap.onModelLoaded Lightmap.r173 d Lightmap.room
                                  Lightmap.roomMaterials in
  Lightmap.materials r !! 0%nat = Some (Lightmap.plain "Floor")
  /\ Lightmap.materials r !! 1%nat
     = Some (Lightmap.light (Lightmap.prepareTexture Lightmap.r173 9%nat) 0.8
               (Lightmap.plain "Wood|Furniture|Props"))
  /\ Lightmap.materials r !! 2%nat = Some (Lightmap.plain "Wood").
Proof.
  intros d r.
  destruct (lightmap_lights_matching_materials Lightmap.r173 d Lightmap.room
              Lightmap.roomMaterials 9%nat "room.jpg") as (H & _).
  - reflexivity.
  - vm_compute. reflexivity.
  - unfold r. rewrite !H. repeat split.
Defined.

(** X15. With a usable texture, [lightmap] throws exactly when the key is the
    empty string (the default of the schema) and some mesh of the model has no
    material; with any other key it completes. [lightmap-test] throws exactly
    when some mesh has no material. *)
Theorem listeners_throw_at_mesh_without_material
        (three : Lightmap.Build) (d : Lightmap.Data) (root : Lightmap.Node)
        (mats : gmap nat Lightmap.Material) (img : Entity) (src : string) :
  Lightmap.usable (Lightmap.texture d) = Some (img, src) ->
  Lightmap.ended (Lightmap.onModelLoaded three d root mats)
  = (if existsb (Lightmap.bareMesh mats) (Lightmap.traverse root)
        && String.eqb EmptyString (Lightmap.key d)
     then Throw else Normal)
  /\ Lightmap.ended (Lightmap.onModelLoadedTest three d root mats)
     = (if existsb (Lightmap.bareMesh mats) (Lightmap.traverse root)
        then Throw else Normal).
Proof.
  intros Hu. split.
  - destruct (onModelLoaded_fields three d root mats img src Hu) as (F1 & _).
    rewrite F1.
    apply (fold_visit_ended d (Lightmap.prepareTexture three img)
             (Lightmap.traverse root)
             {| Lightmap.ended := Normal; Lightmap.materials := mats;
                Lightmap.applied := false;
                Lightmap.console :=
                  [Lightmap.console_log
                     "Creating lightmap texture from image element:"
                     [Lightmap.ArgString src];
                   Lightmap.console_log "Lightmap texture prepared" []] |}).
    reflexivity.
  - unfold Lightmap.onModelLoadedTest. rewrite Hu.
    apply (fold_visitTest (Lightmap.prepareTexture three img)
             (Lightmap.intensity d) (Lightmap.traverse root)
             {| Lightmap.ended := Normal; Lightmap.materials := mats;
                Lightmap.applied := false;
                Lightmap.console :=
                  [Lightmap.console_log
                     "Creating lightmap texture from image element (test):"
                     [Lightmap.ArgString src];
                   Lightmap.console_log
                     "Lightmap texture created, applying to ALL materials"
                     []] |}).
    reflexivity.
Qed.

(** A mesh without material under the room and the default key. *)
Lemma listeners_throw_at_mesh_without_material_witness :
  let d := {| Lightmap.texture := Lightmap.AssetElement 9%nat "room.jpg";
              Lightmap.key := ""; Lightmap.intensity := 1 |} in
  let model := Lightmap.mkNode false None
                 [Lightmap.room; Lightmap.mkNode true None []] in
  Lightmap.ended (Lightmap.onModelLoaded Lightmap.r173 d model
                                         Lightmap.roomMaterials) = Throw
  /\ Lightmap.ended (Lightmap.onModelLoadedTest Lightmap.r173 d model
                                                Lightmap.roomMaterials)
     = Throw.
Proof.
  intros d model.
  destruct (listeners_throw_at_mesh_without_material Lightmap.r173 d model
              Lightmap.roomMaterials 9%nat "room.jpg") as (H1 & H2).
  - reflexivity.
  - rewrite H1, H2. split; reflexivity.
Defined.

(** X16. When no mesh of the model holds a material whose name has the key
    among its parts (and the listener does not throw on a mesh without
    material), [lightmap] leaves every material as it was, and after its two
    opening lines the console holds the warning with the key, the heading,
    and one line with the material name for each mesh of the model, in the
    order of the traversal. *)
Theorem no_match_warns_and_lists_materials
        (three : Lightmap.Build) (d : Lightmap.Data) (root : Lightmap.Node)
        (mats : gmap nat Lightmap.Material) (img : Entity) (src : string) :
  Lightmap.usable (Lightmap.texture d) = Some (img, src) ->
  (forall n k m,
      In n (Lightmap.traverse root) -> Lightmap.isMesh n = true ->
      Lightmap.materialOf mats n = Some (k, m) ->
      Lightmap.nameMatches (Lightmap.key d) m = false) ->
  existsb (Lightmap.bareMesh mats) (Lightmap.traverse root)
  && String.eqb EmptyString (Lightmap.key d) = false ->
  Lightmap.onModelLoaded three d root mats
  = {| Lightmap.ended := Normal; Lightmap.materials := mats;
       Lightmap.applied := false;
       Lightmap.console :=
         [Lightmap.console_log "Creating lightmap texture from image element:"
                               [Lightmap.ArgString src];
          Lightmap.console_log "Lightmap texture prepared" [];
          Lightmap.console_warn "No material found with key:"
                                [Lightmap.ArgString (Lightmap.key d)];
          Lightmap.console_log "Available materials in model:" []]
         ++ map (Lightmap.nameLine mats)
                (List.filter Lightmap.isMesh (Lightmap.traverse root)) |}.
Proof.
  intros Hu Hno Hbare.
  apply (onModelLoaded_no_match three d root mats img src Hu).
  intros n Hn. split.
  - intros k m Hm Hmesh. apply (Hno n k m Hn Hmesh Hm).
  - destruct (String.eqb EmptyString (Lightmap.key d));
      [|apply andb_false_r].
    rewrite andb_true_r in *.
    destruct (Lightmap.bareMesh mats n) eqn:E; [|reflexivity].
    assert (Hex : existsb (Lightmap.bareMesh mats) (Lightmap.traverse root)
                  = true).
    { apply existsb_exists. exists n. split; assumption. }
    congruence.
Qed.

(** The room with the key [Woo]: no part of any name is the key. *)
Lemma no_match_warns_and_lists_materials_witness :
  let d := {| Lightmap.texture := Lightmap.AssetElement 9%nat "room.jpg";
              Lightmap.key := "Woo"; Lightmap.intensity := 1 |} in
  let r := Lightmap.onModelLoaded Lightmap.r173 d Lightmap.room
                                  Lightmap.roomMaterials in
  Lightmap.materials r = Lightmap.roomMaterials
  /\ Lightmap.applied r = false
  /\ length (Lightmap.console r) = 7%nat.
Proof.
  intros d r.
  assert (E : r = Lightmap.onModelLoaded Lightmap.r173 d Lightmap.room
                    Lightmap.roomMaterials) by reflexivity.
  rewrite (no_match_warns_and_lists_materials Lightmap.r173 d Lightmap.room
             Lightmap.roomMaterials 9%nat "room.jpg") in E.
  - rewrite E. repeat split.
  - reflexivity.
  - intros n k m Hn Hmesh Hm. cbn in Hn.
    destruct Hn as [<- | [<- | [<- | [<- | [<- | []]]]]];
      try discriminate Hmesh;
      vm_compute in Hm; injection Hm as <- <-; reflexivity.
  - reflexivity.
Defined.

(** X17. A key that holds a bar never selects anything: the parts of a name
    hold no bar, so with such a key [lightmap] completes, lights no material
    and warns that no material was found, whatever the model is. *)
Theorem key_with_bar_never_applies
        (three : Lightmap.Build) (d : Lightmap.Data) (root : Lightmap.Node)
        (mats : gmap nat Lightmap.Material) (img : Entity) (src : string) :
  Lightmap.usable (Lightmap.texture d) = Some (img, src) ->
  Lightmap.occurs Lightmap.pipe (Lightmap.key d) = true ->
  let r := Lightmap.onModelLoaded three d root mats in
  Lightmap.ended r = Normal
  /\ Lightmap.materials r = mats
  /\ Lightmap.applied r = false
  /\ In (Lightmap.console_warn "No material found with key:"
                               [Lightmap.ArgString (Lightmap.key d)])
        (Lightmap.console r).
Proof.
  intros Hu Hk r. subst r.
  rewrite (onModelLoaded_no_match three d root mats img src Hu).
  - cbn [Lightmap.ended Lightmap.materials Lightmap.applied
         Lightmap.console].
    repeat split. cbn. right. right. left. reflexivity.
  - intros n Hn. split.
    + intros k m _ _. apply piped_key_matches_nothing. exact Hk.
    + destruct (Lightmap.key d) as [|ch key']; [discriminate Hk|].
      apply andb_false_r.
Qed.

(** The room with the whole name of the table material as the key. *)
Lemma key_with_bar_never_applies_witness :
  let d := {| Lightmap.texture := Lightmap.AssetElement 9%nat "room.jpg";
              Lightmap.key := "Wood|Furniture|Props";
              Lightmap.intensity := 1 |} in
  Lightmap.materials
    (Lightmap.onModelLoaded Lightmap.r173 d Lightmap.room
                            Lightmap.roomMaterials)
  = Lightmap.roomMaterials
  /\ Lightmap.applied
       (Lightmap.onModelLoaded Lightmap.r173 d Lightmap.room
                               Lightmap.roomMaterials) = false.
Proof.
  intros d.
  destruct (key_with_bar_never_applies Lightmap.r173 d Lightmap.room
              Lightmap.roomMaterials 9%nat "room.jpg") as (_ & H2 & H3 & _).
  - reflexivity.
  - reflexivity.
  - split; [exact H2 | exact H3].
Defined.

(** X18. When every mesh of the model has a material, [lightmap-test]
    completes and lights exactly the materials that some mesh holds, whatever
    their names; the materials no mesh holds are as they were. *)
Theorem lightmap_test_lights_every_mesh
        (three : Lightmap.Build) (d : Lightmap.Data) (root : Lightmap.Node)
        (mats : gmap nat Lightmap.Material) (img : Entity) (src : string) :
  Lightmap.usable (Lightmap.texture d) = Some (img, src) ->
  existsb (Lightmap.bareMesh mats) (Lightmap.traverse root) = false ->
  let r := Lightmap.onModelLoadedTest three d root mats in
  Lightmap.ended r = Normal
  /\ forall k,
      Lightmap.materials r !! k
      = (fun m => if Lightmap.heldByMesh root k
                  then Lightmap.light (Lightmap.prepareTexture three img)
                                      (Lightmap.intensity d) m
                  else m) <$> mats !! k.
Proof.
  intros Hu Hbare r. subst r. unfold Lightmap.onModelLoadedTest. rewrite Hu.
  destruct (fold_visitTest (Lightmap.prepareTexture three img)
              (Lightmap.intensity d) (Lightmap.traverse root)
              {| Lightmap.ended := Normal; Lightmap.materials := mats;
                 Lightmap.applied := false;
                 Lightmap.console :=
                   [Lightmap.console_log
                      "Creating lightmap texture from image element (test):"
                      [Lightmap.ArgString src];
                    Lightmap.console_log
                      "Lightmap texture created, applying to ALL materials"
                      []] |} eq_refl) as (H1 & H2).
  cbn [Lightmap.materials] in H1, H2. rewrite Hbare in H1.
  split; [exact H1 | exact (H2 H1)].
Qed.

(** The room: the floor and the table material are lit, the material that
    only a group holds is not. *)
Lemma lightmap_test_lights_every_mesh_witness :
  let d := {| Lightmap.texture := Lightmap.AssetElement 9%nat "room.jpg";
              Lightmap.key := ""; Lightmap.intensity := 0.8 |} in
  let r := Lightmap.onModelLoadedTest Lightmap.r173 d Lightmap.room
                                      Lightmap.roomMaterials in
  Lightmap.ended r = Normal
  /\ Lightmap.materials r !! 0%nat
     = Some (Lightmap.light (Lightmap.prepareTexture Lightmap.r173 9%nat) 0.8
               (Lightmap.plain "Floor"))
  /\ Lightmap.materials r !! 2%nat = Some (Lightmap.plain "Wood").
Proof.
  intros d r.
  destruct (lightmap_test_lights_every_mesh Lightmap.r173 d Lightmap.room
              Lightmap.roomMaterials 9%nat "room.jpg") as (H1 & H2).
  - reflexivity.
  - reflexivity.
  - split; [exact H1|]. unfold r. rewrite !H2. split; reflexivity.
Defined.

(** X19. When every mesh of the model has a material and the key is among
    the parts of the name of every material that a mesh holds, [lightmap] and
    [lightmap-test] both complete and leave the same materials. *)
Theorem listeners_agree_when_every_name_matches
        (three : Lightmap.Build) (d : Lightmap.Data) (root : Lightmap.Node)
        (mats : gmap nat Lightmap.Material) (img : Entity) (src : string) :
  Lightmap.usable (Lightmap.texture d) = Some (img, src) ->
  existsb (Lightmap.bareMesh mats) (Lightmap.traverse root) = false ->
  (forall k m, mats !! k = Some m -> Lightmap.heldByMesh root k = true ->
               Lightmap.nameMatches (Lightmap.key d) m = true) ->
  Lightmap.ended (Lightmap.onModelLoaded three d root mats) = Normal
  /\ Lightmap.ended (Lightmap.onModelLoadedTest three d root mats) = Normal
  /\ Lightmap.materials (Lightmap.onModelLoaded three d root mats)
     = Lightmap.materials (Lightmap.onModelLoadedTest three d root mats).
Proof.
  intros Hu Hbare Hall.
  destruct (onModelLoaded_fields three d root mats img src Hu) as (F1 & F2).
  pose (r0 := {| Lightmap.ended := Normal; Lightmap.materials := mats;
                 Lightmap.applied := false;
                 Lightmap.console :=
                   [Lightmap.console_log
                      "Creating lightmap texture from image element:"
                      [Lightmap.ArgString src];
                    Lightmap.console_log "Lightmap texture prepared" []] |}).
  destruct (fold_visit_ended d (Lightmap.prepareTexture three img)
              (Lightmap.traverse root) r0 eq_refl) as (E1 & _).
  cbn [Lightmap.materials r0] in E1. rewrite Hbare in E1. cbn [andb] in E1.
  fold r0 in F1, F2. rewrite E1 in F1.
  pose (r0' := {| Lightmap.ended := Normal; Lightmap.materials := mats;
                  Lightmap.applied := false;
                  Lightmap.console :=
                    [Lightmap.console_log
                       "Creating lightmap texture from image element (test):"
                       [Lightmap.ArgString src];
                     Lightmap.console_log
                       "Lightmap texture created, applying to ALL materials"
                       []] |}).
  destruct (fold_visitTest (Lightmap.prepareTexture three img)
              (Lightmap.intensity d) (Lightmap.traverse root) r0' eq_refl)
    as (T1 & T2).
  cbn [Lightmap.materials r0'] in T1, T2. rewrite Hbare in T1.
  assert (Etest : Lightmap.onModelLoadedTest three d root mats
                  = fold_left (Lightmap.visitTest
                                 (Lightmap.prepareTexture three img)
                                 (Lightmap.intensity d))
                              (Lightmap.traverse root) r0').
  { unfold Lightmap.onModelLoadedTest. rewrite Hu. reflexivity. }
  rewrite Etest. split; [exact F1|]. split; [exact T1|].
  rewrite F2. apply map_eq. intros k.
  rewrite (fold_visit_lookup d (Lightmap.prepareTexture three img)
             (Lightmap.traverse root) r0 eq_refl E1 k).
  rewrite (T2 T1 k). cbn [Lightmap.materials r0].
  destruct (mats !! k) as [m|] eqn:Em; [|reflexivity]. cbn. f_equal.
  fold (Lightmap.heldByMesh root k).
  destruct (Lightmap.heldByMesh root k) eqn:Eh; [|reflexivity].
  rewrite (Hall k m Em Eh). reflexivity.
Qed.

(** The room with the key [Props], and without the floor. *)
Lemma listeners_agree_when_every_name_matches_witness :
  let d := {| Lightmap.texture := Lightmap.AssetElement 9%nat "room.jpg";
              Lightmap.key := "Props"; Lightmap.intensity := 0.8 |} in
  let table := Lightmap.mkNode true (Some 1%nat)
                               [Lightmap.mkNode true (Some 1%nat) []] in
  Lightmap.materials
    (Lightmap.onModelLoaded Lightmap.r173 d table Lightmap.roomMaterials)
  = Lightmap.materials
      (Lightmap.onModelLoadedTest Lightmap.r173 d table
                                  Lightmap.roomMaterials).
Proof.
  intros d table.
  destruct (listeners_agree_when_every_name_matches Lightmap.r173 d table
              Lightmap.roomMaterials 9%nat "room.jpg") as (_ & _ & H).
  - reflexivity.
  - reflexivity.
  - intros k m Hm Hheld.
    destruct k as [|[|k]]; [discriminate Hheld | | discriminate Hheld].
    vm_compute in Hm. injection Hm as <-. reflexivity.
  - exact H.
Defined.

(** X20. Running [lightmap] again on the materials it left (the model is
    loaded once more) completes again and leaves the same materials: a lit
    material is lit with an equal texture and the same defines. *)
Theorem lightmap_again_changes_nothing
        (three : Lightmap.Build) (d : Lightmap.Data) (root : Lightmap.Node)
        (mats : gmap nat Lightmap.Material) (img : Entity) (src : string) :
  Lightmap.usable (Lightmap.texture d) = Some (img, src) ->
  Lightmap.ended (Lightmap.onModelLoaded three d root mats) = Normal ->
  let once := Lightmap.materials (Lightmap.onModelLoaded three d root mats) in
  Lightmap.ended (Lightmap.onModelLoaded three d root once) = Normal
  /\ Lightmap.materials (Lightmap.onModelLoaded three d root once) = once.
Proof.
  intros Hu Hend once.
  pose (t := Lightmap.prepareTexture three img).
  pose (opening := [Lightmap.console_log
                      "Creating lightmap texture from image element:"
                      [Lightmap.ArgString src];
                    Lightmap.console_log "Lightmap texture prepared" []]).
  pose (r0 := {| Lightmap.ended := Normal; Lightmap.materials := mats;
                 Lightmap.applied := false; Lightmap.console := opening |}).
  pose (r1 := {| Lightmap.ended := Normal; Lightmap.materials := once;
                 Lightmap.applied := false; Lightmap.console := opening |}).
  destruct (onModelLoaded_fields three d root mats img src Hu) as (F1 & F2).
  fold opening r0 t in F1, F2.
  destruct (onModelLoaded_fields three d root once img src Hu) as (G1 & G2).
  fold opening r1 t in G1, G2.
  rewrite F1 in Hend.
  destruct (fold_visit_ended d t (Lightmap.traverse root) r0 eq_refl)
    as (E0 & D0).
  destruct (fold_visit_ended d t (Lightmap.traverse root) r1 eq_refl)
    as (E1 & _).
  cbn [Lightmap.materials r0 r1] in E0, D0, E1.
  assert (Hdom : forall n, Lightmap.bareMesh once n = Lightmap.bareMesh mats n).
  { apply bareMesh_ext. intros n'. unfold once. rewrite F2. apply D0. }
  rewrite (existsb_same _ _ (Lightmap.traverse root) Hdom), <- E0, Hend in E1.
  rewrite G1. split; [exact E1|].
  rewrite G2. apply map_eq. intros k.
  rewrite (fold_visit_lookup d t (Lightmap.traverse root) r1 eq_refl E1 k).
  cbn [Lightmap.materials r1]. unfold once at 1 2. rewrite F2.
  rewrite (fold_visit_lookup d t (Lightmap.traverse root) r0 eq_refl Hend k).
  cbn [Lightmap.materials r0].
  destruct (mats !! k) as [m|]; [|reflexivity]. cbn. f_equal.
  fold (Lightmap.heldIn (Lightmap.traverse root) k).
  destruct (Lightmap.heldIn (Lightmap.traverse root) k); [|reflexivity].
  cbn [andb].
  destruct (Lightmap.nameMatches (Lightmap.key d) m) eqn:Em.
  - change (Lightmap.nameMatches (Lightmap.key d)
              (Lightmap.light t (Lightmap.intensity d) m))
      with (Lightmap.nameMatches (Lightmap.key d) m).
    rewrite Em. apply light_idempotent.
  - rewrite Em. reflexivity.
Qed.

(** The room with the key [Wood], loaded twice. *)
Lemma lightmap_again_changes_nothing_witness :
  let d := {| Lightmap.texture := Lightmap.AssetElement 9%nat "room.jpg";
              Lightmap.key := "Wood"; Lightmap.intensity := 0.8 |} in
  let once := Lightmap.materials
                (Lightmap.onModelLoaded Lightmap.r173 d Lightmap.room
                                        Lightmap.roomMaterials) in
  Lightmap.materials
    (Lightmap.onModelLoaded Lightmap.r173 d Lightmap.room once) = once.
Proof.
  intros d once.
  destruct (lightmap_again_changes_nothing Lightmap.r173 d Lightmap.room
              Lightmap.roomMaterials 9%nat "room.jpg") as (_ & H).
  - reflexivity.
  - vm_compute. reflexivity.
  - exact H.
Defined.

(** * [tick] on the page and [tick] on one instance *)

Section Page.

Variable sc : Scene.
Variables (this : nat) (w : World).
Hypothesis Hthis : (this < length (components w))%nat.

Lemma readThis_put (s : Component) (c : Closure) (l : list Ray) :
  readThis this (put this s c w) l = (Some s, put this s c w, l).
Proof.
  unfold readThis, put. cbn [components].
  rewrite list_lookup_insert_eq by exact Hthis. reflexivity.
Qed.

Lemma writeThis_put (f : Component -> Component) (s : Component)
      (c : Closure) (l : list Ray) :
  writeThis this f (put this s c w) l = (Some tt, put this (f s) c w, l).
Proof.
  unfold writeThis, put. cbn [components shared].
  rewrite list_lookup_insert_eq by exact Hthis.
  rewrite list_insert_insert_eq. reflexivity.
Qed.

Lemma readVars_put (s : Component) (c : Closure) (l : list Ray) :
  readVars (put this s c w) l = (Some c, put this s c w, l).
Proof. reflexivity. Qed.

Lemma writeVars_put (f : Closure -> Closure) (s : Component) (c : Closure)
      (l : list Ray) :
  writeVars f (put this s c w) l = (Some tt, put this s (f c) w, l).
Proof. reflexivity. Qed.

(** The statements of a committed hit do to the page what [acceptHit] does
    to the closure and the instance. *)
Lemma acceptStmt_refines (delta : Q) (next : Vector3) (r0 : Intersection)
      (s : Component) (c : Closure) (l : list Ray) :
  acceptStmt sc this delta next r0 (put this s c w) l
  = (ending (completion (acceptHit sc delta next c s r0)) tt,
     put this (component (acceptHit sc delta next c s r0))
         (closure (acceptHit sc delta next c s r0)) w,
     l).
Proof.
  unfold acceptStmt, acceptHit, bind. cbv zeta.
  rewrite readThis_put, readVars_put.
  destruct (Qlt_bool _ _).
  - rewrite writeVars_put, readVars_put. unfold ret. rewrite readThis_put.
    unfold notNull. destruct (xzOrigin s) as [o|]; [|reflexivity].
    rewrite !writeThis_put. reflexivity.
  - rewrite writeVars_put. unfold ret. rewrite readThis_put.
    unfold notNull. destruct (xzOrigin s) as [o|]; [|reflexivity].
    rewrite !writeThis_put. reflexivity.
Qed.

(** The loop of statements and [scanPatternLoop]. *)
Lemma scanStmt_refines (delta : Q) (next : Vector3)
      (pattern : list (Q * Q)) :
  forall (s : Component) (c : Closure) (l : list Ray),
    scanStmt sc this pattern delta next (put this s c w) l
    = (ending (completion (snd (scanPatternLoop sc pattern delta next c s)))
              (fst (scanPatternLoop sc pattern delta next c s)),
       put this
           (component (snd (scanPatternLoop sc pattern delta next c s)))
           (closure (snd (scanPatternLoop sc pattern delta next c s))) w,
       l ++ casts (snd (scanPatternLoop sc pattern delta next c s))).
Proof.
  induction pattern as [|[angle dist] pattern IH]; intros s c l.
  - cbn. rewrite app_nil_r. reflexivity.
  - cbn [scanStmt scanPatternLoop]. unfold bind at 1.
    rewrite readThis_put. unfold bind at 1. unfold notNull.
    destruct (lastPosition s) as [last|];
      [|cbn; rewrite app_nil_r; reflexivity].
    cbv zeta. unfold bind at 1. unfold castRay.
    destruct (intersectObjects sc (objects s)
                (candidateRay sc s next last angle dist)) as [|r0 rs].
    + rewrite IH.
      destruct (cast_fields (candidateRay sc s next last angle dist)
                  (scanPatternLoop sc pattern delta next c s))
        as (K1 & K2 & K3 & K4 & K5).
      rewrite K1, K2, K3, K4, K5, <- app_assoc. reflexivity.
    + destruct (existsb _ (r0 :: rs)).
      * rewrite IH.
        destruct (cast_fields (candidateRay sc s next last angle dist)
                    (scanPatternLoop sc pattern delta next c s))
          as (K1 & K2 & K3 & K4 & K5).
        rewrite K1, K2, K3, K4, K5, <- app_assoc. reflexivity.
      * unfold bind. rewrite acceptStmt_refines.
        destruct (acceptHit_sameConfig sc delta next c s r0) as (_ & A2 & _).
        cbn [cast fst snd completion closure component casts]. rewrite A2.
        destruct (completion (acceptHit sc delta next c s r0)); reflexivity.
Qed.

End Page.

(** A page is the page with one of its instances and its closure put back. *)
Lemma put_same (this : nat) (w : World) (s : Component) :
  components w !! this = Some s -> put this s (shared w) w = w.
Proof.
  intros H. unfold put. rewrite (list_insert_id _ _ _ H).
  destruct w; reflexivity.
Qed.

(** The statements of [tick], run on the page for the instance [this], do to
    the page what [tick] does to the closure and to that instance, and cast
    the same rays. *)
Lemma tickStmt_refines (sc : Scene) (this : nat) (time delta : Q)
      (w : World) (s : Component) (l : list Ray) :
  components w !! this = Some s ->
  tickStmt sc this time delta w l
  = (ending (completion (tick sc time delta (shared w) s)) tt,
     put this (component (tick sc time delta (shared w) s))
         (closure (tick sc time delta (shared w) s)) w,
     l ++ casts (tick sc time delta (shared w) s)).
Proof.
  intros Hs.
  assert (Hthis : (this < length (components w))%nat).
  { apply lookup_lt_is_Some. eauto. }
  rewrite <- (put_same this w s Hs) at 1.
  generalize (shared w). intros c.
  unfold tickStmt, tick. unfold bind at 1.
  rewrite (readThis_put this w Hthis).
  destruct (Schema.enabled (data s)); cbn [negb];
    [|cbn; rewrite app_nil_r; reflexivity].
  assert (Hrest : forall s' c',
             lastPosition s' <> None ->
             (s0 <- readThis this ;;
              if Nat.eqb (length (objects s0)) 0 then ret tt
              else
                o <- notNull (xzOrigin s0) ;;
                last <- notNull (lastPosition s0) ;;
                if THREE.distanceTo_le (sampleOrigin sc s0 o) last 0.01
                then ret tt
                else
                  didHit <- scanStmt sc this scanPattern delta
                                     (sampleOrigin sc s0 o) ;;
                  _ <- (if didHit
                        then writeVars (fun c => set_firstTry c false)
                        else ret tt) ;;
                  c <- readVars ;;
                  if negb (firstTry c) && negb didHit
                  then
                    s1 <- readThis this ;;
                    last <- notNull (lastPosition s1) ;;
                    writeThis this
                      (fun s2 => set_position s2
                                   (parentWorldToLocal sc (el s2) last))
                  else ret tt) (put this s' c' w) l
             = let f :=
                 if Nat.eqb (length (objects s')) 0
                 then {| completion := Normal; closure := c';
                         component := s'; casts := [] |}
                 else
                   match xzOrigin s', lastPosition s' with
                   | None, _ | _, None =>
                     {| completion := Throw; closure := c'; component := s';
                        casts := [] |}
                   | Some o, Some last =>
                     if THREE.distanceTo_le (sampleOrigin sc s' o) last 0.01
                     then {| completion := Normal; closure := c';
                             component := s'; casts := [] |}
                     else afterScan sc
                            (scanPatternLoop sc scanPattern delta
                               (sampleOrigin sc s' o) c' s')
                   end in
               (ending (completion f) tt,
                put this (component f) (closure f) w, l ++ casts f)).
  { intros s' c' Hl. unfold bind at 1.
    rewrite (readThis_put this w Hthis).
    destruct (Nat.eqb (length (objects s')) 0);
      [cbn; rewrite app_nil_r; reflexivity|].
    unfold bind at 1. unfold notNull at 1.
    destruct (xzOrigin s') as [o|];
      [|cbn; rewrite app_nil_r; reflexivity].
    cbv zeta. unfold bind at 1. unfold notNull at 1.
    destruct (lastPosition s') as [last|] eqn:El; [|contradiction].
    destruct (THREE.distanceTo_le (sampleOrigin sc s' o) last 0.01);
      [cbn; rewrite app_nil_r; reflexivity|].
    unfold bind at 1.
    rewrite (scanStmt_refines sc this w Hthis).
    unfold afterScan.
    destruct (scanPatternLoop sc scanPattern delta (sampleOrigin sc s' o)
                              c' s') as [didHit f].
    cbn [fst snd].
    destruct (completion f) eqn:Ek; cbn [ending];
      [|rewrite Ek; reflexivity].
    unfold bind at 1.
    destruct didHit.
    - rewrite writeVars_put. unfold bind at 1. rewrite readVars_put.
      cbn [firstTry set_firstTry negb andb]. reflexivity.
    - unfold ret at 1. unfold bind at 1. rewrite readVars_put.
      cbn [negb andb]. rewrite andb_true_r.
      destruct (firstTry (closure f)); cbn [negb].
      + reflexivity.
      + unfold bind at 1.
        rewrite (readThis_put this w Hthis).
        unfold bind at 1. unfold notNull at 1.
        destruct (lastPosition (component f)) as [last'|]; [|reflexivity].
        rewrite (writeThis_put this w Hthis). reflexivity. }
  destruct (lastPosition s) as [last|] eqn:Hlast.
  - unfold bind at 1. unfold ret at 1. cbv beta iota zeta.
    rewrite (Hrest s c) by (rewrite Hlast; discriminate).
    cbv zeta. rewrite Hlast. reflexivity.
  - unfold bind at 1. unfold bind at 1. rewrite writeVars_put.
    cbv beta iota.
    unfold bind at 1. rewrite (writeThis_put this w Hthis).
    cbv beta iota.
    unfold bind at 1. rewrite (readThis_put this w Hthis).
    cbv beta iota.
    unfold bind at 1. unfold notNull at 1.
    cbn [xzOrigin set_lastPosition].
    destruct (xzOrigin s) as [o|] eqn:Ho;
      [|cbn; rewrite app_nil_r; reflexivity].
    cbv beta iota.
    rewrite (writeThis_put this w Hthis).
    cbv beta iota zeta.
    rewrite Hrest by discriminate.
    cbv zeta. cbn [objects xzOrigin lastPosition set_lastPosition].
    rewrite Ho. reflexivity.
Qed.

(** ** Several instances: what a frame writes *)

(** C7 (as the code has it). [lastPosition], the agent's position and the
    configuration are fields of one instance: the statements of [tick], run
    on the page for one instance, leave every other instance as it was, and
    the number of instances. [yVel] and [firstTry] are variables of the one
    closure of [tick]: after a frame of one instance they are what [tick]
    computed from them for that instance, and the frame of another instance
    that follows computes from those. On the page [tick] does what
    [tickComponent] says. *)
Theorem tick_leaves_other_instances_fields
        (sc : Scene) (this j : nat) (time delta : Q) (w : World)
        (log : list Ray) :
  this <> j ->
  let w' := snd (fst (tickStmt sc this time delta w log)) in
  components w' !! j = components w !! j
  /\ length (components w') = length (components w)
  /\ w' = tickComponent sc this time delta w
  /\ (forall s,
         components w !! this = Some s ->
         let f := tick sc time delta (shared w) s in
         shared w' = closure f
         /\ components w' !! this = Some (component f)
         /\ fst (fst (tickStmt sc this time delta w log))
            = ending (completion f) tt
         /\ snd (tickStmt sc this time delta w log) = log ++ casts f
         /\ forall sj time' delta' log',
             components w !! j = Some sj ->
             let f' := tick sc time' delta' (closure f) sj in
             let w'' := snd (fst (tickStmt sc j time' delta' w' log')) in
             shared w'' = closure f'
             /\ components w'' !! j = Some (component f')
             /\ components w'' !! this = Some (component f)).
Proof.
  intros Hne w'.
  destruct (components w !! this) as [s|] eqn:Hs.
  - assert (Hlt : (this < length (components w))%nat).
    { apply lookup_lt_is_Some. eauto. }
    assert (E : w' = put this (component (tick sc time delta (shared w) s))
                         (closure (tick sc time delta (shared w) s)) w).
    { unfold w'. rewrite (tickStmt_refines sc this time delta w s log Hs).
      reflexivity. }
    split; [rewrite E; apply list_lookup_insert_ne; exact Hne|].
    split; [rewrite E; apply length_insert|].
    split; [rewrite E; unfold tickComponent, put; rewrite Hs; reflexivity|].
    intros s0 Hs0 f. injection Hs0 as <-.
    split; [rewrite E; reflexivity|].
    split; [rewrite E; apply list_lookup_insert_eq; exact Hlt|].
    split; [rewrite (tickStmt_refines sc this time delta w s log Hs);
            reflexivity|].
    split; [rewrite (tickStmt_refines sc this time delta w s log Hs);
            reflexivity|].
    intros sj time' delta' log' Hsj f' w''.
    assert (Hj : components w' !! j = Some sj).
    { rewrite E. unfold put. cbn [components].
      rewrite list_lookup_insert_ne by exact Hne. exact Hsj. }
    unfold w''.
    rewrite (tickStmt_refines sc j time' delta' w' sj log' Hj).
    cbn [fst snd]. unfold put at 1 2 3. cbn [shared components].
    assert (Hsh : shared w' = closure f) by (rewrite E; reflexivity).
    rewrite Hsh. fold f'.
    split; [reflexivity|].
    split.
    + apply list_lookup_insert_eq. apply lookup_lt_is_Some. eauto.
    + rewrite list_lookup_insert_ne by (intros H; apply Hne; symmetry;
                                        exact H).
      rewrite E. apply list_lookup_insert_eq. exact Hlt.
  - assert (E : w' = w).
    { unfold w', tickStmt, bind, readThis. rewrite Hs. reflexivity. }
    rewrite E.
    split; [reflexivity|]. split; [reflexivity|].
    split; [unfold tickComponent; rewrite Hs; reflexivity|].
    intros s0 Hs0. discriminate Hs0.
Qed.

(** The two agents beside the platform: the frame in which the first one
    lands leaves the second one as it was, clears [firstTry], and the frame
    of the second one that follows rolls it back. *)
Lemma tick_leaves_other_instances_fields_witness :
  let w' := snd (fst (tickStmt Demo.scene 0 16 16 Story.started [])) in
  components w' !! 1%nat = components Story.started !! 1%nat
  /\ w' = Story.firstLanded
  /\ firstTry (shared w') = false
  /\ Story.positionOf 1
       (snd (fst (tickStmt Demo.scene 1 16 16 w' [])))
     = Some (THREE.Vec3 5 1.6 0).
Proof.
  intros w'.
  destruct (tick_leaves_other_instances_fields Demo.scene 0 1 16 16
              Story.started []) as (H1 & _ & H3 & _).
  - lia.
  - split; [exact H1|]. split; [exact H3|].
    split; vm_compute; reflexivity.
Defined.
